(** * readycash: session cache and re-authentication of the gateway client

    A shallow embedding of [client.go] (and of the bank table and the response
    models next to it).  Strings and byte slices are [string]; [int], [int64]
    and [time.Duration] are [Z], with the wrap-around of int64 written out
    where the code can reach it; the client's collaborators (credential store,
    HTTP transport, clock, cipher, encoders) are interfaces whose calls are
    recorded in a trace. *)

From Stdlib Require Import ZArith NArith List Bool Ascii String Lia.
From stdpp Require Import base strings gmap list pretty.

Open Scope Z_scope.

(** ** Machine integers *)

Definition MaxInt64 : Z := 9223372036854775807.
Definition MinInt64 : Z := -9223372036854775808.

(** the value that an int64 computation leaves: [z] modulo 2^64, in
    [MinInt64 .. MaxInt64] *)
Definition int64 (z : Z) : Z := (z - MinInt64) mod 18446744073709551616 + MinInt64.

(** ** Floating point ([float64])

    What [Duration.Seconds] needs of it: division and addition of
    non-negative numbers, rounded to the nearest float64, ties to even.  A
    float64 is kept as a pair [(m, e)] that stands for [m * 2^e]; the numbers
    at hand are far from the subnormal and from the infinite range. *)

Module float64.

(** the integer nearest to [p / q], ties to even; [0 <= p], [0 < q] *)
Definition nearest_even (p q : Z) : Z :=
  let d := p / q in
  let r2 := 2 * (p mod q) in
  if r2 <? q then d
  else if q <? r2 then d + 1
  else if Z.even d then d else d + 1.

(** [p / q] divided by [2^e], as a fraction *)
Definition scaled (p q e : Z) : Z * Z :=
  if 0 <=? e then (p, q * 2 ^ e) else (p * 2 ^ (- e), q).

(** the float64 nearest to [p / q]; [0 <= p], [0 < q] *)
Definition round (p q : Z) : Z * Z :=
  if p =? 0 then (0, 0)
  else
    let e0 := Z.log2 p - Z.log2 q in
    let '(p0, q0) := scaled p q e0 in
    let k := if q0 <=? p0 then e0 else e0 - 1 in      (* 2^k <= p/q < 2^(k+1) *)
    let e := k - 52 in
    let '(p1, q1) := scaled p q e in
    (nearest_even p1 q1, e).

(** the whole part of the float64 [m * 2^e], [0 <= m] *)
Definition trunc (x : Z * Z) : Z :=
  let '(m, e) := x in if 0 <=? e then m * 2 ^ e else m / 2 ^ (- e).

(** [a + x] for an integer [0 <= a] that a float64 holds exactly *)
Definition add_int (a : Z) (x : Z * Z) : Z * Z :=
  let '(m, e) := x in
  if 0 <=? e then round (a + m * 2 ^ e) 1 else round (a * 2 ^ (- e) + m) (2 ^ (- e)).

End float64.

(** ** Instants ([time.Time])

    An instant is the number of nanoseconds elapsed since January 1, year 1,
    00:00:00 UTC, which is Go's zero [time.Time]: Go keeps the seconds of it
    in an int64 and the nanoseconds within the second apart.  The monotonic
    reading that a [time.Time] may carry is not modelled. *)

Module time.

Definition Time : Type := Z.
Definition Duration : Type := Z.

Definition Second : Duration := 1000000000.

(** seconds from year 1 to the Unix epoch ([unixToInternal] in package time) *)
Definition unixToInternal : Z := 62135596800.

(** [time.Time{}] *)
Definition zero : Time := 0.

Definition IsZero (t : Time) : bool := t =? 0.

(** [t.After(u)] *)
Definition After (t u : Time) : bool := u <? t.

(** [time.Unix(sec, 0)]: the seconds are [sec + unixToInternal], computed in
    int64 *)
Definition FromUnix (sec : Z) : Time := int64 (sec + unixToInternal) * Second.

(** [t.Unix()]: the seconds of [t] less [unixToInternal], computed in int64 *)
Definition Unix (t : Time) : Z := int64 (t / Second - unixToInternal).

(** [t.Add(d)] *)
Definition Add (t : Time) (d : Duration) : Time := t + d.

(** [int64(d.Seconds())].  [Seconds] is
    [float64(d / Second) + float64(d % Second) / 1e9]: the quotient and the
    remainder have the sign of [d], the division and the sum are rounded, and
    the conversion to int64 drops the fraction. *)
Definition Seconds (d : Duration) : Z :=
  let sec := Z.abs (d ÷ Second) in
  let nsec := Z.abs (Z.rem d Second) in
  Z.sgn d * float64.trunc (float64.add_int sec (float64.round nsec 1000000000)).

End time.

(** ** Errors *)

(** models file: [ErrorResponse] *)
Record ErrorResponse := mkErrorResponse {
  Status : Z;
  Code : Z;
  Message : string;
  DeveloperMessage : string
}.

Definition NewErrorResponse (status code : Z) (message developerMessage : string)
  : ErrorResponse :=
  {| Status := status; Code := code; Message := message;
     DeveloperMessage := developerMessage |}.

Definition NewServerErrorResponse (message : string) : ErrorResponse :=
  NewErrorResponse 500 500 message "".

(** The values of Go's [error] that the client can hand to its caller.
    [Foreign] carries the errors raised by the collaborators (storage,
    transport, cipher, encoding/json, net/http); they are opaque to the client
    and kept apart from the package's own values. *)
Inductive error :=
| ErrAccountCredentialsRequired
| ErrLoginFailed (body : string)   (* fmt.Errorf("%s %w", body, ErrLoginFailed) *)
| ErrBankNotSupportedOnUSSD
| ErrResponse (e : ErrorResponse)  (* an *ErrorResponse *)
| Foreign (msg : string).

Definition ErrEmptyResponse : error :=
  ErrResponse (NewServerErrorResponse "Invalid Response Body").

(** ** Constants of client.go *)

Definition baseUssdTransaction : string := "/rc/rest/agent/transact/ussd/cashout".
Definition baseFetchUssdTransaction : string := "/rc/rest/agent/transact/ussd/cashout/check".
Definition baseLoginUrl : string := "/rc/rest/agent/login".
Definition baseBalanceUrl : string := "/rc/rest/agent/balance".
Definition baseTransactionsUrl : string := "/rc/rest/agent/tranlist".

Definition StatusOK : Z := 200.
Definition StatusCreated : Z := 201.
Definition StatusAccepted : Z := 202.
Definition StatusForbidden : Z := 403.

(** ** Session state *)

Record authCacheKey := mkAuthCacheKey {
  authorizationKey : string;
  sessionIDKey : string;
  expirationKey : string;
  encodedPinKey : string
}.

Record authParams := mkAuthParams {
  authorization : string;
  sessionID : string;
  expiration : time.Time;
  encodedPin : string
}.

Definition is_empty (s : string) : bool := if decide (s = "") then true else false.

(** [authParams.reset] *)
Definition reset (p : authParams) : authParams :=
  {| authorization := ""; encodedPin := ""; sessionID := "";
     expiration := time.zero |}.

Record Account := mkAccount {
  UserName : string;
  Password : string;
  Pin : string;
  SessionLength : time.Duration
}.

(** [Client]: the fields that stay fixed after construction.  The mutable
    field [access], the storage and the HTTP client live in [State]; the
    logger has no bearing on results and is left out. *)
Record Client := mkClient {
  account : Account;
  baseURL : string
}.

(** ** Requests, responses and the trace of calls *)

Definition Header : Type := list (string * string).

(** [Header.Get]: the first value stored under [key], or the empty string *)
Fixpoint Header_Get (h : Header) (key : string) : string :=
  match h with
  | [] => ""
  | (k, v) :: h' => if decide (k = key) then v else Header_Get h' key
  end.

Record Request := mkRequest {
  Method : string;
  URL : string;
  ReqHeader : Header;
  ReqBody : option string
}.

(** [RespBody]: [None] is a nil [Body]; [Some (data, err)] is a body on which
    [ioutil.ReadAll] yields [data] and [err]. *)
Record Response := mkResponse {
  StatusCode : Z;
  RespHeader : Header;
  RespBody : option (string * option string)
}.

(** One entry per call made to a collaborator, with what the call returned. *)
Inductive Event :=
| EGetString (key : string) (val : string) (err : option string)
| EGetInt (key : string) (val : Z) (err : option string)
| ESetStringFor (key val : string) (exp : time.Duration) (err : option string)
| ESetIntFor (key : string) (val : Z) (exp : time.Duration) (err : option string)
| EPostForm (url : string) (form : list (string * string)) (res : string + Response)
| EDo (req : Request) (res : string + Response).

(** ** Collaborators *)

(** The [Storage] interface of client.go. *)
Class Storage (S : Type) := {
  SetStringFor : string -> string -> time.Duration -> S -> option string * S;
  SetIntFor : string -> Z -> time.Duration -> S -> option string * S;
  GetString : string -> S -> (string * option string) * S;
  GetInt : string -> S -> (Z * option string) * S
}.

(** The two methods of [*http.Client] that the client calls. *)
Class HttpClient (T : Type) := {
  PostForm : string -> list (string * string) -> T -> (string + Response) * T;
  Do : Request -> T -> (string + Response) * T
}.

(** models file: [UssdTransactionResponse] *)
Record UssdTransactionResponse := mkUssdTransactionResponse {
  UserDefinedReference : string;
  MerchantRef : string;
  TransactionRef : string;
  UssdString : string;
  Amount : Z;
  ResponseCode : string;
  TransactionDate : Z;
  ExpiryDate : Z;
  CompletionDate : Z;
  TxStatus : string;          (* the field Status *)
  PaymentRef : option string;
  PayerPhone : option string;
  PaymentBank : option string;
  PaymentNetwork : option string;
  PaymentBankCode : option string
}.

Definition set_UserDefinedReference (reference : string) (u : UssdTransactionResponse)
  : UssdTransactionResponse :=
  {| UserDefinedReference := reference; MerchantRef := MerchantRef u;
     TransactionRef := TransactionRef u; UssdString := UssdString u;
     Amount := Amount u; ResponseCode := ResponseCode u;
     TransactionDate := TransactionDate u; ExpiryDate := ExpiryDate u;
     CompletionDate := CompletionDate u; TxStatus := TxStatus u;
     PaymentRef := PaymentRef u; PayerPhone := PayerPhone u;
     PaymentBank := PaymentBank u; PaymentNetwork := PaymentNetwork u;
     PaymentBankCode := PaymentBankCode u |}.

(** What the client code relies on without defining it: the clock, the
    package's DES helper, and the parts of net/url, net/http and encoding/json
    it goes through.  Where the Go function can panic, the result is an
    [option] and [None] is the panic. *)
Class Platform := {
  float64 : Type;
  BalanceEnquiryResponse : Type;
  WalletTransaction : Type;
  (** the reading of the [i]-th call of [time.Now()] *)
  wall : nat -> time.Time;
  (** [DesEncrypt([]byte(pin), []byte(key))]: the hex string and the error *)
  DesEncrypt : string -> string -> string * option string;
  (** [url.Parse] of the first argument, the pairs added to its query, the
      result printed back; [None] when [url.Parse] fails *)
  url_with_query : string -> list (string * string) -> option string;
  (** the error of [http.NewRequest(method, url, _)], if any *)
  http_NewRequest : string -> string -> option string;
  (** [json.Marshal] of the payload of GenerateUSSD: amount, bankCode, ref *)
  json_Marshal_payload : float64 -> string -> string -> string + string;
  (** [json.Unmarshal(data, &e)] for an [ErrorResponse] *)
  json_Unmarshal_ErrorResponse : string -> string + ErrorResponse;
  (** [json.Unmarshal(data, &r)] for a [UssdTransactionResponse] *)
  json_Unmarshal_Ussd : string -> string + UssdTransactionResponse;
  (** models file: [NewBalanceResponse]; its type assertions can panic *)
  NewBalanceResponse : string -> option (string + BalanceEnquiryResponse);
  (** models file: [NewWalletTransactions] *)
  NewWalletTransactions : string -> string + list WalletTransaction
}.

(** ** State and the monad of client code *)

Record State (S T : Type) := mkState {
  access : authParams;      (* r.access *)
  storage : S;              (* what r.storage talks to *)
  httpClient : T;           (* what r.httpClient talks to *)
  ticks : nat;              (* calls of time.Now() so far *)
  trace : list Event        (* calls to storage and transport so far, oldest first *)
}.
Arguments mkState {S T}.
Arguments access {S T}.
Arguments storage {S T}.
Arguments httpClient {S T}.
Arguments ticks {S T}.
Arguments trace {S T}.

(** How a call ends: it returns [a], it panics, or the model ran out of fuel
    (only the two self-invoking operations take fuel); each time in the state
    [st] reached by then. *)
Inductive result (St A : Type) :=
| Ok (a : A) (st : St)
| Panic (st : St)
| Timeout (st : St).
Arguments Ok {St A}.
Arguments Panic {St A}.
Arguments Timeout {St A}.

(** what a run returned, if it returned, and the state it ended in *)
Definition returned {St A : Type} (x : result St A) : option A :=
  match x with Ok a _ => Some a | _ => None end.

Definition final {St A : Type} (x : result St A) : St :=
  match x with Ok _ st | Panic st | Timeout st => st end.

Definition M (St A : Type) : Type := St -> result St A.

Definition ret {St A} (a : A) : M St A := fun st => Ok a st.

Definition bind {St A B} (m : M St A) (f : A -> M St B) : M St B :=
  fun st => match m st with
            | Ok a st' => f a st'
            | Panic st' => Panic st'
            | Timeout st' => Timeout st'
            end.

Definition panic {St A} : M St A := fun st => Panic st.
Definition timeout {St A} : M St A := fun st => Timeout st.

Declare Scope go_scope.
Delimit Scope go_scope with go.
Notation "x <- c1 ;; c2" := (bind c1 (fun x => c2))
  (at level 100, c1 at next level, right associativity) : go_scope.
Notation "c1 ;; c2" := (bind c1 (fun _ => c2))
  (at level 100, right associativity) : go_scope.
Open Scope go_scope.

(** ** The client *)

Section ClientCode.
Context {S T : Type} {store : Storage S} {transport : HttpClient T} {platform : Platform}.

Local Abbreviation Go := (M (State S T)).

(** *** Primitive effects: each call to a collaborator is logged *)

Definition set_access (p : authParams) : Go unit :=
  fun st => Ok tt (mkState p (storage st) (httpClient st) (ticks st) (trace st)).

Definition get_access : Go authParams :=
  fun st => Ok (access st) st.

Definition time_Now : Go time.Time :=
  fun st => Ok (wall (ticks st))
               (mkState (access st) (storage st) (httpClient st) (Datatypes.S (ticks st))
                        (trace st)).

Definition storage_GetString (key : string) : Go (string * option string) :=
  fun st => let '(res, s') := GetString key (storage st) in
            Ok res (mkState (access st) s' (httpClient st) (ticks st)
                            (trace st ++ [EGetString key res.1 res.2])).

Definition storage_GetInt (key : string) : Go (Z * option string) :=
  fun st => let '(res, s') := GetInt key (storage st) in
            Ok res (mkState (access st) s' (httpClient st) (ticks st)
                            (trace st ++ [EGetInt key res.1 res.2])).

Definition storage_SetStringFor (key val : string) (exp : time.Duration)
  : Go (option string) :=
  fun st => let '(err, s') := SetStringFor key val exp (storage st) in
            Ok err (mkState (access st) s' (httpClient st) (ticks st)
                            (trace st ++ [ESetStringFor key val exp err])).

Definition storage_SetIntFor (key : string) (val : Z) (exp : time.Duration)
  : Go (option string) :=
  fun st => let '(err, s') := SetIntFor key val exp (storage st) in
            Ok err (mkState (access st) s' (httpClient st) (ticks st)
                            (trace st ++ [ESetIntFor key val exp err])).

Definition httpClient_PostForm (url : string) (form : list (string * string))
  : Go (string + Response) :=
  fun st => let '(res, t') := PostForm url form (httpClient st) in
            Ok res (mkState (access st) (storage st) t' (ticks st)
                            (trace st ++ [EPostForm url form res])).

Definition httpClient_Do (req : Request) : Go (string + Response) :=
  fun st => let '(res, t') := Do req (httpClient st) in
            Ok res (mkState (access st) (storage st) t' (ticks st)
                            (trace st ++ [EDo req res])).

(** *** Session state *)

(** [authParams.hasExpired].  The clock is read only when the first two tests
    pass. *)
Definition hasExpired (p : authParams) : Go bool :=
  if time.IsZero (expiration p) then ret true
  else if is_empty (sessionID p) || is_empty (authorization p) || is_empty (encodedPin p)
  then ret true
  else now <- time_Now ;; ret (time.After now (expiration p)).

(** [authParams.setPin]: the hex string is stored whatever the error is *)
Definition setPin (pin key : string) : Go (option error) :=
  let '(hexStr, err) := DesEncrypt pin key in
  p <- get_access ;;
  set_access {| authorization := authorization p; sessionID := sessionID p;
                expiration := expiration p; encodedPin := hexStr |} ;;
  ret (Foreign <$> err).

Definition set_authorization (v : string) : Go unit :=
  p <- get_access ;;
  set_access {| authorization := v; sessionID := sessionID p;
                expiration := expiration p; encodedPin := encodedPin p |}.

Definition set_sessionID (v : string) : Go unit :=
  p <- get_access ;;
  set_access {| authorization := authorization p; sessionID := v;
                expiration := expiration p; encodedPin := encodedPin p |}.

Definition set_encodedPin (v : string) : Go unit :=
  p <- get_access ;;
  set_access {| authorization := authorization p; sessionID := sessionID p;
                expiration := expiration p; encodedPin := v |}.

Definition set_expiration (v : time.Time) : Go unit :=
  p <- get_access ;;
  set_access {| authorization := authorization p; sessionID := sessionID p;
                expiration := v; encodedPin := encodedPin p |}.

(** [r.access.reset()] *)
Definition access_reset : Go unit :=
  p <- get_access ;; set_access (reset p).

(** [Client.hasSessionExpired] *)
Definition hasSessionExpired : Go bool :=
  p <- get_access ;; hasExpired p.

(** [Client.successCode] *)
Definition successCode (statusCode : Z) : bool :=
  (statusCode =? StatusOK) || (statusCode =? StatusCreated) || (statusCode =? StatusAccepted).

(** *** Cache keys *)

(** one hexadecimal digit, lower case, as [%x] prints it *)
Definition hex_digit (n : N) : ascii :=
  match n with
  | 0 => "0" | 1 => "1" | 2 => "2" | 3 => "3" | 4 => "4" | 5 => "5"
  | 6 => "6" | 7 => "7" | 8 => "8" | 9 => "9" | 10 => "a" | 11 => "b"
  | 12 => "c" | 13 => "d" | 14 => "e" | _ => "f"
  end%N%char.

(** [fmt.Sprintf("%x", b)] for a byte slice: two digits per byte *)
Fixpoint Sprintf_x (b : string) : string :=
  match b with
  | EmptyString => EmptyString
  | String c b' =>
      String (hex_digit (N_of_ascii c / 16))
        (String (hex_digit (N_of_ascii c mod 16)) (Sprintf_x b'))
  end.

(** The MD5 digest of the empty message, d41d8cd98f00b204e9800998ecf8427e. *)
Definition md5_digest_of_nothing : string :=
  string_of_list_ascii
    (map ascii_of_N
       [0xd4; 0x1d; 0x8c; 0xd9; 0x8f; 0x00; 0xb2; 0x04;
        0xe9; 0x80; 0x09; 0x98; 0xec; 0xf8; 0x42; 0x7e]%N).

(** [md5.New().Sum(b)]: [Sum] appends the digest of what has been written to
    the hash to [b]; nothing has been written to a hash fresh from [New]. *)
Definition md5_New_Sum (b : string) : string := b +:+ md5_digest_of_nothing.

(** [fmt.Sprintf("%s/%s/%s", a, b, c)] *)
Definition Sprintf_s_s_s (a b c : string) : string := a +:+ "/" +:+ b +:+ "/" +:+ c.

(** [Client.makeAuthCacheKeys] *)
Definition makeAuthCacheKeys (r : Client) : authCacheKey :=
  let baseCacheKey :=
    Sprintf_x (md5_New_Sum (Sprintf_s_s_s (baseURL r) baseLoginUrl (UserName (account r)))) in
  let authorizationKeyName := baseCacheKey +:+ "-auth-token" in
  let sessionIDKeyName := baseCacheKey +:+ "-session-id" in
  let authExpirationKeyName := baseCacheKey +:+ "-auth-expiration" in
  let authEncodedPinKeyName := baseCacheKey +:+ "-auth-encoded-pin" in
  mkAuthCacheKey authorizationKeyName sessionIDKeyName authExpirationKeyName
                 authEncodedPinKeyName.

(** the four keys of a key set *)
Definition keys_of (k : authCacheKey) : list string :=
  [authorizationKey k; sessionIDKey k; expirationKey k; encodedPinKey k].

(** *** Login *)

(** [Client.login], lines 409-434: the four reads from the storage.  A field
    is overwritten only when its read succeeds with a non-empty (positive)
    value. *)
Definition hydrate (authCacheKey : authCacheKey) : Go unit :=
  r1 <- storage_GetString (authorizationKey authCacheKey) ;;
  (let '(authorizationKeyValue, err) := r1 in
   match err with
   | None => if is_empty authorizationKeyValue then ret tt
             else set_authorization authorizationKeyValue
   | Some _ => ret tt
   end) ;;
  r2 <- storage_GetString (sessionIDKey authCacheKey) ;;
  (let '(sessionIDKeyValue, err) := r2 in
   match err with
   | None => if is_empty sessionIDKeyValue then ret tt
             else set_sessionID sessionIDKeyValue
   | Some _ => ret tt
   end) ;;
  r3 <- storage_GetString (encodedPinKey authCacheKey) ;;
  (let '(authEncodedPinValue, err) := r3 in
   match err with
   | None => if is_empty authEncodedPinValue then ret tt
             else set_encodedPin authEncodedPinValue
   | Some _ => ret tt
   end) ;;
  r4 <- storage_GetInt (expirationKey authCacheKey) ;;
  (let '(authExpirationKeyValue, err) := r4 in
   match err with
   | None => if 0 <? authExpirationKeyValue
             then set_expiration (time.FromUnix authExpirationKeyValue)
             else ret tt
   | Some _ => ret tt
   end).

(** [Client.login], lines 472-484: the four writes to the storage *)
Definition persist (r : Client) (authCacheKey : authCacheKey) : Go (option error) :=
  p <- get_access ;;
  err <- storage_SetStringFor (authorizationKey authCacheKey) (authorization p)
           (SessionLength (account r)) ;;
  match err with Some e => ret (Some (Foreign e)) | None =>
  p <- get_access ;;
  err <- storage_SetStringFor (sessionIDKey authCacheKey) (sessionID p)
           (SessionLength (account r)) ;;
  match err with Some e => ret (Some (Foreign e)) | None =>
  p <- get_access ;;
  err <- storage_SetStringFor (encodedPinKey authCacheKey) (encodedPin p)
           (SessionLength (account r)) ;;
  match err with Some e => ret (Some (Foreign e)) | None =>
  p <- get_access ;;
  err <- storage_SetIntFor (expirationKey authCacheKey) (time.Unix (expiration p))
           (SessionLength (account r)) ;;
  match err with Some e => ret (Some (Foreign e)) | None =>
  ret None
  end end end end.

(** [Client.login], lines 440-470: the call to the login endpoint and the new
    session.  The response body is closed on return, which the client cannot
    observe. *)
Definition authenticate (r : Client) : Go (option error) :=
  let payload :=
    [("userName", UserName (account r));
     ("password", Password (account r));
     ("sessionLength", pretty (time.Seconds (SessionLength (account r))))] in
  let loginURL := baseURL r +:+ baseLoginUrl in
  res <- httpClient_PostForm loginURL payload ;;
  match res with inl err => ret (Some (Foreign err)) | inr res =>
  match RespBody res with
  | None => panic                        (* ioutil.ReadAll on a nil reader *)
  | Some (bodyString, Some err) => ret (Some (Foreign err))
  | Some (bodyString, None) =>
  if negb (successCode (StatusCode res)) then ret (Some (ErrLoginFailed bodyString))
  else
  set_authorization (Header_Get (RespHeader res) "Authorization") ;;
  set_sessionID (Header_Get (RespHeader res) "X-SessionID") ;;
  p <- get_access ;;
  err <- setPin (Pin (account r)) (sessionID p) ;;
  match err with Some e => ret (Some e) | None =>
  now <- time_Now ;;
  set_expiration (time.Add now (SessionLength (account r))) ;;
  ret None
  end end end.

(** [Client.login] *)
Definition login (r : Client) : Go (option error) :=
  let authCacheKey := makeAuthCacheKeys r in
  hydrate authCacheKey ;;
  p <- get_access ;;
  expired <- hasExpired p ;;
  if negb expired then ret None
  else
  err <- authenticate r ;;
  match err with Some e => ret (Some e) | None =>
  persist r authCacheKey
  end.

(** [Client.ensureUserIsAuthenticated] *)
Definition ensureUserIsAuthenticated (r : Client) : Go (option error) :=
  expired <- hasSessionExpired ;;
  if expired then
    err <- login r ;;
    match err with Some e => ret (Some e) | None => ret None end
  else ret None.

(** *** Requests *)

(** [Client.generateUrl]; a base URL that [url.Parse] rejects leaves [reqUri]
    nil, and line 601 dereferences it. *)
Definition generateUrl (r : Client) (path : string)
    (queryParams : list (gmap string string)) : Go string :=
  match url_with_query (baseURL r +:+ path) (queryParams ≫= map_to_list) with
  | None => panic
  | Some reqUri => ret reqUri
  end.

(** [Client.appendAuthHeaders] *)
Definition appendAuthHeaders (request : Request) : Go Request :=
  p <- get_access ;;
  ret {| Method := Method request; URL := URL request;
         ReqHeader := ReqHeader request ++
                      [("Authorization", authorization p);
                       ("X-SessionID", sessionID p);
                       ("Content-Type", "application/json")];
         ReqBody := ReqBody request |}.

(** [Client.newRequest].  Line 533 copies a non-nil [body] to its end before
    the request is built, so the request carries an exhausted reader. *)
Definition newRequest (method url : string) (body : option string)
  : Go (error + Request) :=
  let body := match body with Some _ => Some "" | None => None end in
  match http_NewRequest method url with
  | Some err => ret (inl (Foreign err))
  | None =>
      req <- appendAuthHeaders {| Method := method; URL := url; ReqHeader := [];
                                  ReqBody := body |} ;;
      ret (inr req)
  end.

(** [Client.newGetRequest] *)
Definition newGetRequest (url : string) (body : option string) : Go (error + Request) :=
  newRequest "GET" url body.

(** [Client.newPostRequest] *)
Definition newPostRequest (url : string) (body : option string) : Go (error + Request) :=
  newRequest "POST" url body.

(** [Client.fromMapToReader], for the payload of GenerateUSSD *)
Definition fromMapToReader (amount : float64) (bankCode reference : string)
  : error + string :=
  match json_Marshal_payload amount bankCode reference with
  | inl err => inl (Foreign err)
  | inr payloadBytes => inr payloadBytes
  end.

(** [Client.doRequest]: status code, data ([None] is a nil slice) and error *)
Definition doRequest (req : Request) : Go (Z * option string * option error) :=
  res <- httpClient_Do req ;;
  match res with
  | inl err => ret (0, None, Some (Foreign err))
  | inr res =>
      match RespBody res with
      | None => ret (StatusCode res, None, None)
      | Some (data, err) => ret (StatusCode res, Some data, Foreign <$> err)
      end
  end.

(** a byte slice as the decoders see it: nil is the empty slice *)
Definition bytes (data : option string) : string := default "" data.

(** [Client.toErrorResponse] *)
Definition toErrorResponse (data : option string) : error :=
  match json_Unmarshal_ErrorResponse (bytes data) with
  | inl err => Foreign err
  | inr e => ErrResponse e
  end.

(** models file: [NewUssdTransactionResponse] returns [&r] and the error of
    [json.Unmarshal]; its callers look at the error first. *)
Definition NewUssdTransactionResponse (data : option string)
  : error + UssdTransactionResponse :=
  match json_Unmarshal_Ussd (bytes data) with
  | inl err => inl (Foreign err)
  | inr r => inr r
  end.

(** *** Bank table *)

Definition BanksSupportedOnUssd : gmap string string :=
  list_to_map
    [("057", ""); ("058", ""); ("033", ""); ("039", ""); ("232", ""); ("215", "");
     ("082", ""); ("070", ""); ("050", ""); ("035", ""); ("044", ""); ("011", "");
     ("214", "")].

(** [IsBankSupportedOnUSSD], with the order in which [range] visits the map as
    [visited].  The loop variable has the parameter's name: the test compares
    the visited key with itself. *)
Definition IsBankSupportedOnUSSD_visiting (visited : list (string * string))
    (bankCode : string) : bool :=
  (fix range (entries : list (string * string)) : bool :=
     match entries with
     | [] => false
     | (bankCode, _) :: entries' =>
         if decide (bankCode = bankCode) then true else range entries'
     end) visited.

(** [IsBankSupportedOnUSSD], visiting the map in the order of [map_to_list];
    Go leaves the order unspecified. *)
Definition IsBankSupportedOnUSSD (bankCode : string) : bool :=
  IsBankSupportedOnUSSD_visiting (map_to_list BanksSupportedOnUssd) bankCode.

(** *** Operations *)

Record FetchTransactionOption := mkFetchTransactionOption {
  TranType : option string;
  AfterID : option Z;          (* the field After *)
  StartDate : option Z;
  EndDate : option Z
}.

(** [FetchTransactionOption.ToMap] *)
Definition ToMap (o : FetchTransactionOption) : gmap string string :=
  let result : gmap string string := ∅ in
  let result := match TranType o with
                | Some v => <["trantype" := v]> result | None => result end in
  let result := match AfterID o with
                | Some v => <["after" := pretty v]> result | None => result end in
  let result := match StartDate o with
                | Some v => <["start_date" := pretty v]> result | None => result end in
  let result := match EndDate o with
                | Some v => <["end_date" := pretty v]> result | None => result end in
  result.

(** [NewClient].  The storage and the HTTP client it is given are the ones of
    the state; the new client's [access] is the zero value. *)
Definition NewClient (account : option Account) (baseUrl : string)
  : Go (error + Client) :=
  match account with
  | None => ret (inl ErrAccountCredentialsRequired)
  | Some a =>
      if is_empty (Pin a) || is_empty (UserName a) || is_empty (Password a)
      then ret (inl ErrAccountCredentialsRequired)
      else
        set_access (mkAuthParams "" "" time.zero "") ;;
        ret (inr {| account := a; baseURL := baseUrl |})
  end.

(** [Client.BalanceEnquiry].  [fuel] bounds the depth of self-invocation. *)
Fixpoint BalanceEnquiry (fuel : nat) (r : Client)
  : Go (error + BalanceEnquiryResponse) :=
  match fuel with
  | O => timeout
  | Datatypes.S fuel =>
  err <- ensureUserIsAuthenticated r ;;
  match err with Some e => ret (inl e) | None =>
  balanceURL <- generateUrl r baseBalanceUrl [] ;;
  request <- newGetRequest balanceURL None ;;
  match request with inl e => ret (inl e) | inr request =>
  res <- doRequest request ;;
  let '(statusCode, data, err) := res in
  match err with Some e => ret (inl e) | None =>
  if statusCode =? StatusForbidden then
    access_reset ;;
    BalanceEnquiry fuel r
  else
  if negb (successCode statusCode) then ret (inl (toErrorResponse data))
  else
  match NewBalanceResponse (bytes data) with
  | None => panic
  | Some (inl e) => ret (inl (Foreign e))
  | Some (inr resp) => ret (inr resp)
  end
  end end end
  end.

(** [Client.GenerateUSSD] *)
Definition GenerateUSSD (r : Client) (reference : string) (amount : float64)
    (bankCode : string) : Go (error + UssdTransactionResponse) :=
  if negb (IsBankSupportedOnUSSD bankCode) then ret (inl ErrBankNotSupportedOnUSSD)
  else
  err <- ensureUserIsAuthenticated r ;;
  match err with Some e => ret (inl e) | None =>
  match fromMapToReader amount bankCode reference with
  | inl e => ret (inl e) | inr payloadReader =>
  ussdGenerationUrl <- generateUrl r baseUssdTransaction [] ;;
  request <- newPostRequest ussdGenerationUrl (Some payloadReader) ;;
  match request with inl e => ret (inl e) | inr request =>
  res <- doRequest request ;;
  let '(statusCode, data, err) := res in
  match err with Some e => ret (inl e) | None =>
  match data with None => ret (inl ErrEmptyResponse) | Some _ =>
  if negb (successCode statusCode) then ret (inl (toErrorResponse data))
  else
  match NewUssdTransactionResponse data with
  | inl e => ret (inl e)
  | inr res => ret (inr (set_UserDefinedReference reference res))
  end
  end end end end end.

(** [Client.FetchUSSDTransaction] *)
Definition FetchUSSDTransaction (r : Client) (reference : string)
  : Go (error + UssdTransactionResponse) :=
  err <- ensureUserIsAuthenticated r ;;
  match err with Some e => ret (inl e) | None =>
  fetchUssdTransactionUrl <-
    generateUrl r baseFetchUssdTransaction [{["senderRef" := reference]}] ;;
  request <- newGetRequest fetchUssdTransactionUrl None ;;
  match request with inl e => ret (inl e) | inr request =>
  res <- doRequest request ;;
  let '(statusCode, data, err) := res in
  match err with Some e => ret (inl e) | None =>
  match data with None => ret (inl ErrEmptyResponse) | Some _ =>
  if negb (successCode statusCode) then ret (inl (toErrorResponse data))
  else
  match NewUssdTransactionResponse data with
  | inl e => ret (inl e)
  | inr res => ret (inr (set_UserDefinedReference reference res))
  end
  end end end end.

(** [Client.FetchTransaction].  [fuel] bounds the depth of self-invocation. *)
Fixpoint FetchTransaction (fuel : nat) (r : Client) (options : option FetchTransactionOption)
  : Go (error + list WalletTransaction) :=
  match fuel with
  | O => timeout
  | Datatypes.S fuel =>
  err <- ensureUserIsAuthenticated r ;;
  match err with Some e => ret (inl e) | None =>
  let queryParams : gmap string string :=
    match options with Some o => ToMap o | None => ∅ end in
  transactionsUrl <- generateUrl r baseTransactionsUrl [queryParams] ;;
  request <- newGetRequest transactionsUrl None ;;
  match request with inl e => ret (inl e) | inr request =>
  res <- doRequest request ;;
  let '(statusCode, data, err) := res in
  match err with Some e => ret (inl e) | None =>
  match data with None => ret (inl ErrEmptyResponse) | Some _ =>
  if statusCode =? StatusForbidden then
    access_reset ;;
    FetchTransaction fuel r options
  else
  if negb (successCode statusCode) then ret (inl (toErrorResponse data))
  else
  match NewWalletTransactions (bytes data) with
  | inl e => ret (inl (Foreign e))
  | inr txs => ret (inr txs)
  end
  end end end end
  end.

End ClientCode.

(** ** Test doubles *)

(** test file: [mockStore], a map from keys to strings and int64s, and the
    timers that [time.AfterFunc] has started, one for each write: when its
    time has come a timer deletes whatever its key then holds.

    The timers run in the background.  Here the store carries its own time:
    [age] is the time since [NewMockStore], and [pace] tells for each call to
    come how much time passes before it.  A call begins by letting that time
    pass and firing the timers that are due; [timers] holds those that have
    not fired yet, with the age at which they do.  How long the runtime takes
    to start a timer's goroutine is not modelled: a timer that is due has
    fired by the next call. *)
Record mockStore := mkMockStore {
  data : gmap string (string + Z);
  timers : list (string * Z);
  age : Z;
  pace : list N
}.

(** [NewMockStore()].  How much time passes before each call is for the
    surroundings to say: none here; a store with another [pace] is made with
    [mkMockStore]. *)
Definition NewMockStore : mockStore :=
  {| data := ∅; timers := []; age := 0; pace := [] |}.

(** the timer [t] is due at the age [now] *)
Definition due (now : Z) (t : string * Z) : bool := t.2 <=? now.

(** the beginning of a call *)
Definition elapse (m : mockStore) : mockStore :=
  let now := age m + match pace m with [] => 0 | d :: _ => Z.of_N d end in
  {| data := foldr (fun t d => delete t.1 d) (data m) (filter (due now) (timers m));
     timers := filter (fun t => negb (due now t)) (timers m);
     age := now;
     pace := tail (pace m) |}.

(** [m.data[key] = val] and the timer [time.AfterFunc(exp, ...)]; a duration
    of zero or less makes a timer that is due at once *)
Definition setFor (key : string) (val : string + Z) (exp : time.Duration) (m : mockStore)
  : mockStore :=
  {| data := <[key := val]> (data m);
     timers := timers m ++ [(key, age m + exp)];
     age := age m;
     pace := pace m |}.

#[export] Instance mockStore_Storage : Storage mockStore := {|
  SetStringFor key val exp m := (None, setFor key (inl val) exp (elapse m));
  SetIntFor key val exp m := (None, setFor key (inr val) exp (elapse m));
  GetString key m :=
    let m := elapse m in
    match data m !! key with
    | None => (("", Some "data not found"), m)
    | Some (inl s) => ((s, None), m)                (* fmt.Sprintf("%v", output) *)
    | Some (inr n) => ((pretty n, None), m)
    end;
  GetInt key m :=
    let m := elapse m in
    match data m !! key with
    | None => ((0, Some "data not found"), m)
    | Some (inr n) => ((n, None), m)
    | Some (inl _) => ((0, Some "not a number"), m)
    end
|}.

(** no time is going to pass and no timer is due: calls find the store as it
    is *)
Definition settled (m : mockStore) : bool :=
  match pace m with [] => forallb (fun t => negb (due (age m) t)) (timers m) | _ => false end.

(** A store that keeps what is written for good, and accepts only [room]
    more writes. *)
Record quotaStore := mkQuotaStore {
  held : gmap string (string + Z);
  room : nat
}.

#[export] Instance quotaStore_Storage : Storage quotaStore := {|
  SetStringFor key val exp q :=
    match room q with
    | O => (Some "quota exceeded", q)
    | Datatypes.S n => (None, mkQuotaStore (<[key := inl val]> (held q)) n)
    end;
  SetIntFor key val exp q :=
    match room q with
    | O => (Some "quota exceeded", q)
    | Datatypes.S n => (None, mkQuotaStore (<[key := inr val]> (held q)) n)
    end;
  GetString key q :=
    match held q !! key with
    | None => (("", Some "data not found"), q)
    | Some (inl s) => ((s, None), q)
    | Some (inr n) => ((pretty n, None), q)
    end;
  GetInt key q :=
    match held q !! key with
    | None => ((0, Some "data not found"), q)
    | Some (inr n) => ((n, None), q)
    | Some (inl _) => ((0, Some "not a number"), q)
    end
|}.

(** A server in the manner of the test file's [httptest] handlers: it answers
    every login with [login_reply] and the other requests with [replies], one
    after the other; once they are used up the connection fails. *)
Record stubServer := mkStubServer {
  login_reply : Response;
  replies : list Response
}.

#[export] Instance stubServer_HttpClient : HttpClient stubServer := {|
  PostForm url form t := (inr (login_reply t), t);
  Do req t :=
    match replies t with
    | [] => (inl "connection refused", t)
    | res :: rest => (inr res, mkStubServer (login_reply t) rest)
    end
|}.

(** the login response of the test file's handlers, with a shorter body *)
Definition login_ok : Response :=
  {| StatusCode := StatusOK;
     RespHeader := [("Content-Type", "application/json"); ("Authorization", "Bearer Token");
                    ("X-SessionID", "1234")];
     RespBody := Some ("{}", None) |}.

(** a response with a body and no headers *)
Definition reply (status : Z) (body : string) : Response :=
  {| StatusCode := status; RespHeader := []; RespBody := Some (body, None) |}.

(** A platform on which nothing fails: URLs parse, requests are built, the
    payload encodes, and the decoders hand the data back undecoded.  The
    cipher is a stand-in (the hex digits of the PIN followed by the key).
    [clock] gives the readings of [time.Now()]. *)
Definition stubPlatform (clock : nat -> time.Time) : Platform := {|
  float64 := Z;
  BalanceEnquiryResponse := string;
  WalletTransaction := string;
  wall := clock;
  DesEncrypt pin key := (Sprintf_x (pin +:+ key), None);
  url_with_query u q := Some u;
  http_NewRequest method url := None;
  json_Marshal_payload amount bankCode reference := inr "{}";
  json_Unmarshal_ErrorResponse data := inr (NewErrorResponse 0 0 data "");
  json_Unmarshal_Ussd data :=
    inr (mkUssdTransactionResponse "" "" "" data 0 "" 0 0 0 "" None None None None None);
  NewBalanceResponse data := Some (inr data);
  NewWalletTransactions data := inr [data]
|}.

(** a clock that starts at Unix time 1600000000 and advances by one second
    from one reading to the next *)
Definition stepping_clock (i : nat) : time.Time :=
  time.FromUnix 1600000000 + Z.of_nat i * time.Second.

(** test file: the account and the client of the tests *)
Definition testAccount : Account :=
  {| UserName := "sample"; Password := "password"; Pin := "1234";
     SessionLength := 3600 * time.Second |}.

Definition testClient : Client :=
  {| account := testAccount; baseURL := "http://127.0.0.1:8080" |}.

(** the state of a client fresh from [NewClient] *)
Definition fresh {S T : Type} (storage : S) (httpClient : T) : State S T :=
  mkState (mkAuthParams "" "" time.zero "") storage httpClient O [].

(** a session that the stepping clock has not passed *)
Definition liveSession : authParams :=
  mkAuthParams "Bearer Token" "1234" (time.FromUnix 1600003600) "3132333431323334".

(** a store that holds [liveSession] under the keys of [testClient], as the
    four writes of a login leave it: each entry has its timer, an hour
    ahead *)
Definition warmStore : mockStore :=
  let k := makeAuthCacheKeys testClient in
  let ttl := SessionLength testAccount in
  setFor (expirationKey k) (inr 1600003600) ttl
    (setFor (encodedPinKey k) (inl "3132333431323334") ttl
       (setFor (sessionIDKey k) (inl "1234") ttl
          (setFor (authorizationKey k) (inl "Bearer Token") ttl NewMockStore))).

(** ** Reading traces *)

Definition is_read (e : Event) : bool :=
  match e with EGetString _ _ _ | EGetInt _ _ _ => true | _ => false end.

Definition is_write (e : Event) : bool :=
  match e with ESetStringFor _ _ _ _ | ESetIntFor _ _ _ _ => true | _ => false end.

(** the error with which a write to the storage failed, if it is one and
    failed *)
Definition write_error (e : Event) : option string :=
  match e with
  | ESetStringFor _ _ _ err | ESetIntFor _ _ _ err => err
  | _ => None
  end.

Definition is_login_call (e : Event) : bool :=
  match e with EPostForm _ _ _ => true | _ => false end.

Definition is_request (e : Event) : bool :=
  match e with EDo _ _ => true | _ => false end.

(** events other than requests: reads, writes and login calls *)
Definition quiet (e : Event) : bool := negb (is_request e).

(** any event *)
Definition any_event (e : Event) : bool := true.

(** the status code a request was answered with, if it was answered *)
Definition answered_with (e : Event) : option Z :=
  match e with EDo _ (inr res) => Some (StatusCode res) | _ => None end.

(** how many requests (login calls apart) a trace holds *)
Definition round_trips (tr : list Event) : nat := length (filter is_request tr).

(** The four authenticated operations, as one type. *)
Inductive operation {platform : Platform} :=
| OpBalanceEnquiry
| OpGenerateUSSD (reference : string) (amount : float64) (bankCode : string)
| OpFetchUSSDTransaction (reference : string)
| OpFetchTransaction (options : option FetchTransactionOption).

(** the error an operation returned, if any *)
Definition failure {A : Type} (res : error + A) : option error :=
  match res with inl e => Some e | inr _ => None end.

(** runs an operation and keeps the error of its result *)
Definition run {S T : Type} {store : Storage S} {transport : HttpClient T}
    {platform : Platform}
    (fuel : nat) (r : Client) (op : operation) : M (State S T) (option error) :=
  match op with
  | OpBalanceEnquiry => res <- BalanceEnquiry fuel r ;; ret (failure res)
  | OpGenerateUSSD reference amount bankCode =>
      res <- GenerateUSSD r reference amount bankCode ;; ret (failure res)
  | OpFetchUSSDTransaction reference =>
      res <- FetchUSSDTransaction r reference ;; ret (failure res)
  | OpFetchTransaction options => res <- FetchTransaction fuel r options ;; ret (failure res)
  end.

(** ** What a run leaves behind *)

(** a string field after its read: the value read, when the read succeeded
    with a non-empty value, and the old value otherwise *)
Definition kept_or_read (old : string) (res : string * option string) : string :=
  match res with
  | (v, None) => if is_empty v then old else v
  | (_, Some _) => old
  end.

(** the expiry after its read, likewise *)
Definition kept_or_read_expiry (old : time.Time) (res : Z * option string) : time.Time :=
  match res with
  | (v, None) => if 0 <? v then time.FromUnix v else old
  | (_, Some _) => old
  end.

(** every run of [m], however it ends, has only added events in [P] to the
    trace *)
Definition adds {S T A : Type} (P : Event -> bool) (m : M (State S T) A) : Prop :=
  forall st,
    exists evs, trace (final (m st)) = trace st ++ evs /\ Forall (fun e => P e = true) evs.

(** what an operation adds to the trace once it has ensured authentication:
    nothing, or events that begin with its request *)
Definition request_or_nothing {S T A : Type} (m : M (State S T) A) : Prop :=
  forall st,
    trace (final (m st)) = trace st
    \/ exists req resp rest, trace (final (m st)) = trace st ++ EDo req resp :: rest.

(** the store after the call that an event records *)
Definition store_after {S : Type} {store : Storage S} (s : S) (e : Event) : S :=
  match e with
  | EGetString key _ _ => (GetString key s).2
  | EGetInt key _ _ => (GetInt key s).2
  | ESetStringFor key val exp _ => (SetStringFor key val exp s).2
  | ESetIntFor key val exp _ => (SetIntFor key val exp s).2
  | EPostForm _ _ _ | EDo _ _ => s
  end.

(** the store after the calls that a trace records *)
Definition replay {S : Type} {store : Storage S} (evs : list Event) (s : S) : S :=
  fold_left store_after evs s.

(** the errors that [login] produces itself or passes on *)
Definition login_error (e : error) : Prop :=
  match e with
  | ErrLoginFailed _ | Foreign _ => True
  | _ => False
  end.

(** how a call ends when the login endpoint, answering with [post], gives no
    session: with the error of the transport, with the error of reading the
    body, with [ErrLoginFailed] and the body, or with the error of the
    cipher; reading a body that is nil panics *)
Definition login_call_failed {St : Type} {platform : Platform} (r : Client)
    (post : string + Response) (outcome : result St (option error)) : Prop :=
  match post with
  | inl msg => returned outcome = Some (Some (Foreign msg))
  | inr res =>
      match RespBody res with
      | None => outcome = Panic (final outcome)
      | Some (_, Some msg) => returned outcome = Some (Some (Foreign msg))
      | Some (bodyString, None) =>
          if successCode (StatusCode res)
          then exists msg,
                 (DesEncrypt (Pin (account r)) (Header_Get (RespHeader res) "X-SessionID")).2
                 = Some msg
                 /\ returned outcome = Some (Some (Foreign msg))
          else returned outcome = Some (Some (ErrLoginFailed bodyString))
      end
  end.

(** ** Helpers for the cache keys *)

(** the value of a hexadecimal digit *)
Definition hex_value (c : ascii) : N :=
  match c with
  | "0" => 0 | "1" => 1 | "2" => 2 | "3" => 3 | "4" => 4 | "5" => 5
  | "6" => 6 | "7" => 7 | "8" => 8 | "9" => 9 | "a" => 10 | "b" => 11
  | "c" => 12 | "d" => 13 | "e" => 14 | _ => 15
  end%char%N.

(** a client for an account named [userName] at [baseUrl] *)
Definition clientFor (baseUrl userName : string) : Client :=
  {| account := {| UserName := userName; Password := "password"; Pin := "1234";
                   SessionLength := 3600 * time.Second |};
     baseURL := baseUrl |}.

(** ** Shapes of the calls an operation makes *)

(** the request that [newRequest] hands back when the session is [p]: the
    request of [http.NewRequest] with the three headers of
    [appendAuthHeaders]; a body that was given has been read to its end *)
Definition built_request (method url : string) (body : option string) (p : authParams)
  : Request :=
  {| Method := method; URL := url;
     ReqHeader := [("Authorization", authorization p); ("X-SessionID", sessionID p);
                   ("Content-Type", "application/json")];
     ReqBody := match body with Some _ => Some "" | None => None end |}.

(** the keys under which the three string fields are stored *)
Definition string_keys (k : authCacheKey) : list string :=
  [authorizationKey k; sessionIDKey k; encodedPinKey k].

(** a call to the storage that stays with the keys [k]: strings under the
    three string keys, the integer under the expiry key, writes with the
    lifetime [ttl]; calls to the transport are let through *)
Definition own_access (k : authCacheKey) (ttl : time.Duration) (e : Event) : bool :=
  match e with
  | EGetString key _ _ => bool_decide (key ∈ string_keys k)
  | EGetInt key _ _ => bool_decide (key = expirationKey k)
  | ESetStringFor key _ exp _ => bool_decide (key ∈ string_keys k) && bool_decide (exp = ttl)
  | ESetIntFor key _ exp _ => bool_decide (key = expirationKey k) && bool_decide (exp = ttl)
  | EPostForm _ _ _ | EDo _ _ => true
  end.

(** a login call as the client [r] makes it: to the login path under its base
    URL, with the fields userName, password and sessionLength, the first two
    being the account's *)
Definition login_call_of (r : Client) (e : Event) : bool :=
  match e with
  | EPostForm url form _ =>
      bool_decide (url = baseURL r +:+ baseLoginUrl)
      && bool_decide (form.*1 = ["userName"; "password"; "sessionLength"])
      && bool_decide (form !! 0%nat = Some ("userName", UserName (account r)))
      && bool_decide (form !! 1%nat = Some ("password", Password (account r)))
  | _ => true
  end.

(** a request without a payload: no body, or a body that has nothing left *)
Definition no_payload (e : Event) : bool :=
  match e with
  | EDo req _ => bool_decide (ReqBody req = None \/ ReqBody req = Some "")
  | _ => true
  end.

(** how many login calls a trace holds *)
Definition login_calls (tr : list Event) : nat := length (filter is_login_call tr).

(** the token and the session id that a request carries *)
Definition credentials_of (req : Request) : string * string :=
  (Header_Get (ReqHeader req) "Authorization", Header_Get (ReqHeader req) "X-SessionID").

(** a read, or a request that carries one of the credentials [creds]: neither
    a login call nor a write *)
Definition read_or_request (creds : list (string * string)) (e : Event) : bool :=
  match e with
  | EGetString _ _ _ | EGetInt _ _ _ => true
  | EDo req _ => bool_decide (credentials_of req ∈ creds)
  | EPostForm _ _ _ | ESetStringFor _ _ _ _ | ESetIntFor _ _ _ _ => false
  end.

(** ** One round of an operation *)

(** the state once a request has been answered (or has failed) in the state
    [st] *)
Definition after_request {S T : Type} (st : State S T) (req : Request)
    (res : string + Response) (t' : T) : State S T :=
  mkState (access st) (storage st) t' (ticks st) (trace st ++ [EDo req res]).

(** the same, with the session reset *)
Definition after_reset {S T : Type} (st : State S T) (req : Request)
    (res : string + Response) (t' : T) : State S T :=
  mkState (reset (access st)) (storage st) t' (ticks st) (trace st ++ [EDo req res]).

(** the storage [s] serves a whole session under the keys [k]: the four reads
    succeed with the values [tok], [sid], [pin] and [e], and leave it as it
    is *)
Definition serves {S : Type} {store : Storage S} (s : S) (k : authCacheKey)
    (tok sid pin : string) (e : Z) : Prop :=
  GetString (authorizationKey k) s = ((tok, None), s)
  /\ GetString (sessionIDKey k) s = ((sid, None), s)
  /\ GetString (encodedPinKey k) s = ((pin, None), s)
  /\ GetInt (expirationKey k) s = ((e, None), s).

(** the events that a run from [st] to [st'] has added to the trace *)
Definition added {S T : Type} (st st' : State S T) : list Event :=
  drop (length (trace st)) (trace st').

(** a run from [st] to [ended] that has left the storage as it was and has
    added neither a login call nor a write to the trace, and only requests
    that carry one of the credentials [creds] *)
Definition undisturbed {S T : Type} (creds : list (string * string))
    (st ended : State S T) : Prop :=
  storage ended = storage st
  /\ exists evs, trace ended = trace st ++ evs
                 /\ Forall (fun ev => read_or_request creds ev = true) evs.

(** the storage of [st] serves a session under the keys of [r], and the clock
    does not pass its expiry in the next [rounds] rounds of an operation; a
    round reads the clock twice at most *)
Definition live {S T : Type} {store : Storage S} {platform : Platform} (r : Client)
    (tok sid pin : string) (e : Z) (st : State S T) (rounds : nat) : Prop :=
  serves (storage st) (makeAuthCacheKeys r) tok sid pin e
  /\ forall i, (i < ticks st + 2 * rounds)%nat -> wall i <= time.FromUnix e.

(** the token and the session id of the session in memory *)
Definition credentials {S T : Type} (st : State S T) : string * string :=
  (authorization (access st), sessionID (access st)).

(** the entry of a [mockStore] under [key] is gone or about to go: nothing
    is held under [key], or a timer for [key] is due *)
Definition doomed (key : string) (m : mockStore) : Prop :=
  data m !! key = None \/ exists deadline, (key, deadline) ∈ timers m /\ deadline <= age m.

(** ** Response models *)

Module models.

(** a value as [json.Unmarshal] stores it in an [interface{}]: nil, a bool, a
    float64, a string, a slice or a map *)
#[warnings="-register-all"]
Inductive json (F : Type) :=
| JNull
| JBool (b : bool)
| JNumber (f : F)
| JString (s : string)
| JArray (items : list (json F))
| JObject (fields : list (string * json F)).
Arguments JNull {F}.
Arguments JBool {F}.
Arguments JNumber {F}.
Arguments JString {F}.
Arguments JArray {F}.
Arguments JObject {F}.

Section Balance.
Context {float64 : Type}.
(** [json.Unmarshal(data, &balanceMap)] for a [map[string]interface{}]: the
    error, or the map (a map left nil reads as the empty map) *)
Variable json_Unmarshal : string -> string + gmap string (json float64).
(** [strconv.ParseFloat(s, 64)]: the error, or the number *)
Variable ParseFloat : string -> string + float64.
(** the zero of float64 *)
Variable zero : float64.

Record BalanceEnquiryResponse := mkBalanceEnquiryResponse {
  Income : float64;
  Main : float64
}.

(** models file: [NewBalanceResponse].  [None] is the panic of a type
    assertion [.(string)] on a value that is no string. *)
Definition NewBalanceResponse (data : string) : option (string + BalanceEnquiryResponse) :=
  match json_Unmarshal data with
  | inl err => Some (inl err)
  | inr balanceMap =>
      let r := mkBalanceEnquiryResponse zero zero in
      match
        match balanceMap !! "income" with
        | Some incomeStr =>
            match incomeStr with
            | JString s =>
                match ParseFloat s with
                | inl err => Some (inl err)
                | inr incomeFloat => Some (inr (mkBalanceEnquiryResponse incomeFloat (Main r)))
                end
            | _ => None
            end
        | None => Some (inr r)
        end
      with
      | None => None
      | Some (inl err) => Some (inl err)
      | Some (inr r) =>
          match balanceMap !! "main" with
          | Some mainStr =>
              match mainStr with
              | JString s =>
                  match ParseFloat s with
                  | inl err => Some (inl err)
                  | inr mainFloat => Some (inr (mkBalanceEnquiryResponse (Income r) mainFloat))
                  end
              | _ => None
              end
          | None => Some (inr r)
          end
      end
  end.

End Balance.

End models.

(** ** More test doubles *)

(** a login response like [login_ok], without the header Authorization *)
Definition login_no_token : Response :=
  {| StatusCode := StatusOK;
     RespHeader := [("Content-Type", "application/json"); ("X-SessionID", "1234")];
     RespBody := Some ("{}", None) |}.

(** A server that answers every login like the test file's handlers and
    every other request with 403. *)
Inductive forbiddingServer := ForbiddingServer.

#[export] Instance forbiddingServer_HttpClient : HttpClient forbiddingServer := {|
  PostForm url form t := (inr login_ok, t);
  Do req t := (inr (reply StatusForbidden "denied"), t)
|}.

(** The platform [stubPlatform], except that [url.Parse] fails on every
    URL. *)
Definition unparsablePlatform (clock : nat -> time.Time) : Platform := {|
  float64 := Z;
  BalanceEnquiryResponse := string;
  WalletTransaction := string;
  wall := clock;
  DesEncrypt pin key := (Sprintf_x (pin +:+ key), None);
  url_with_query u q := None;
  http_NewRequest method url := None;
  json_Marshal_payload amount bankCode reference := inr "{}";
  json_Unmarshal_ErrorResponse data := inr (NewErrorResponse 0 0 data "");
  json_Unmarshal_Ussd data :=
    inr (mkUssdTransactionResponse "" "" "" data 0 "" 0 0 0 "" None None None None None);
  NewBalanceResponse data := Some (inr data);
  NewWalletTransactions data := inr [data]
|}.

(** where a round that is answered with 403 leaves the state: one request
    later, with the storage as it was and the clock read twice at most *)
Definition one_round_later {S T : Type} (st st2 : State S T) : Prop :=
  storage st2 = storage st /\ (ticks st2 <= ticks st + 2)%nat
  /\ round_trips (trace st2) = Datatypes.S (round_trips (trace st)).

(** * Properties *)

(** ** Session validity *)

(** a positive int64 is the Unix time of an instant other than the zero
    instant *)
Lemma FromUnix_not_zero (e : Z) : 0 < e <= MaxInt64 -> time.FromUnix e <> time.zero.
Proof.
  unfold time.FromUnix, time.zero, int64, MaxInt64, MinInt64, time.unixToInternal,
    time.Second.
  intros He H. Z.div_mod_to_equations. lia.
Qed.

Lemma is_empty_true (s : string) : is_empty s = true <-> s = "".
Proof. unfold is_empty. destruct (decide (s = "")); split; congruence. Qed.

Lemma is_empty_false (s : string) : is_empty s = false <-> s <> "".
Proof. unfold is_empty. destruct (decide (s = "")); split; congruence. Qed.

Section Validity.
Context {S T : Type} {platform : Platform}.

(** [hasExpired] always returns, and touches nothing but the count of clock
    readings. *)
Lemma hasExpired_returns (p : authParams) (st : State S T) :
  exists b n,
    hasExpired p st
    = Ok b (mkState (access st) (storage st) (httpClient st) (ticks st + n)%nat (trace st))
    /\ (n <= 1)%nat.
Proof.
  destruct st as [a s t k tr]. unfold hasExpired. cbn [access storage httpClient ticks trace].
  destruct (time.IsZero (expiration p)).
  { exists true, O. rewrite Nat.add_0_r. split; [reflexivity | lia]. }
  destruct (is_empty (sessionID p) || is_empty (authorization p) || is_empty (encodedPin p)).
  { exists true, O. rewrite Nat.add_0_r. split; [reflexivity | lia]. }
  eexists _, 1%nat. unfold bind, time_Now, ret. cbn. rewrite Nat.add_1_r.
  split; [reflexivity | lia].
Qed.

(** a complete session whose expiry the clock has not passed has not expired *)
Lemma hasExpired_false (p : authParams) (st : State S T) :
  expiration p <> time.zero ->
  wall (ticks st) <= expiration p ->
  authorization p <> "" -> sessionID p <> "" -> encodedPin p <> "" ->
  exists st', hasExpired p st = Ok false st'.
Proof.
  intros Hz Hnow Ha Hs Hp. unfold hasExpired, time.IsZero, time.zero in *.
  destruct (Z.eqb_spec (expiration p) 0) as [? | _]; [contradiction |].
  apply is_empty_false in Ha, Hs, Hp. rewrite Ha, Hs, Hp. cbn [orb].
  unfold bind, time_Now, ret, time.After.
  destruct (Z.ltb_spec (expiration p) (wall (ticks st))); [lia |]. eexists. reflexivity.
Qed.

(** a session that has not expired is complete, and the clock has been read
    and has not passed its expiry *)
Lemma hasExpired_Ok_false (p : authParams) (st st' : State S T) :
  hasExpired p st = Ok false st' ->
  expiration p <> time.zero
  /\ authorization p <> "" /\ sessionID p <> "" /\ encodedPin p <> ""
  /\ wall (ticks st) <= expiration p
  /\ st' = mkState (access st) (storage st) (httpClient st) (Datatypes.S (ticks st)) (trace st).
Proof.
  unfold hasExpired, time.IsZero, time.zero.
  destruct (Z.eqb_spec (expiration p) 0) as [? | Hz]; [discriminate |].
  destruct (is_empty (sessionID p)) eqn:Hs; [discriminate |].
  destruct (is_empty (authorization p)) eqn:Ha; [discriminate |].
  destruct (is_empty (encodedPin p)) eqn:Hp; [discriminate |].
  cbn [orb]. unfold bind, time_Now, ret, time.After.
  destruct (Z.ltb_spec (expiration p) (wall (ticks st))); [discriminate |].
  intros [= <-]. apply is_empty_false in Hs, Ha, Hp. repeat split; assumption.
Qed.

(** C3, as the code has it: a session is valid (not expired) exactly when its
    expiry instant is set and not yet behind the clock, and the token, the
    session id and the encrypted PIN are all non-empty.  The expiry instant
    itself still counts as valid. *)
Theorem hasExpired_false_iff (p : authParams) (st : State S T) :
  exists b st',
    hasExpired p st = Ok b st'
    /\ (b = false <->
        expiration p <> time.zero
        /\ wall (ticks st) <= expiration p
        /\ authorization p <> "" /\ sessionID p <> "" /\ encodedPin p <> "").
Proof.
  unfold hasExpired, time.IsZero, time.zero.
  destruct (Z.eqb_spec (expiration p) 0) as [Hz | Hz].
  { eexists _, _. split; [reflexivity |]. split; [discriminate | tauto]. }
  destruct (is_empty (sessionID p)) eqn:Hs; cbn [orb].
  { apply is_empty_true in Hs. eexists _, _. split; [reflexivity |].
    split; [discriminate | tauto]. }
  destruct (is_empty (authorization p)) eqn:Ha; cbn [orb].
  { apply is_empty_true in Ha. eexists _, _. split; [reflexivity |].
    split; [discriminate | tauto]. }
  destruct (is_empty (encodedPin p)) eqn:Hp; cbn [orb].
  { apply is_empty_true in Hp. eexists _, _. split; [reflexivity |].
    split; [discriminate | tauto]. }
  apply is_empty_false in Hs, Ha, Hp.
  unfold bind, time_Now, ret, time.After. eexists _, _. split; [reflexivity |].
  destruct (Z.ltb_spec (expiration p) (wall (ticks st))); split; intros; try tauto;
    try discriminate. lia.
Qed.

End Validity.

(** C3, as stated, fails when the clock reads the expiry instant itself: the
    session below is valid although its expiry is not strictly in the
    future. *)
Lemma hasExpired_false_at_expiry_instant :
  let p := mkAuthParams "Bearer Token" "1234" (stepping_clock 0) "3132333431323334" in
  let st : State mockStore stubServer := fresh NewMockStore (mkStubServer login_ok []) in
  (exists st', hasExpired (platform := stubPlatform stepping_clock) p st = Ok false st')
  /\ authorization p <> "" /\ sessionID p <> "" /\ encodedPin p <> ""
  /\ expiration p <> time.zero
  /\ ~ (wall (Platform := stubPlatform stepping_clock) (ticks st) < expiration p).
Proof.
  cbv zeta. split; [eexists; vm_compute; reflexivity |].
  repeat split; discriminate.
Qed.

(** ** Login *)

Section Login.
Context {S T : Type} {store : Storage S} {transport : HttpClient T} {platform : Platform}.

Local Abbreviation Go := (M (State S T)).

(** a bind that returns went through its first half *)
Lemma bind_Ok {A B : Type} (m : Go A) (f : A -> Go B) (st : State S T) b st' :
  bind m f st = Ok b st' -> exists a st1, m st = Ok a st1 /\ f a st1 = Ok b st'.
Proof.
  unfold bind. destruct (m st) as [a st1 | |]; try discriminate. eauto.
Qed.

(** a bind whose first half returns goes on with the second *)
Lemma bind_run {A B : Type} (m : Go A) (f : A -> Go B) (st : State S T) a st1 :
  m st = Ok a st1 -> bind m f st = f a st1.
Proof. unfold bind. now intros ->. Qed.

Lemma storage_GetString_run (key : string) (st : State S T) :
  storage_GetString key st
  = Ok (GetString key (storage st)).1
       (mkState (access st) (GetString key (storage st)).2 (httpClient st) (ticks st)
          (trace st ++ [EGetString key (GetString key (storage st)).1.1
                                     (GetString key (storage st)).1.2])).
Proof. unfold storage_GetString. now destruct (GetString key (storage st)). Qed.

Lemma storage_GetInt_run (key : string) (st : State S T) :
  storage_GetInt key st
  = Ok (GetInt key (storage st)).1
       (mkState (access st) (GetInt key (storage st)).2 (httpClient st) (ticks st)
          (trace st ++ [EGetInt key (GetInt key (storage st)).1.1
                                  (GetInt key (storage st)).1.2])).
Proof. unfold storage_GetInt. now destruct (GetInt key (storage st)). Qed.

(** the state after hydration, in full *)
Lemma hydrate_run (k : authCacheKey) (st : State S T) :
  let r1 := GetString (authorizationKey k) (storage st) in
  let r2 := GetString (sessionIDKey k) r1.2 in
  let r3 := GetString (encodedPinKey k) r2.2 in
  let r4 := GetInt (expirationKey k) r3.2 in
  hydrate k st
  = Ok tt (mkState
             {| authorization := kept_or_read (authorization (access st)) r1.1;
                sessionID := kept_or_read (sessionID (access st)) r2.1;
                expiration := kept_or_read_expiry (expiration (access st)) r4.1;
                encodedPin := kept_or_read (encodedPin (access st)) r3.1 |}
             r4.2 (httpClient st) (ticks st)
             (trace st ++ [EGetString (authorizationKey k) r1.1.1 r1.1.2;
                           EGetString (sessionIDKey k) r2.1.1 r2.1.2;
                           EGetString (encodedPinKey k) r3.1.1 r3.1.2;
                           EGetInt (expirationKey k) r4.1.1 r4.1.2])).
Proof.
  cbv zeta. destruct st as [[a1 a2 a3 a4] s t n tr].
  unfold hydrate, bind, storage_GetString, storage_GetInt, set_authorization, set_sessionID,
    set_encodedPin, set_expiration, get_access, set_access, ret, kept_or_read,
    kept_or_read_expiry.
  cbn [access storage httpClient ticks trace authorization sessionID expiration encodedPin].
  repeat match goal with
         | |- context [is_empty ?v] => destruct (is_empty v); cbn
         | |- context [0 <? ?v] => destruct (0 <? v); cbn
         | |- context [GetString ?key ?s0] =>
             is_var s0; destruct (GetString key s0) as [[? [? |]] ?]; cbn
         | |- context [GetInt ?key ?s0] =>
             is_var s0; destruct (GetInt key s0) as [[? [? |]] ?]; cbn
         end;
    rewrite <- ?app_assoc; reflexivity.
Qed.

(** the outcome of persistence, in full *)
Lemma persist_run (r : Client) (k : authCacheKey) (st : State S T) :
  let p := access st in
  let ttl := SessionLength (account r) in
  let w1 := SetStringFor (authorizationKey k) (authorization p) ttl (storage st) in
  let w2 := SetStringFor (sessionIDKey k) (sessionID p) ttl w1.2 in
  let w3 := SetStringFor (encodedPinKey k) (encodedPin p) ttl w2.2 in
  let w4 := SetIntFor (expirationKey k) (time.Unix (expiration p)) ttl w3.2 in
  let e1 := ESetStringFor (authorizationKey k) (authorization p) ttl w1.1 in
  let e2 := ESetStringFor (sessionIDKey k) (sessionID p) ttl w2.1 in
  let e3 := ESetStringFor (encodedPinKey k) (encodedPin p) ttl w3.1 in
  let e4 := ESetIntFor (expirationKey k) (time.Unix (expiration p)) ttl w4.1 in
  let after s evs := mkState p s (httpClient st) (ticks st) (trace st ++ evs) in
  persist r k st
  = match w1.1, w2.1, w3.1 with
    | Some e, _, _ => Ok (Some (Foreign e)) (after w1.2 [e1])
    | None, Some e, _ => Ok (Some (Foreign e)) (after w2.2 [e1; e2])
    | None, None, Some e => Ok (Some (Foreign e)) (after w3.2 [e1; e2; e3])
    | None, None, None => Ok (Foreign <$> w4.1) (after w4.2 [e1; e2; e3; e4])
    end.
Proof.
  cbv zeta. destruct st as [p s t n tr].
  unfold persist, bind, storage_SetStringFor, storage_SetIntFor, get_access, ret.
  cbn [access storage httpClient ticks trace].
  repeat match goal with
         | |- context [SetStringFor ?key ?v ?ttl ?s0] =>
             is_var s0; destruct (SetStringFor key v ttl s0) as [[? |] ?]; cbn
         | |- context [SetIntFor ?key ?v ?ttl ?s0] =>
             is_var s0; destruct (SetIntFor key v ttl s0) as [[? |] ?]; cbn
         end;
    rewrite <- ?app_assoc; reflexivity.
Qed.

(** the outcome of the call to the login endpoint, in full *)
Lemma authenticate_run (r : Client) (st : State S T) :
  let loginURL := baseURL r +:+ baseLoginUrl in
  let payload :=
    [("userName", UserName (account r)); ("password", Password (account r));
     ("sessionLength", pretty (time.Seconds (SessionLength (account r))))] in
  let post := PostForm loginURL payload (httpClient st) in
  let tr := trace st ++ [EPostForm loginURL payload post.1] in
  let st1 := mkState (access st) (storage st) post.2 (ticks st) tr in
  authenticate r st
  = match post.1 with
    | inl err => Ok (Some (Foreign err)) st1
    | inr res =>
        match RespBody res with
        | None => Panic st1
        | Some (bodyString, Some err) => Ok (Some (Foreign err)) st1
        | Some (bodyString, None) =>
            if negb (successCode (StatusCode res))
            then Ok (Some (ErrLoginFailed bodyString)) st1
            else
              let token := Header_Get (RespHeader res) "Authorization" in
              let sid := Header_Get (RespHeader res) "X-SessionID" in
              let enc := DesEncrypt (Pin (account r)) sid in
              match enc.2 with
              | Some e =>
                  Ok (Some (Foreign e))
                     (mkState (mkAuthParams token sid (expiration (access st)) enc.1)
                        (storage st) post.2 (ticks st) tr)
              | None =>
                  Ok None
                     (mkState (mkAuthParams token sid
                                 (time.Add (wall (ticks st)) (SessionLength (account r)))
                                 enc.1)
                        (storage st) post.2 (Datatypes.S (ticks st)) tr)
              end
        end
    end.
Proof.
  cbv zeta. destruct st as [p s t n tr].
  unfold authenticate, bind, httpClient_PostForm.
  cbn [access storage httpClient ticks trace].
  destruct (PostForm _ _ t) as [[err | res] t']; cbn [fst snd]; [reflexivity |].
  destruct (RespBody res) as [[bodyString [err |]] |]; try reflexivity.
  destruct (negb (successCode (StatusCode res))); [reflexivity |].
  unfold set_authorization, set_sessionID, setPin, set_expiration, time_Now, get_access,
    set_access, bind, ret.
  cbn [access storage httpClient ticks trace authorization sessionID expiration encodedPin].
  destruct (DesEncrypt _ _) as [hexStr [e |]]; reflexivity.
Qed.

(** the phases of [login], one after the other *)
Lemma login_run (r : Client) (st sth : State S T) :
  hydrate (makeAuthCacheKeys r) st = Ok tt sth ->
  login r st
  = match hasExpired (access sth) sth with
    | Ok false stc => Ok None stc
    | Ok true stc =>
        match authenticate r stc with
        | Ok None sta => persist r (makeAuthCacheKeys r) sta
        | other => other
        end
    | Panic stc => Panic stc
    | Timeout stc => Timeout stc
    end.
Proof.
  intros Hh. unfold login. cbv zeta. rewrite (bind_run _ _ _ _ _ Hh).
  unfold bind at 1. unfold get_access at 1. unfold bind at 1.
  destruct (hasExpired (access sth) sth) as [[|] stc | |]; try reflexivity.
  cbn [negb]. unfold bind. destruct (authenticate r stc) as [[e |] sta | |]; reflexivity.
Qed.

(** C6: hydration issues its four reads whatever they return, and hands no
    error on; a field whose read failed or came back empty (for the expiry: not
    positive) keeps its in-memory value.  When the session is valid after such
    a hydration, [login] succeeds at once. *)
Theorem hydrate_read_failure_non_fatal (r : Client) (st : State S T) :
  let k := makeAuthCacheKeys r in
  exists sth v1 e1 v2 e2 v3 e3 v4 e4,
    hydrate k st = Ok tt sth
    /\ trace sth = trace st ++ [EGetString (authorizationKey k) v1 e1;
                                EGetString (sessionIDKey k) v2 e2;
                                EGetString (encodedPinKey k) v3 e3;
                                EGetInt (expirationKey k) v4 e4]
    /\ (e1 <> None \/ v1 = "" -> authorization (access sth) = authorization (access st))
    /\ (e2 <> None \/ v2 = "" -> sessionID (access sth) = sessionID (access st))
    /\ (e3 <> None \/ v3 = "" -> encodedPin (access sth) = encodedPin (access st))
    /\ (e4 <> None \/ v4 <= 0 -> expiration (access sth) = expiration (access st))
    /\ (forall stc, hasExpired (access sth) sth = Ok false stc -> login r st = Ok None stc).
Proof.
  cbv zeta. pose proof (hydrate_run (makeAuthCacheKeys r) st) as Hh. cbv zeta in Hh.
  eexists _, _, _, _, _, _, _, _, _. split; [exact Hh |].
  split; [reflexivity |]. cbn [access authorization sessionID encodedPin expiration].
  repeat split.
  - destruct (GetString _ _) as [[v [e |]] s1]; cbn; intros [He | ->]; try congruence.
    reflexivity.
  - destruct (GetString (sessionIDKey _) _) as [[v [e |]] s1]; cbn; intros [He | ->];
      try congruence. reflexivity.
  - destruct (GetString (encodedPinKey _) _) as [[v [e |]] s1]; cbn; intros [He | ->];
      try congruence. reflexivity.
  - destruct (GetInt _ _) as [[v [e |]] s1]; cbn; intros [He | Hv]; try congruence.
    destruct (Z.ltb_spec 0 v); [lia | reflexivity].
  - intros stc Hvalid. rewrite (login_run r st _ Hh). cbn [access]. now rewrite Hvalid.
Qed.


Lemma replay_app (evs1 evs2 : list Event) (s : S) :
  replay (evs1 ++ evs2) s = replay evs2 (replay evs1 s).
Proof. unfold replay. apply fold_left_app. Qed.

(** what hydration does to the state *)
Lemma hydrate_effect (k : authCacheKey) (st : State S T) :
  exists sth reads,
    hydrate k st = Ok tt sth
    /\ trace sth = trace st ++ reads
    /\ Forall (fun e => is_read e = true) reads
    /\ storage sth = replay reads (storage st)
    /\ httpClient sth = httpClient st /\ ticks sth = ticks st.
Proof.
  pose proof (hydrate_run k st) as Hh. cbv zeta in Hh.
  eexists _, _. split; [exact Hh |]. cbn [trace storage httpClient ticks].
  split; [reflexivity |]. split; [repeat constructor |]. repeat split.
Qed.

(** what the call to the login endpoint does to the state, however it ends *)
Lemma authenticate_effect (r : Client) (st : State S T) :
  exists url form res,
    trace (final (authenticate r st)) = trace st ++ [EPostForm url form res]
    /\ storage (final (authenticate r st)) = storage st
    /\ (forall e sta, authenticate r st = Ok (Some e) sta -> login_error e).
Proof.
  rewrite authenticate_run. cbv zeta.
  match goal with
  | |- context [PostForm ?url ?form ?t] =>
      exists url, form, (PostForm url form t).1; destruct (PostForm url form t) as [[e | res] t']
  end; cbn [fst snd].
  { split; [reflexivity |]. split; [reflexivity |]. now intros ? ? [= <- _]. }
  destruct (RespBody res) as [[bodyString [e |]] |].
  - split; [reflexivity |]. split; [reflexivity |]. now intros ? ? [= <- _].
  - destruct (negb (successCode (StatusCode res))).
    { split; [reflexivity |]. split; [reflexivity |]. now intros ? ? [= <- _]. }
    destruct (DesEncrypt _ _) as [hexStr [e |]]; cbn [fst snd];
      (split; [reflexivity |]); (split; [reflexivity |]).
    + now intros ? ? [= <- _].
    + discriminate.
  - split; [reflexivity |]. split; [reflexivity |]. discriminate.
Qed.

(** what persistence does to the state *)
Lemma persist_effect (r : Client) (k : authCacheKey) (st : State S T) :
  let ttl := SessionLength (account r) in
  let p := access st in
  let w1 := ESetStringFor (authorizationKey k) (authorization p) ttl in
  let w2 := ESetStringFor (sessionIDKey k) (sessionID p) ttl in
  let w3 := ESetStringFor (encodedPinKey k) (encodedPin p) ttl in
  let w4 := ESetIntFor (expirationKey k) (time.Unix (expiration p)) ttl in
  exists res st' writes,
    persist r k st = Ok res st'
    /\ trace st' = trace st ++ writes
    /\ storage st' = replay writes (storage st)
    /\ access st' = access st /\ httpClient st' = httpClient st /\ ticks st' = ticks st
    /\ ((exists e, writes = [w1 (Some e)] /\ res = Some (Foreign e))
        \/ (exists e, writes = [w1 None; w2 (Some e)] /\ res = Some (Foreign e))
        \/ (exists e, writes = [w1 None; w2 None; w3 (Some e)] /\ res = Some (Foreign e))
        \/ (exists e, writes = [w1 None; w2 None; w3 None; w4 (Some e)]
                      /\ res = Some (Foreign e))
        \/ (writes = [w1 None; w2 None; w3 None; w4 None] /\ res = None)).
Proof.
  cbv zeta. rewrite persist_run. cbv zeta. unfold replay.
  destruct (SetStringFor (authorizationKey k) _ _ _) as [[e1 |] s1] eqn:H1; cbn [fst snd].
  { eexists _, _, _. split; [reflexivity |]. split; [reflexivity |]. cbn. rewrite H1. repeat split. left. eauto. }
  destruct (SetStringFor (sessionIDKey k) _ _ _) as [[e2 |] s2] eqn:H2; cbn [fst snd].
  { eexists _, _, _. split; [reflexivity |]. split; [reflexivity |]. cbn. rewrite H1. cbn. rewrite H2.
    repeat split. right. left. eauto. }
  destruct (SetStringFor (encodedPinKey k) _ _ _) as [[e3 |] s3] eqn:H3; cbn [fst snd].
  { eexists _, _, _. split; [reflexivity |]. split; [reflexivity |]. cbn. rewrite H1. cbn. rewrite H2. cbn.
    rewrite H3. repeat split. do 2 right. left. eauto. }
  destruct (SetIntFor (expirationKey k) _ _ _) as [[e4 |] s4] eqn:H4; cbn [fst snd].
  { eexists _, _, _. split; [reflexivity |]. split; [reflexivity |]. cbn. rewrite H1. cbn. rewrite H2. cbn.
    rewrite H3. cbn. rewrite H4. repeat split. do 3 right. left. eauto. }
  eexists _, _, _. split; [reflexivity |]. split; [reflexivity |]. cbn. rewrite H1. cbn. rewrite H2. cbn.
  rewrite H3. cbn. rewrite H4. repeat split. do 4 right. eauto.
Qed.

(** C7: what [login] adds to the trace, in full: the reads of hydration, then
    at most one call to the login endpoint, then the writes.  There is no
    write unless that call gave a session.  When it did, the writes are
    token, session id, encrypted PIN, expiry, in this order and each with the
    session length as its lifetime, up to the first that fails: [login]
    returns the error of that one and the later fields are not written, and
    it returns nil only after all four.  The store is the one these calls
    left.  This holds of every run of [login], however it ends. *)
Theorem login_persist_short_circuit (r : Client) (st : State S T) :
  let k := makeAuthCacheKeys r in
  let ttl := SessionLength (account r) in
  let outcome := login r st in
  let st' := final outcome in
  let p := access st' in
  let w1 := ESetStringFor (authorizationKey k) (authorization p) ttl in
  let w2 := ESetStringFor (sessionIDKey k) (sessionID p) ttl in
  let w3 := ESetStringFor (encodedPinKey k) (encodedPin p) ttl in
  let w4 := ESetIntFor (expirationKey k) (time.Unix (expiration p)) ttl in
  exists reads calls writes,
    trace st' = trace st ++ reads ++ calls ++ writes
    /\ Forall (fun e => is_read e = true) reads
    /\ storage st' = replay (reads ++ writes) (storage st)
    /\ ((calls = [] /\ writes = [] /\ outcome = Ok None st')
        \/ (exists url form post,
              calls = [EPostForm url form post] /\ writes = []
              /\ login_call_failed r post outcome)
        \/ (exists url form res,
              calls = [EPostForm url form (inr res)]
              /\ successCode (StatusCode res) = true
              /\ ((exists e, writes = [w1 (Some e)] /\ outcome = Ok (Some (Foreign e)) st')
                  \/ (exists e, writes = [w1 None; w2 (Some e)]
                                /\ outcome = Ok (Some (Foreign e)) st')
                  \/ (exists e, writes = [w1 None; w2 None; w3 (Some e)]
                                /\ outcome = Ok (Some (Foreign e)) st')
                  \/ (exists e, writes = [w1 None; w2 None; w3 None; w4 (Some e)]
                                /\ outcome = Ok (Some (Foreign e)) st')
                  \/ (writes = [w1 None; w2 None; w3 None; w4 None]
                      /\ outcome = Ok None st')))).
Proof.
  cbv zeta.
  destruct (hydrate_effect (makeAuthCacheKeys r) st)
    as (sth & reads & Hh & Htr & Hreads & Hsto & _ & _).
  rewrite (login_run r st _ Hh).
  destruct (hasExpired_returns (access sth) sth) as (b & n & Hexp & _).
  rewrite Hexp. clear Hexp. exists reads.
  destruct b.
  2: { exists [], []. cbn [final trace storage].
       rewrite !app_nil_r. repeat split; try assumption. now left. }
  rewrite authenticate_run. cbv zeta. cbn [access storage httpClient ticks trace].
  match goal with
  | |- context [PostForm ?url ?form ?t] =>
      exists [EPostForm url form (PostForm url form t).1];
      destruct (PostForm url form t) as [[err | res] t']
  end; cbn [fst snd].
  { exists []. cbn [final trace storage]. rewrite Htr, Hsto, !app_nil_r, <- app_assoc.
    repeat split; try assumption. right. left. eexists _, _, _. repeat split. }
  destruct (RespBody res) as [[bodyString [err |]] |] eqn:Hbody.
  { exists []. cbn [final trace storage]. rewrite Htr, Hsto, !app_nil_r, <- app_assoc.
    repeat split; try assumption. right. left. eexists _, _, _.
    split; [reflexivity |]. split; [reflexivity |].
    unfold login_call_failed. rewrite Hbody. reflexivity. }
  2: { exists []. cbn [final trace storage]. rewrite Htr, Hsto, !app_nil_r, <- app_assoc.
       repeat split; try assumption. right. left. eexists _, _, _.
       split; [reflexivity |]. split; [reflexivity |].
       unfold login_call_failed. rewrite Hbody. reflexivity. }
  destruct (successCode (StatusCode res)) eqn:Hcode; cbn [negb].
  2: { exists []. cbn [final trace storage]. rewrite Htr, Hsto, !app_nil_r, <- app_assoc.
       repeat split; try assumption. right. left. eexists _, _, _.
       split; [reflexivity |]. split; [reflexivity |].
       unfold login_call_failed. rewrite Hbody, Hcode. reflexivity. }
  destruct (DesEncrypt _ _) as [hexStr [err |]] eqn:Henc; cbn [fst snd].
  { exists []. cbn [final trace storage]. rewrite Htr, Hsto, !app_nil_r, <- app_assoc.
    repeat split; try assumption. right. left. eexists _, _, _.
    split; [reflexivity |]. split; [reflexivity |].
    unfold login_call_failed. rewrite Hbody, Hcode, Henc. eexists. split; reflexivity. }
  match goal with
  | |- context [persist r ?k ?sta] =>
      destruct (persist_effect r k sta)
        as (res' & st'' & writes & Hp & Htp & Hsp & Hap & _ & _ & Hshape)
  end.
  cbv zeta in Hshape. rewrite Hp. cbn [final]. cbn [trace storage] in Htp, Hsp.
  exists writes.
  split; [rewrite Htp, Htr, <- !app_assoc; reflexivity |].
  split; [assumption |].
  split; [rewrite Hsp, Hsto, replay_app; reflexivity |].
  rewrite Hap. do 2 right. eexists _, _, res.
  split; [reflexivity |]. split; [exact Hcode |].
  destruct Hshape
    as [(e & -> & ->) | [(e & -> & ->) | [(e & -> & ->) | [(e & -> & ->) | [-> ->]]]]];
    eauto 10.
Qed.

(** C5: when the storage holds a non-empty token, session id and encrypted
    PIN and a positive expiry (an int64) whose instant, as [time.Unix] makes
    it, the clock has not passed, ensuring authentication succeeds without a
    call to the login endpoint, and leaves in memory a complete session that
    the clock, as last read, has not passed. *)
Theorem ensure_authenticated_from_store (r : Client) (st : State S T)
    (tok sid pin : string) (e : Z) (s1 s2 s3 s4 : S) :
  let k := makeAuthCacheKeys r in
  GetString (authorizationKey k) (storage st) = ((tok, None), s1) -> tok <> "" ->
  GetString (sessionIDKey k) s1 = ((sid, None), s2) -> sid <> "" ->
  GetString (encodedPinKey k) s2 = ((pin, None), s3) -> pin <> "" ->
  GetInt (expirationKey k) s3 = ((e, None), s4) -> 0 < e <= MaxInt64 ->
  (forall i, (ticks st <= i <= ticks st + 1)%nat -> wall i <= time.FromUnix e) ->
  exists st' evs,
    ensureUserIsAuthenticated r st = Ok None st'
    /\ trace st' = trace st ++ evs
    /\ Forall (fun ev => is_login_call ev = false) evs
    /\ httpClient st' = httpClient st
    /\ authorization (access st') <> "" /\ sessionID (access st') <> ""
    /\ encodedPin (access st') <> "" /\ expiration (access st') <> time.zero
    /\ (ticks st < ticks st')%nat
    /\ wall (Nat.pred (ticks st')) <= expiration (access st').
Proof.
  cbv zeta. intros H1 Htok H2 Hsid H3 Hpin H4 He Hclock.
  unfold ensureUserIsAuthenticated, hasSessionExpired. unfold bind at 1 2. unfold get_access.
  destruct (hasExpired_returns (access st) st) as (b0 & n0 & Hrun0 & Hn0). rewrite Hrun0.
  destruct b0.
  2: { apply hasExpired_Ok_false in Hrun0 as (Hz & Ha & Hs & Hp & Hnow & [= Hticks]).
       eexists _, []. rewrite app_nil_r. cbn [access ticks trace httpClient].
       rewrite Hticks. cbn [Nat.pred].
       split; [reflexivity |]. split; [reflexivity |]. split; [constructor |].
       split; [reflexivity |]. repeat split; try assumption. cbn [ticks]. lia. }
  unfold bind.
  match goal with |- context [login r ?st0] => set (stx := st0) end.
  pose proof (hydrate_run (makeAuthCacheKeys r) stx) as Hh. cbv zeta in Hh.
  rewrite (login_run r stx _ Hh). clear Hh. subst stx.
  cbn [access storage httpClient ticks trace].
  rewrite H1. cbn [fst snd]. rewrite H2. cbn [fst snd]. rewrite H3. cbn [fst snd].
  rewrite H4. cbn [fst snd]. unfold kept_or_read, kept_or_read_expiry.
  pose proof Htok as Htok'. pose proof Hsid as Hsid'. pose proof Hpin as Hpin'.
  apply is_empty_false in Htok', Hsid', Hpin'. rewrite Htok', Hsid', Hpin'.
  destruct (Z.ltb_spec 0 e) as [_ | ?]; [| lia].
  match goal with
  | |- context [hasExpired ?p ?sth] =>
      destruct (hasExpired_false p sth) as (stc & Hrun)
  end; cbn [authorization sessionID encodedPin expiration ticks]; try assumption.
  { now apply FromUnix_not_zero. }
  { apply Hclock. lia. }
  rewrite Hrun. apply hasExpired_Ok_false in Hrun as (_ & _ & _ & _ & _ & ->).
  eexists _, _. split; [reflexivity |].
  cbn [trace httpClient access ticks authorization sessionID encodedPin expiration Nat.pred].
  split; [reflexivity |]. split; [repeat constructor |]. split; [reflexivity |].
  repeat split; try assumption; [now apply FromUnix_not_zero | lia | apply Hclock; lia].
Qed.
End Login.

(** ** Runs on the test doubles *)

Lemma returned_Ok {St A : Type} (x : result St A) (a : A) :
  returned x = Some a -> x = Ok a (final x).
Proof. destruct x as [a' st' | st' | st']; try discriminate. now intros [= ->]. Qed.

(** a call finds a settled [mockStore] as it is *)
Lemma elapse_settled (m : mockStore) : settled m = true -> elapse m = m.
Proof.
  destruct m as [d ts a p]. unfold settled, elapse. cbn [pace timers age data].
  destruct p as [| ? ?]; [| discriminate]. intros Hts. rewrite Z.add_0_r.
  assert (Hdue : filter (due a) ts = [] /\ filter (fun t => negb (due a t)) ts = ts).
  { induction ts as [| t ts IH]; [split; reflexivity |].
    cbn [forallb] in Hts. apply andb_true_iff in Hts as [Ht Hts].
    destruct (IH Hts) as [IH1 IH2].
    destruct (due a t) eqn:Hd; [discriminate |].
    rewrite filter_cons_False by (rewrite Hd; exact id).
    rewrite filter_cons_True by (rewrite Hd; exact I).
    now rewrite IH1, IH2. }
  destruct Hdue as [-> ->]. reflexivity.
Qed.

(** reading from a settled [mockStore] leaves it as it is *)
Lemma mockStore_GetString (key : string) (m : mockStore) (v : string * option string) :
  settled m = true -> (GetString key m).1 = v -> GetString key m = (v, m).
Proof.
  intros Hm. cbn [GetString mockStore_Storage]. cbv zeta. rewrite (elapse_settled m Hm).
  destruct (data m !! key) as [[s | n] |]; cbn [fst]; now intros <-.
Qed.

Lemma mockStore_GetInt (key : string) (m : mockStore) (v : Z * option string) :
  settled m = true -> (GetInt key m).1 = v -> GetInt key m = (v, m).
Proof.
  intros Hm. cbn [GetInt mockStore_Storage]. cbv zeta. rewrite (elapse_settled m Hm).
  destruct (data m !! key) as [[s | n] |]; cbn [fst]; now intros <-.
Qed.

Lemma ensure_authenticated_from_store_witness :
  let st : State mockStore stubServer := fresh warmStore (mkStubServer login_ok []) in
  exists st' evs,
    ensureUserIsAuthenticated (platform := stubPlatform stepping_clock) testClient st
    = Ok None st'
    /\ trace st' = trace st ++ evs
    /\ Forall (fun ev => is_login_call ev = false) evs
    /\ httpClient st' = httpClient st
    /\ authorization (access st') <> "" /\ sessionID (access st') <> ""
    /\ encodedPin (access st') <> "" /\ expiration (access st') <> time.zero
    /\ (ticks st < ticks st')%nat
    /\ wall (Platform := stubPlatform stepping_clock) (Nat.pred (ticks st'))
       <= expiration (access st').
Proof.
  cbv zeta.
  apply (ensure_authenticated_from_store (platform := stubPlatform stepping_clock)
           testClient (fresh warmStore (mkStubServer login_ok []))
           "Bearer Token" "1234" "3132333431323334" 1600003600
           warmStore warmStore warmStore warmStore).
  - apply mockStore_GetString; vm_compute; reflexivity.
  - discriminate.
  - apply mockStore_GetString; vm_compute; reflexivity.
  - discriminate.
  - apply mockStore_GetString; vm_compute; reflexivity.
  - discriminate.
  - apply mockStore_GetInt; vm_compute; reflexivity.
  - unfold MaxInt64. lia.
  - intros i Hi. cbn [ticks fresh] in Hi. cbn [wall stubPlatform].
    unfold stepping_clock. change (time.FromUnix 1600003600) with 63735600400000000000.
    change (time.FromUnix 1600000000) with 63735596800000000000.
    unfold time.Second. lia.
Defined.

Lemma hydrate_read_failure_non_fatal_witness :
  let st : State mockStore stubServer :=
    mkState liveSession NewMockStore (mkStubServer login_ok []) O [] in
  exists stc,
    login (platform := stubPlatform stepping_clock) testClient st = Ok None stc
    /\ access stc = liveSession
    /\ Forall (fun ev => is_read ev = true) (trace stc).
Proof.
  cbv zeta.
  destruct (hydrate_read_failure_non_fatal (platform := stubPlatform stepping_clock)
              testClient (mkState liveSession NewMockStore (mkStubServer login_ok []) O []))
    as (sth & v1 & e1 & v2 & e2 & v3 & e3 & v4 & e4 & Hrun & Htr & _ & _ & _ & _ & Hlogin).
  vm_compute in Hrun. injection Hrun as <-.
  eexists. split; [apply Hlogin; vm_compute; reflexivity |].
  split; [reflexivity | repeat constructor].
Defined.

(** reads are no writes *)
Lemma map_is_write_reads (reads : list Event) :
  Forall (fun e => is_read e = true) reads ->
  map is_write reads = map (fun _ => false) reads.
Proof.
  induction 1 as [| e l He _ IH]; cbn [map]; [reflexivity |].
  rewrite IH. now destruct e.
Qed.

Lemma login_persist_short_circuit_witness :
  let k := makeAuthCacheKeys testClient in
  let st1 : State quotaStore stubServer :=
    fresh (mkQuotaStore ∅ 1) (mkStubServer login_ok []) in
  let refused := login (platform := stubPlatform stepping_clock) testClient st1 in
  let st4 : State quotaStore stubServer :=
    fresh (mkQuotaStore ∅ 4) (mkStubServer login_ok []) in
  let stored := login (platform := stubPlatform stepping_clock) testClient st4 in
  (refused = Ok (Some (Foreign "quota exceeded")) (final refused)
   /\ held (storage (final refused)) !! sessionIDKey k = None
   /\ held (storage (final refused)) !! encodedPinKey k = None
   /\ held (storage (final refused)) !! expirationKey k = None
   /\ exists reads calls writes,
        trace (final refused) = trace st1 ++ reads ++ calls ++ writes
        /\ Forall (fun e => is_read e = true) reads
        /\ length calls = 1%nat
        /\ map write_error writes = [None; Some "quota exceeded"])
  /\ (stored = Ok None (final stored)
      /\ exists reads calls writes,
           trace (final stored) = trace st4 ++ reads ++ calls ++ writes
           /\ Forall (fun e => is_read e = true) reads
           /\ length calls = 1%nat
           /\ map write_error writes = [None; None; None; None]).
Proof.
  cbv zeta. split.
  - assert (Hrun : returned
                     (login (platform := stubPlatform stepping_clock) testClient
                        (fresh (mkQuotaStore ∅ 1) (mkStubServer login_ok [])))
                   = Some (Some (Foreign "quota exceeded")))
      by (vm_compute; reflexivity).
    apply returned_Ok in Hrun.
    destruct (login_persist_short_circuit (platform := stubPlatform stepping_clock)
                testClient
                (fresh (mkQuotaStore ∅ 1) (mkStubServer login_ok [])))
      as (reads & calls & writes & Htr & Hreads & _ & Hshape).
    cbv zeta in Hshape.
    match type of Hrun with
    | _ = Ok _ ?st =>
        assert (Hheld : (let k := makeAuthCacheKeys testClient in
                         (held (storage st) !! sessionIDKey k,
                          held (storage st) !! encodedPinKey k,
                          held (storage st) !! expirationKey k,
                          map is_write (trace st)))
                        = (None, None, None,
                           [false; false; false; false; false; true; true]))
          by (vm_compute; reflexivity);
        set (st' := st) in *; clearbody st'
    end.
    injection Hheld as H2 H3 H4 Hws.
    split; [exact Hrun |]. split; [exact H2 |]. split; [exact H3 |]. split; [exact H4 |].
    exists reads, calls, writes. split; [exact Htr |]. split; [exact Hreads |].
    rewrite Htr in Hws. cbn [trace fresh app] in Hws.
    rewrite !map_app, (map_is_write_reads reads Hreads) in Hws.
    destruct Hshape
      as [(-> & -> & _) | [(url & form & post & -> & -> & _)
         | (url & form & res & -> & _ & [(e & -> & He) | [(e & -> & He) | [(e & -> & He)
            | [(e & -> & He) | [-> He]]]]])]];
      cbn [map is_write app] in Hws;
      try solve [exfalso; clear -Hws;
                 repeat (destruct reads as [| ? reads]; cbn in Hws; try discriminate Hws)].
    rewrite Hrun in He. injection He as <-. split; reflexivity.
  - assert (Hrun : returned
                     (login (platform := stubPlatform stepping_clock) testClient
                        (fresh (mkQuotaStore ∅ 4) (mkStubServer login_ok [])))
                   = Some None)
      by (vm_compute; reflexivity).
    apply returned_Ok in Hrun.
    destruct (login_persist_short_circuit (platform := stubPlatform stepping_clock)
                testClient
                (fresh (mkQuotaStore ∅ 4) (mkStubServer login_ok [])))
      as (reads & calls & writes & Htr & Hreads & _ & Hshape).
    cbv zeta in Hshape.
    match type of Hrun with
    | _ = Ok _ ?st =>
        assert (Hws : map is_write (trace st)
                      = [false; false; false; false; false; true; true; true; true])
          by (vm_compute; reflexivity);
        set (st' := st) in *; clearbody st'
    end.
    split; [exact Hrun |].
    exists reads, calls, writes. split; [exact Htr |]. split; [exact Hreads |].
    rewrite Htr in Hws. cbn [trace fresh app] in Hws.
    rewrite !map_app, (map_is_write_reads reads Hreads) in Hws.
    destruct Hshape
      as [(-> & -> & _) | [(url & form & post & -> & -> & _)
         | (url & form & res & -> & _ & [(e & -> & He) | [(e & -> & He) | [(e & -> & He)
            | [(e & -> & He) | [-> He]]]]])]];
      cbn [map is_write app] in Hws;
      try solve [exfalso; clear -Hws;
                 repeat (destruct reads as [| ? reads]; cbn in Hws; try discriminate Hws)].
    + rewrite Hrun in He. discriminate He.
    + split; reflexivity.
Defined.

(** ** Cache keys *)

Lemma hex_value_digit (n : N) : (n < 16)%N -> hex_value (hex_digit n) = n.
Proof.
  intros Hn. destruct n as [| p]; [reflexivity |].
  do 4 (destruct p as [p | p |]; try reflexivity); exfalso; lia.
Qed.

Lemma hex_digit_not_dash (n : N) : hex_digit n <> "-"%char.
Proof.
  destruct n as [| p]; [discriminate |].
  do 4 (destruct p as [p | p |]; try discriminate).
Qed.

Lemma nibbles_lt (c : ascii) : (N_of_ascii c / 16 < 16)%N /\ (N_of_ascii c mod 16 < 16)%N.
Proof.
  pose proof (N_ascii_bounded c) as Hb. split.
  - apply N.Div0.div_lt_upper_bound. lia.
  - apply N.mod_lt. discriminate.
Qed.

(** a byte is determined by its two hexadecimal digits *)
Lemma hex_byte_inj (c d : ascii) :
  hex_digit (N_of_ascii c / 16) = hex_digit (N_of_ascii d / 16) ->
  hex_digit (N_of_ascii c mod 16) = hex_digit (N_of_ascii d mod 16) ->
  c = d.
Proof.
  intros Hhi Hlo.
  destruct (nibbles_lt c) as [Hc1 Hc2]. destruct (nibbles_lt d) as [Hd1 Hd2].
  apply (f_equal hex_value) in Hhi, Hlo.
  rewrite !hex_value_digit in Hhi, Hlo by assumption.
  rewrite <- (ascii_N_embedding c), <- (ascii_N_embedding d). f_equal.
  rewrite (N.div_mod (N_of_ascii c) 16), (N.div_mod (N_of_ascii d) 16) by discriminate.
  congruence.
Qed.

(** Hexadecimal text followed by a tag that starts with a dash splits in one
    way only. *)
Lemma Sprintf_x_tag_inj (x y a b : string) :
  Sprintf_x x +:+ String "-" a = Sprintf_x y +:+ String "-" b -> x = y.
Proof.
  revert y. induction x as [| c x IH]; intros [| d y] Heq; cbn in Heq.
  - reflexivity.
  - injection Heq as Hc _. symmetry in Hc. now apply hex_digit_not_dash in Hc.
  - injection Heq as Hc _. now apply hex_digit_not_dash in Hc.
  - injection Heq as Hhi Hlo Hrest.
    rewrite (hex_byte_inj c d Hhi Hlo). f_equal. now apply IH.
Qed.

Lemma append_length (s1 s2 : string) :
  String.length (s1 +:+ s2) = (String.length s1 + String.length s2)%nat.
Proof. induction s1 as [| c s1 IH]; simpl; [reflexivity | now f_equal]. Qed.

Lemma append_inv_tail (s1 s2 t : string) : s1 +:+ t = s2 +:+ t -> s1 = s2.
Proof.
  revert s2. induction s1 as [| c s1 IH]; intros [| d s2] Heq; simpl in Heq.
  - reflexivity.
  - apply (f_equal String.length) in Heq. rewrite !append_length in Heq.
    simpl in Heq. rewrite ?append_length in Heq. lia.
  - apply (f_equal String.length) in Heq. rewrite !append_length in Heq.
    simpl in Heq. rewrite ?append_length in Heq. lia.
  - injection Heq as -> Heq. f_equal. now apply IH.
Qed.

(** every key is the base key followed by a tag that starts with a dash *)
Lemma keys_of_shape (r : Client) (k : string) :
  k ∈ keys_of (makeAuthCacheKeys r) ->
  exists tag,
    k = Sprintf_x (md5_New_Sum (Sprintf_s_s_s (baseURL r) baseLoginUrl (UserName (account r))))
        +:+ String "-" tag.
Proof.
  unfold keys_of, makeAuthCacheKeys. cbn [authorizationKey sessionIDKey expirationKey encodedPinKey].
  rewrite !elem_of_cons, elem_of_nil.
  intros [-> | [-> | [-> | [-> | []]]]]; eexists; reflexivity.
Qed.

(** a key that two clients share comes from one and the same formatted string *)
Lemma shared_key_same_string (r1 r2 : Client) (k : string) :
  k ∈ keys_of (makeAuthCacheKeys r1) ->
  k ∈ keys_of (makeAuthCacheKeys r2) ->
  Sprintf_s_s_s (baseURL r1) baseLoginUrl (UserName (account r1))
  = Sprintf_s_s_s (baseURL r2) baseLoginUrl (UserName (account r2)).
Proof.
  intros H1 H2.
  apply keys_of_shape in H1 as [t1 Hk1]. apply keys_of_shape in H2 as [t2 Hk2].
  rewrite Hk1 in Hk2. apply Sprintf_x_tag_inj in Hk2. unfold md5_New_Sum in Hk2.
  now apply append_inv_tail in Hk2.
Qed.

(** C4, as the code has it: two clients whose strings baseURL/loginPath/userName
    differ never derive a common cache key. *)
Theorem makeAuthCacheKeys_disjoint (r1 r2 : Client) (k1 k2 : string) :
  Sprintf_s_s_s (baseURL r1) baseLoginUrl (UserName (account r1))
  <> Sprintf_s_s_s (baseURL r2) baseLoginUrl (UserName (account r2)) ->
  k1 ∈ keys_of (makeAuthCacheKeys r1) ->
  k2 ∈ keys_of (makeAuthCacheKeys r2) ->
  k1 <> k2.
Proof.
  intros Hne H1 H2 Heq. subst k2. apply Hne.
  exact (shared_key_same_string r1 r2 k1 H1 H2).
Qed.

Lemma makeAuthCacheKeys_disjoint_witness :
  authorizationKey (makeAuthCacheKeys (clientFor "http://gateway" "alice"))
  <> authorizationKey (makeAuthCacheKeys (clientFor "http://gateway" "bob")).
Proof.
  apply (makeAuthCacheKeys_disjoint (clientFor "http://gateway" "alice")
           (clientFor "http://gateway" "bob")).
  - vm_compute. discriminate.
  - unfold keys_of. constructor.
  - unfold keys_of. constructor.
Defined.

(** On one base URL, accounts with different user names never share a key. *)
Lemma makeAuthCacheKeys_disjoint_users (baseUrl u1 u2 k : string) :
  u1 <> u2 ->
  k ∈ keys_of (makeAuthCacheKeys (clientFor baseUrl u1)) ->
  k ∈ keys_of (makeAuthCacheKeys (clientFor baseUrl u2)) ->
  False.
Proof.
  intros Hne H1 H2. pose proof (shared_key_same_string _ _ k H1 H2) as Heq.
  cbn [clientFor baseURL account UserName] in Heq. unfold Sprintf_s_s_s in Heq.
  do 4 apply (inj (String.app _)) in Heq. contradiction.
Qed.

(** C4, as stated, fails: the separator of the formatted string may occur in
    the base URL or in the user name, and then two different triples yield the
    same four keys. *)
Lemma makeAuthCacheKeys_collision :
  let r1 := clientFor "http://gateway" "x//rc/rest/agent/login/y" in
  let r2 := clientFor "http://gateway//rc/rest/agent/login/x" "y" in
  (baseURL r1, baseLoginUrl, UserName (account r1))
  <> (baseURL r2, baseLoginUrl, UserName (account r2))
  /\ makeAuthCacheKeys r1 = makeAuthCacheKeys r2.
Proof. cbv zeta. split; [discriminate | vm_compute; reflexivity]. Qed.

(** ** Client construction *)

Section Construction.
Context {S T : Type}.

(** C9: [NewClient] fails with [ErrAccountCredentialsRequired] when the
    account is absent or lacks its user name, password or PIN, and succeeds
    otherwise; either way it calls neither the transport nor the storage. *)
Theorem NewClient_credentials (account : option Account) (baseUrl : string)
    (st : State S T) :
  exists res st',
    NewClient account baseUrl st = Ok res st'
    /\ trace st' = trace st /\ httpClient st' = httpClient st /\ storage st' = storage st
    /\ match account with
       | None => res = inl ErrAccountCredentialsRequired
       | Some a =>
           (UserName a = "" \/ Password a = "" \/ Pin a = ""
            -> res = inl ErrAccountCredentialsRequired)
           /\ (UserName a <> "" /\ Password a <> "" /\ Pin a <> ""
               -> res = inr (mkClient a baseUrl))
       end.
Proof.
  unfold NewClient. destruct account as [a |].
  2: { eexists _, _. repeat split; reflexivity. }
  destruct (is_empty (Pin a)) eqn:Hpin; cbn [orb].
  { apply is_empty_true in Hpin. eexists _, _. repeat split; try reflexivity. tauto. }
  destruct (is_empty (UserName a)) eqn:Hname; cbn [orb].
  { apply is_empty_true in Hname. eexists _, _. repeat split; try reflexivity. tauto. }
  destruct (is_empty (Password a)) eqn:Hpass; cbn [orb].
  { apply is_empty_true in Hpass. eexists _, _. repeat split; try reflexivity. tauto. }
  apply is_empty_false in Hpin, Hname, Hpass.
  eexists _, _. split; [reflexivity |]. cbn. repeat split; tauto.
Qed.

End Construction.

Lemma NewClient_credentials_witness :
  let st : State mockStore stubServer := fresh NewMockStore (mkStubServer login_ok []) in
  (exists st',
     NewClient (Some (mkAccount "sample" "password" "" 3600)) "http://gateway" st
     = Ok (inl ErrAccountCredentialsRequired) st' /\ trace st' = [])
  /\ (exists st',
        NewClient (Some testAccount) "http://gateway" st
        = Ok (inr (mkClient testAccount "http://gateway")) st' /\ trace st' = []).
Proof.
  cbv zeta. split.
  - destruct (NewClient_credentials (Some (mkAccount "sample" "password" "" 3600)) "http://gateway"
                (fresh NewMockStore (mkStubServer login_ok [])))
      as (res & st' & Hrun & Htr & _ & _ & Hmissing & _).
    exists st'. rewrite Hrun, (Hmissing (or_intror (or_intror eq_refl))).
    split; [reflexivity | exact Htr].
  - destruct (NewClient_credentials (Some testAccount) "http://gateway"
                (fresh NewMockStore (mkStubServer login_ok [])))
      as (res & st' & Hrun & Htr & _ & _ & _ & Hgiven).
    exists st'. rewrite Hrun, Hgiven.
    + split; [reflexivity | exact Htr].
    + repeat split; discriminate.
Defined.

(** ** Traces of the operations *)

Create HintDb adds discriminated.

Section Traces.
Context {S T : Type} {store : Storage S} {transport : HttpClient T} {platform : Platform}.

Local Abbreviation Go := (M (State S T)).

Lemma adds_ret {A : Type} (P : Event -> bool) (a : A) : adds P (ret a : Go A).
Proof. intros st. exists []. cbn. now rewrite app_nil_r. Qed.

Lemma adds_panic {A : Type} (P : Event -> bool) : adds P (panic : Go A).
Proof. intros st. exists []. cbn. now rewrite app_nil_r. Qed.

Lemma adds_timeout {A : Type} (P : Event -> bool) : adds P (timeout : Go A).
Proof. intros st. exists []. cbn. now rewrite app_nil_r. Qed.

Lemma adds_bind {A B : Type} (P : Event -> bool) (m : Go A) (f : A -> Go B) :
  adds P m -> (forall a, adds P (f a)) -> adds P (bind m f).
Proof.
  intros Hm Hf st. destruct (Hm st) as (evs1 & Ht1 & Hp1). unfold bind.
  destruct (m st) as [a st1 | st1 | st1]; cbn [final] in Ht1 |- *; [| now exists evs1 ..].
  destruct (Hf a st1) as (evs2 & Ht2 & Hp2).
  exists (evs1 ++ evs2). rewrite Ht2, Ht1, <- app_assoc. split; [reflexivity |].
  now apply Forall_app.
Qed.

Lemma adds_weaken {A : Type} (P Q : Event -> bool) (m : Go A) :
  (forall e, P e = true -> Q e = true) -> adds P m -> adds Q m.
Proof.
  intros HPQ Hm st. destruct (Hm st) as (evs & Ht & Hp).
  exists evs. split; [exact Ht |]. eapply Forall_impl; [exact Hp | exact HPQ].
Qed.

Lemma adds_get_access (P : Event -> bool) : adds P (get_access (S := S) (T := T)).
Proof. intros st. exists []. cbn. now rewrite app_nil_r. Qed.

Lemma adds_set_access (P : Event -> bool) (p : authParams) :
  adds P (set_access (S := S) (T := T) p).
Proof. intros st. exists []. cbn. now rewrite app_nil_r. Qed.

Lemma adds_time_Now (P : Event -> bool) : adds P (time_Now (S := S) (T := T)).
Proof. intros st. exists []. cbn. now rewrite app_nil_r. Qed.

Lemma adds_GetString (P : Event -> bool) (key : string) :
  (forall v e, P (EGetString key v e) = true) -> adds (T := T) P (storage_GetString key).
Proof.
  intros HP st. rewrite storage_GetString_run. cbn [final trace].
  eexists. split; [reflexivity |]. repeat constructor. apply HP.
Qed.

Lemma adds_GetInt (P : Event -> bool) (key : string) :
  (forall v e, P (EGetInt key v e) = true) -> adds (T := T) P (storage_GetInt key).
Proof.
  intros HP st. rewrite storage_GetInt_run. cbn [final trace].
  eexists. split; [reflexivity |]. repeat constructor. apply HP.
Qed.

Lemma adds_SetStringFor (P : Event -> bool) (key val : string) (exp : time.Duration) :
  (forall e, P (ESetStringFor key val exp e) = true) ->
  adds (T := T) P (storage_SetStringFor key val exp).
Proof.
  intros HP st. unfold storage_SetStringFor.
  destruct (SetStringFor _ _ _ _) as [err s']. cbn [final trace].
  eexists. split; [reflexivity |]. repeat constructor. apply HP.
Qed.

Lemma adds_SetIntFor (P : Event -> bool) (key : string) (val : Z) (exp : time.Duration) :
  (forall e, P (ESetIntFor key val exp e) = true) ->
  adds (T := T) P (storage_SetIntFor key val exp).
Proof.
  intros HP st. unfold storage_SetIntFor.
  destruct (SetIntFor _ _ _ _) as [err s']. cbn [final trace].
  eexists. split; [reflexivity |]. repeat constructor. apply HP.
Qed.

Lemma adds_PostForm (P : Event -> bool) (url : string) (form : list (string * string)) :
  (forall res, P (EPostForm url form res) = true) ->
  adds (S := S) P (httpClient_PostForm url form).
Proof.
  intros HP st. unfold httpClient_PostForm.
  destruct (PostForm _ _ _) as [res t']. cbn [final trace].
  eexists. split; [reflexivity |]. repeat constructor. apply HP.
Qed.

Lemma adds_Do (P : Event -> bool) (req : Request) :
  (forall res, P (EDo req res) = true) -> adds (S := S) P (httpClient_Do req).
Proof.
  intros HP st. unfold httpClient_Do.
  destruct (Do _ _) as [res t']. cbn [final trace].
  eexists. split; [reflexivity |]. repeat constructor. apply HP.
Qed.

End Traces.

#[export] Hint Resolve adds_ret adds_panic adds_timeout adds_get_access adds_set_access
  adds_time_Now : adds.
#[export] Hint Extern 1 (adds _ (storage_GetString _)) =>
  apply adds_GetString; intros; reflexivity : adds.
#[export] Hint Extern 1 (adds _ (storage_GetInt _)) =>
  apply adds_GetInt; intros; reflexivity : adds.
#[export] Hint Extern 1 (adds _ (storage_SetStringFor _ _ _)) =>
  apply adds_SetStringFor; intros; reflexivity : adds.
#[export] Hint Extern 1 (adds _ (storage_SetIntFor _ _ _)) =>
  apply adds_SetIntFor; intros; reflexivity : adds.
#[export] Hint Extern 1 (adds _ (httpClient_PostForm _ _)) =>
  apply adds_PostForm; intros; reflexivity : adds.
#[export] Hint Extern 1 (adds _ (httpClient_Do _)) =>
  apply adds_Do; intros; reflexivity : adds.

(** splits a goal [adds P m] along the binds and the case distinctions of [m] *)
Ltac adds_tac :=
  repeat first
    [ solve [auto with adds]
    | apply adds_bind; [| intros ?]
    | match goal with
      | |- adds _ (match ?x with _ => _ end) => destruct x
      | |- adds _ (if ?b then _ else _) => destruct b
      end ].

(** ** Bank table *)

Lemma BanksSupportedOnUssd_size : length (map_to_list BanksSupportedOnUssd) = 13%nat.
Proof. vm_compute. reflexivity. Qed.

Lemma IsBankSupportedOnUSSD_true (bankCode : string) : IsBankSupportedOnUSSD bankCode = true.
Proof. vm_compute. reflexivity. Qed.

Section TracesOfOperations.
Context {S T : Type} {store : Storage S} {transport : HttpClient T} {platform : Platform}.

(** the four reads of hydration, in order *)
Lemma hydrate_trace (k : authCacheKey) (st : State S T) :
  exists sth v1 e1 v2 e2 v3 e3 v4 e4,
    hydrate k st = Ok tt sth
    /\ trace sth = trace st ++ [EGetString (authorizationKey k) v1 e1;
                                EGetString (sessionIDKey k) v2 e2;
                                EGetString (encodedPinKey k) v3 e3;
                                EGetInt (expirationKey k) v4 e4].
Proof.
  pose proof (hydrate_run k st) as Hh. cbv zeta in Hh.
  eexists _, _, _, _, _, _, _, _, _. split; [exact Hh | reflexivity].
Qed.

Lemma adds_hasExpired (P : Event -> bool) (p : authParams) :
  adds P (hasExpired (S := S) (T := T) p).
Proof. unfold hasExpired. adds_tac. Qed.

Lemma adds_hydrate (k : authCacheKey) : adds (S := S) (T := T) quiet (hydrate k).
Proof.
  unfold hydrate, set_authorization, set_sessionID, set_encodedPin, set_expiration. adds_tac.
Qed.

Lemma adds_authenticate (r : Client) : adds (S := S) (T := T) quiet (authenticate r).
Proof.
  unfold authenticate, set_authorization, set_sessionID, set_expiration, setPin. adds_tac.
Qed.

Lemma adds_persist (r : Client) (k : authCacheKey) :
  adds (S := S) (T := T) quiet (persist r k).
Proof. unfold persist. adds_tac. Qed.

Lemma adds_login (r : Client) : adds (S := S) (T := T) quiet (login r).
Proof.
  unfold login. cbv zeta.
  pose proof (adds_hydrate (makeAuthCacheKeys r)).
  pose proof (adds_authenticate r). pose proof (adds_persist r (makeAuthCacheKeys r)).
  pose proof (adds_hasExpired quiet). adds_tac.
Qed.

(** ensuring authentication issues no request *)
Lemma adds_ensureUserIsAuthenticated (r : Client) :
  adds (S := S) (T := T) quiet (ensureUserIsAuthenticated r).
Proof.
  unfold ensureUserIsAuthenticated, hasSessionExpired.
  pose proof (adds_login r). pose proof (adds_hasExpired quiet). adds_tac.
Qed.

Lemma quiet_any (e : Event) : quiet e = true -> any_event e = true.
Proof. reflexivity. Qed.

Lemma generateUrl_Ok (r : Client) (path : string) (q : list (gmap string string))
    (st st' : State S T) (url : string) :
  generateUrl r path q st = Ok url st' -> st' = st.
Proof.
  unfold generateUrl. destruct (url_with_query _ _); [| discriminate]. now intros [= _ <-].
Qed.

Lemma newRequest_Ok (method url : string) (body : option string) (st st' : State S T)
    (x : error + Request) :
  newRequest method url body st = Ok x st' -> st' = st.
Proof.
  unfold newRequest. destruct (http_NewRequest _ _); [now intros [= _ <-] |].
  unfold appendAuthHeaders, bind, get_access, ret. now intros [= _ <-].
Qed.

Lemma newRequest_errors (method url : string) (body : option string) (st st' : State S T)
    (e : error) :
  newRequest method url body st = Ok (inl e) st' -> exists msg, e = Foreign msg.
Proof.
  unfold newRequest. destruct (http_NewRequest _ _) as [msg |].
  - intros [= <- _]. eauto.
  - unfold appendAuthHeaders, bind, get_access, ret. discriminate.
Qed.

(** the outcome of [doRequest], in full *)
Lemma doRequest_run (req : Request) (st : State S T) :
  let res := Do req (httpClient st) in
  doRequest req st
  = Ok match res.1 with
       | inl err => (0, None, Some (Foreign err))
       | inr res =>
           match RespBody res with
           | None => (StatusCode res, None, None)
           | Some (data, err) => (StatusCode res, Some data, Foreign <$> err)
           end
       end
       (mkState (access st) (storage st) res.2 (ticks st) (trace st ++ [EDo req res.1])).
Proof.
  cbv zeta. unfold doRequest, bind, httpClient_Do.
  destruct (Do req (httpClient st)) as [[err | res] t']; cbn [fst snd]; [reflexivity |].
  destruct (RespBody res) as [[data err] |]; reflexivity.
Qed.

Lemma adds_generateUrl (P : Event -> bool) (r : Client) (path : string)
    (q : list (gmap string string)) :
  adds (S := S) (T := T) P (generateUrl r path q).
Proof. unfold generateUrl. adds_tac. Qed.

Lemma adds_newRequest (P : Event -> bool) (method url : string) (body : option string) :
  adds (S := S) (T := T) P (newRequest method url body).
Proof. unfold newRequest, appendAuthHeaders. adds_tac. Qed.

Lemma adds_doRequest (req : Request) : adds (S := S) (T := T) any_event (doRequest req).
Proof. unfold doRequest. adds_tac. Qed.

Lemma adds_access_reset (P : Event -> bool) : adds (S := S) (T := T) P access_reset.
Proof. unfold access_reset. adds_tac. Qed.

Lemma adds_ensure_any (r : Client) :
  adds (S := S) (T := T) any_event (ensureUserIsAuthenticated r).
Proof. exact (adds_weaken _ _ _ quiet_any (adds_ensureUserIsAuthenticated r)). Qed.

Lemma adds_BalanceEnquiry (fuel : nat) (r : Client) :
  adds (S := S) (T := T) any_event (BalanceEnquiry fuel r).
Proof.
  induction fuel as [| fuel IH]; cbn [BalanceEnquiry]; [apply adds_timeout |].
  pose proof (adds_ensure_any r). pose proof (adds_generateUrl any_event r).
  pose proof (adds_newRequest any_event). pose proof adds_doRequest.
  pose proof (adds_access_reset any_event).
  unfold newGetRequest. adds_tac.
Qed.

Lemma adds_FetchTransaction (fuel : nat) (r : Client) (o : option FetchTransactionOption) :
  adds (S := S) (T := T) any_event (FetchTransaction fuel r o).
Proof.
  induction fuel as [| fuel IH]; cbn [FetchTransaction]; [apply adds_timeout |].
  pose proof (adds_ensure_any r). pose proof (adds_generateUrl any_event r).
  pose proof (adds_newRequest any_event). pose proof adds_doRequest.
  pose proof (adds_access_reset any_event).
  unfold newGetRequest. cbv zeta. adds_tac.
Qed.

(** a request followed by anything: the request is the first event added *)
Lemma request_first {A : Type} (req : Request)
    (k : Z * option string * option error -> M (State S T) A) (st : State S T) :
  (forall res, adds any_event (k res)) ->
  exists resp rest, trace (final (bind (doRequest req) k st)) = trace st ++ EDo req resp :: rest.
Proof.
  intros Hk. unfold bind. rewrite doRequest_run. cbv zeta.
  match goal with |- context [k ?res ?st1] => destruct (Hk res st1) as (evs & Ht & _) end.
  cbn [trace] in Ht. eexists _, evs. rewrite Ht, <- app_assoc. reflexivity.
Qed.

Lemma request_or_nothing_ret {A : Type} (a : A) :
  request_or_nothing (ret a : M (State S T) A).
Proof. intros st. now left. Qed.

Lemma request_or_nothing_request {A : Type} (req : Request)
    (k : Z * option string * option error -> M (State S T) A) :
  (forall res, adds any_event (k res)) -> request_or_nothing (bind (doRequest req) k).
Proof. intros Hk st. right. destruct (request_first req k st Hk) as (? & ? & ?). eauto. Qed.

Lemma request_or_nothing_generateUrl {A : Type} (r : Client) (path : string)
    (q : list (gmap string string)) (k : string -> M (State S T) A) :
  (forall url, request_or_nothing (k url)) -> request_or_nothing (bind (generateUrl r path q) k).
Proof.
  intros Hk st. unfold bind, generateUrl. destruct (url_with_query _ _) as [url |].
  - apply Hk.
  - now left.
Qed.

Lemma request_or_nothing_newRequest {A : Type} (method url : string) (body : option string)
    (k : error + Request -> M (State S T) A) :
  (forall x, request_or_nothing (k x)) ->
  request_or_nothing (bind (newRequest method url body) k).
Proof.
  intros Hk st. unfold bind, newRequest. destruct (http_NewRequest _ _); [apply Hk |].
  unfold appendAuthHeaders, bind, get_access, ret. apply Hk.
Qed.

Lemma final_bind_ret {A B : Type} (m : M (State S T) A) (g : A -> B) (st : State S T) :
  final (bind m (fun a => ret (g a)) st) = final (m st).
Proof. unfold bind. now destruct (m st). Qed.

(** Every operation begins by ensuring authentication; what it adds to the
    trace afterwards is nothing or begins with its request. *)
Lemma run_after_ensure (r : Client) (op : operation) (fuel : nat) (st : State S T) :
  let ensured := final (ensureUserIsAuthenticated r st) in
  let ended := final (run (Datatypes.S fuel) r op st) in
  trace ended = trace ensured
  \/ exists req resp rest, trace ended = trace ensured ++ EDo req resp :: rest.
Proof.
  cbv zeta.
  pose proof (adds_BalanceEnquiry fuel r) as HB.
  pose proof (adds_FetchTransaction fuel r) as HF.
  pose proof (adds_access_reset any_event) as HR.
  assert (Hcont : forall (A : Type) (k : option error -> M (State S T) A),
             (forall err, request_or_nothing (k err)) ->
             let ended := final (bind (ensureUserIsAuthenticated r) k st) in
             trace ended = trace (final (ensureUserIsAuthenticated r st))
             \/ exists req resp rest,
                 trace ended
                 = trace (final (ensureUserIsAuthenticated r st)) ++ EDo req resp :: rest).
  { intros A k Hk. cbv zeta. unfold bind.
    destruct (ensureUserIsAuthenticated r st) as [err st1 | st1 | st1]; cbn [final];
      [apply Hk | now left ..]. }
  destruct op as [| reference amount bankCode | reference | options]; cbn [run];
    rewrite final_bind_ret.
  - cbn [BalanceEnquiry]. apply Hcont.
    intros [e |]; [apply request_or_nothing_ret |].
    apply request_or_nothing_generateUrl; intros url.
    apply request_or_nothing_newRequest; intros [e | request];
      [apply request_or_nothing_ret |].
    apply request_or_nothing_request; intros [[code data] err]. adds_tac.
  - unfold GenerateUSSD. rewrite IsBankSupportedOnUSSD_true. cbn [negb]. apply Hcont.
    intros [e |]; [apply request_or_nothing_ret |].
    destruct (fromMapToReader _ _ _) as [e | payloadReader];
      [apply request_or_nothing_ret |].
    apply request_or_nothing_generateUrl; intros url.
    apply request_or_nothing_newRequest; intros [e | request];
      [apply request_or_nothing_ret |].
    apply request_or_nothing_request; intros [[code data] err]. adds_tac.
  - unfold FetchUSSDTransaction. apply Hcont.
    intros [e |]; [apply request_or_nothing_ret |].
    apply request_or_nothing_generateUrl; intros url.
    apply request_or_nothing_newRequest; intros [e | request];
      [apply request_or_nothing_ret |].
    apply request_or_nothing_request; intros [[code data] err]. adds_tac.
  - cbn [FetchTransaction]. cbv zeta. apply Hcont.
    intros [e |]; [apply request_or_nothing_ret |].
    apply request_or_nothing_generateUrl; intros url.
    apply request_or_nothing_newRequest; intros [e | request];
      [apply request_or_nothing_ret |].
    apply request_or_nothing_request; intros [[code data] err]. adds_tac.
Qed.

(** [login] begins with the four reads *)
Lemma login_reads_first (r : Client) (st : State S T) :
  let k := makeAuthCacheKeys r in
  exists v1 e1 v2 e2 v3 e3 v4 e4 rest,
    trace (final (login r st))
    = trace st ++ [EGetString (authorizationKey k) v1 e1;
                   EGetString (sessionIDKey k) v2 e2;
                   EGetString (encodedPinKey k) v3 e3;
                   EGetInt (expirationKey k) v4 e4] ++ rest.
Proof.
  cbv zeta. unfold login. cbv zeta.
  destruct (hydrate_trace (makeAuthCacheKeys r) st)
    as (sth & v1 & e1 & v2 & e2 & v3 & e3 & v4 & e4 & Hh & Hth).
  rewrite (bind_run _ _ _ _ _ Hh).
  match goal with
  | |- context [final (?m sth)] =>
      assert (Hrest : adds quiet m)
  end.
  { apply adds_bind; [apply adds_get_access | intros p].
    pose proof (adds_hasExpired quiet p). pose proof (adds_authenticate r).
    pose proof (adds_persist r (makeAuthCacheKeys r)). adds_tac. }
  destruct (Hrest sth) as (evs & Ht & _).
  exists v1, e1, v2, e2, v3, e3, v4, e4, evs. rewrite Ht, Hth, <- app_assoc. reflexivity.
Qed.

(** the errors of [login] are its own or a collaborator's *)
Lemma login_errors (r : Client) (st st' : State S T) (e : error) :
  login r st = Ok (Some e) st' -> login_error e.
Proof.
  intros Hlogin.
  destruct (hydrate_effect (makeAuthCacheKeys r) st) as (sth & reads & Hh & _).
  rewrite (login_run r st _ Hh) in Hlogin.
  destruct (hasExpired_returns (access sth) sth) as (b & n & Hexp & _).
  rewrite Hexp in Hlogin. destruct b; [| discriminate].
  destruct (authenticate _ _) as [[e' |] sta | |] eqn:Hauth; try discriminate.
  - injection Hlogin as -> _.
    match type of Hauth with
    | authenticate r ?stc = _ =>
        destruct (authenticate_effect r stc) as (_ & _ & _ & _ & _ & Herr)
    end.
    exact (Herr _ _ Hauth).
  - destruct (persist_effect r (makeAuthCacheKeys r) sta)
      as (res' & st'' & writes & Hp & _ & _ & _ & _ & _ & Hshape).
    rewrite Hp in Hlogin. injection Hlogin as -> _. cbv zeta in Hshape.
    destruct Hshape
      as [(e' & _ & [= ->]) | [(e' & _ & [= ->]) | [(e' & _ & [= ->])
          | [(e' & _ & [= ->]) | [_ [=]]]]]]; exact I.
Qed.

Lemma ensure_errors (r : Client) (st st' : State S T) (e : error) :
  ensureUserIsAuthenticated r st = Ok (Some e) st' -> login_error e.
Proof.
  unfold ensureUserIsAuthenticated. intros Hrun.
  apply bind_Ok in Hrun as (b & st0 & _ & Hrun). destruct b; [| discriminate].
  apply bind_Ok in Hrun as (err & st1 & Hlogin & Hrun).
  destruct err as [e' |]; [| discriminate]. injection Hrun as -> _.
  now apply login_errors in Hlogin.
Qed.

(** ensuring authentication, given the outcome of the validity check *)
Lemma ensure_run (r : Client) (st st0 : State S T) (b : bool) :
  hasSessionExpired st = Ok b st0 ->
  ensureUserIsAuthenticated r st
  = if b
    then bind (login r)
           (fun err => match err with Some e => ret (Some e) | None => ret None end) st0
    else Ok None st0.
Proof.
  intros Hexp. unfold ensureUserIsAuthenticated. rewrite (bind_run _ _ _ _ _ Hexp).
  now destruct b.
Qed.

Lemma ensure_final_expired (r : Client) (st st0 : State S T) :
  hasSessionExpired st = Ok true st0 ->
  final (ensureUserIsAuthenticated r st) = final (login r st0).
Proof.
  intros Hexp. rewrite (ensure_run r st st0 true Hexp). unfold bind.
  now destruct (login r st0) as [[e |] stl | stl | stl].
Qed.

(** C8, as the code has it: an operation reads the four session fields from
    the storage, before anything else, when the in-memory session has expired
    at its start.  When the in-memory session is still valid the storage is
    not consulted: ensuring authentication returns at once, and the first
    thing the operation adds to the trace, if anything, is its request.  This
    holds of every run, however it ends. *)
Theorem hydration_only_when_expired (r : Client) (op : operation) (fuel : nat)
    (st : State S T) :
  let k := makeAuthCacheKeys r in
  let ended := final (run (Datatypes.S fuel) r op st) in
  exists b st0,
    hasSessionExpired st = Ok b st0
    /\ if b then
         exists v1 e1 v2 e2 v3 e3 v4 e4 rest,
           trace ended = trace st ++ [EGetString (authorizationKey k) v1 e1;
                                      EGetString (sessionIDKey k) v2 e2;
                                      EGetString (encodedPinKey k) v3 e3;
                                      EGetInt (expirationKey k) v4 e4] ++ rest
       else
         ensureUserIsAuthenticated r st = Ok None st0
         /\ storage st0 = storage st /\ access st0 = access st
         /\ (trace ended = trace st
             \/ exists req resp rest, trace ended = trace st ++ EDo req resp :: rest).
Proof.
  cbv zeta. pose proof (run_after_ensure r op fuel st) as Hafter. cbv zeta in Hafter.
  destruct (hasExpired_returns (access st) st) as (b & n & Hexp & _).
  assert (Hexp' : hasSessionExpired st
                  = Ok b (mkState (access st) (storage st) (httpClient st)
                            (ticks st + n)%nat (trace st))).
  { unfold hasSessionExpired, bind, get_access. exact Hexp. }
  eexists b, _. split; [exact Hexp' |]. destruct b.
  - rewrite (ensure_final_expired r _ _ Hexp') in Hafter.
    match type of Hafter with
    | context [login r ?st0] =>
        destruct (login_reads_first r st0)
          as (v1 & e1 & v2 & e2 & v3 & e3 & v4 & e4 & rest & Hl)
    end.
    cbv zeta in Hl. cbn [trace] in Hl. rewrite Hl in Hafter.
    exists v1, e1, v2, e2, v3, e3, v4, e4.
    destruct Hafter as [Ht | (req & resp & rest' & Ht)].
    + exists rest. exact Ht.
    + exists (rest ++ EDo req resp :: rest'). rewrite Ht, <- !app_assoc. reflexivity.
  - pose proof (ensure_run r _ _ _ Hexp') as Hens. cbv iota in Hens.
    rewrite Hens in Hafter. cbn [final trace] in Hafter. repeat split; assumption.
Qed.

(** C10: [IsBankSupportedOnUSSD] is true of every bank code, in whatever order
    the map is visited, and [GenerateUSSD] never returns
    [ErrBankNotSupportedOnUSSD]. *)
Theorem IsBankSupportedOnUSSD_always_true (bankCode : string) :
  IsBankSupportedOnUSSD bankCode = true
  /\ (forall visited,
        visited ≡ₚ map_to_list BanksSupportedOnUssd ->
        IsBankSupportedOnUSSD_visiting visited bankCode = true)
  /\ (forall (r : Client) (reference : string) (amount : float64) (st st' : State S T) res,
        GenerateUSSD r reference amount bankCode st = Ok res st' ->
        res <> inl ErrBankNotSupportedOnUSSD).
Proof.
  split; [apply IsBankSupportedOnUSSD_true |]. split.
  - intros visited Hperm. apply Permutation_length in Hperm.
    rewrite BanksSupportedOnUssd_size in Hperm.
    destruct visited as [| [k v] rest]; [discriminate Hperm |].
    unfold IsBankSupportedOnUSSD_visiting. now destruct (decide (k = k)).
  - intros r reference amount st st' res Hop.
    unfold GenerateUSSD in Hop. rewrite IsBankSupportedOnUSSD_true in Hop. cbn [negb] in Hop.
    apply bind_Ok in Hop as (err & st1 & Hens & Hop). destruct err as [e |].
    { injection Hop as <- _. apply ensure_errors in Hens. intros [= ->]. exact Hens. }
    unfold fromMapToReader in Hop.
    destruct (json_Marshal_payload _ _ _) as [e | payloadReader];
      [injection Hop as <- _; discriminate |].
    apply bind_Ok in Hop as (url & st2 & _ & Hop).
    apply bind_Ok in Hop as (rq & st3 & Hrq & Hop).
    destruct rq as [e | request].
    { injection Hop as <- _. apply newRequest_errors in Hrq as [msg ->]. discriminate. }
    apply bind_Ok in Hop as ([[code data] err] & st4 & Hdo & Hop).
    rewrite doRequest_run in Hdo. cbv zeta in Hdo. injection Hdo as Hres _.
    destruct err as [e |].
    { injection Hop as <- _. intros [= ->].
      destruct (Do _ _).1 as [msg | resp]; [discriminate |].
      destruct (RespBody resp) as [[d [msg |]] |]; discriminate. }
    destruct data as [data |]; [| injection Hop as <- _; discriminate].
    destruct (negb (successCode code)).
    { injection Hop as <- _. unfold toErrorResponse.
      destruct (json_Unmarshal_ErrorResponse _); discriminate. }
    unfold NewUssdTransactionResponse in Hop.
    destruct (json_Unmarshal_Ussd _); injection Hop as <- _; discriminate.
Qed.

(** the headers [appendAuthHeaders] puts on a request *)
Lemma newRequest_run (method url : string) (body : option string) (st : State S T) :
  http_NewRequest method url = None ->
  newRequest method url body st
  = Ok (inr {| Method := method; URL := url;
               ReqHeader := [("Authorization", authorization (access st));
                             ("X-SessionID", sessionID (access st));
                             ("Content-Type", "application/json")];
               ReqBody := match body with Some _ => Some "" | None => None end |}) st.
Proof. intros Hnew. unfold newRequest. rewrite Hnew. reflexivity. Qed.

(** [BalanceEnquiry] answered with 403: the session is reset and the
    operation starts again. *)
Lemma BalanceEnquiry_forbidden (fuel : nat) (r : Client) (st st1 : State S T)
    (url : string) (resp : Response) (t' : T) :
  ensureUserIsAuthenticated r st = Ok None st1 ->
  url_with_query (baseURL r +:+ baseBalanceUrl) [] = Some url ->
  http_NewRequest "GET" url = None ->
  let req := {| Method := "GET"; URL := url;
                ReqHeader := [("Authorization", authorization (access st1));
                              ("X-SessionID", sessionID (access st1));
                              ("Content-Type", "application/json")];
                ReqBody := None |} in
  Do req (httpClient st1) = (inr resp, t') ->
  StatusCode resp = StatusForbidden ->
  (RespBody resp = None \/ exists body, RespBody resp = Some (body, None)) ->
  BalanceEnquiry (Datatypes.S fuel) r st
  = BalanceEnquiry fuel r
      (mkState (reset (access st1)) (storage st1) t' (ticks st1)
         (trace st1 ++ [EDo req (inr resp)])).
Proof.
  cbv zeta. intros Hens Hurl Hnew Hdo Hcode Hbody. cbn [BalanceEnquiry].
  rewrite (bind_run _ _ _ _ _ Hens).
  unfold generateUrl. cbn [mbind list_bind]. rewrite Hurl.
  unfold bind at 1. unfold ret at 1. unfold newGetRequest.
  rewrite (bind_run _ _ _ _ _ (newRequest_run _ _ _ _ Hnew)).
  unfold bind at 1. rewrite doRequest_run. cbv zeta. rewrite Hdo. cbn [fst snd].
  destruct Hbody as [-> | [body ->]]; rewrite Hcode; reflexivity.
Qed.

(** [FetchTransaction] answered with 403 and a body: likewise. *)
Lemma FetchTransaction_forbidden (fuel : nat) (r : Client)
    (options : option FetchTransactionOption) (st st1 : State S T)
    (url : string) (resp : Response) (t' : T) (body : string) :
  ensureUserIsAuthenticated r st = Ok None st1 ->
  url_with_query (baseURL r +:+ baseTransactionsUrl)
    ([match options with Some o => ToMap o | None => ∅ end] ≫= map_to_list) = Some url ->
  http_NewRequest "GET" url = None ->
  let req := {| Method := "GET"; URL := url;
                ReqHeader := [("Authorization", authorization (access st1));
                              ("X-SessionID", sessionID (access st1));
                              ("Content-Type", "application/json")];
                ReqBody := None |} in
  Do req (httpClient st1) = (inr resp, t') ->
  StatusCode resp = StatusForbidden ->
  RespBody resp = Some (body, None) ->
  FetchTransaction (Datatypes.S fuel) r options st
  = FetchTransaction fuel r options
      (mkState (reset (access st1)) (storage st1) t' (ticks st1)
         (trace st1 ++ [EDo req (inr resp)])).
Proof.
  cbv zeta. intros Hens Hurl Hnew Hdo Hcode Hbody. cbn [FetchTransaction].
  rewrite (bind_run _ _ _ _ _ Hens). cbv zeta.
  unfold generateUrl. rewrite Hurl.
  unfold bind at 1. unfold ret at 1. unfold newGetRequest.
  rewrite (bind_run _ _ _ _ _ (newRequest_run _ _ _ _ Hnew)).
  unfold bind at 1. rewrite doRequest_run. cbv zeta. rewrite Hdo. cbn [fst snd].
  rewrite Hbody, Hcode. reflexivity.
Qed.

(** [GenerateUSSD] answered with 403 and a body: the error made from the body
    is returned; the session stays as it is and the operation does not start
    again. *)
Lemma GenerateUSSD_forbidden (r : Client) (reference : string) (amount : float64)
    (bankCode : string) (st st1 : State S T) (payload url : string) (resp : Response)
    (t' : T) (body : string) :
  ensureUserIsAuthenticated r st = Ok None st1 ->
  json_Marshal_payload amount bankCode reference = inr payload ->
  url_with_query (baseURL r +:+ baseUssdTransaction) [] = Some url ->
  http_NewRequest "POST" url = None ->
  let req := {| Method := "POST"; URL := url;
                ReqHeader := [("Authorization", authorization (access st1));
                              ("X-SessionID", sessionID (access st1));
                              ("Content-Type", "application/json")];
                ReqBody := Some "" |} in
  Do req (httpClient st1) = (inr resp, t') ->
  StatusCode resp = StatusForbidden ->
  RespBody resp = Some (body, None) ->
  GenerateUSSD r reference amount bankCode st
  = Ok (inl (toErrorResponse (Some body)))
       (mkState (access st1) (storage st1) t' (ticks st1)
          (trace st1 ++ [EDo req (inr resp)])).
Proof.
  cbv zeta. intros Hens Hpayload Hurl Hnew Hdo Hcode Hbody. unfold GenerateUSSD.
  rewrite IsBankSupportedOnUSSD_true. cbn [negb].
  rewrite (bind_run _ _ _ _ _ Hens). unfold fromMapToReader. rewrite Hpayload.
  unfold generateUrl. cbn [mbind list_bind]. rewrite Hurl.
  unfold bind at 1. unfold ret at 1. unfold newPostRequest.
  rewrite (bind_run _ _ _ _ _ (newRequest_run _ _ _ _ Hnew)).
  unfold bind at 1. rewrite doRequest_run. cbv zeta. rewrite Hdo. cbn [fst snd].
  rewrite Hbody, Hcode. reflexivity.
Qed.

(** [FetchUSSDTransaction] answered with 403 and a body: likewise. *)
Lemma FetchUSSDTransaction_forbidden (r : Client) (reference : string)
    (st st1 : State S T) (url : string) (resp : Response) (t' : T) (body : string) :
  ensureUserIsAuthenticated r st = Ok None st1 ->
  url_with_query (baseURL r +:+ baseFetchUssdTransaction)
    ([{["senderRef" := reference]}] ≫= map_to_list) = Some url ->
  http_NewRequest "GET" url = None ->
  let req := {| Method := "GET"; URL := url;
                ReqHeader := [("Authorization", authorization (access st1));
                              ("X-SessionID", sessionID (access st1));
                              ("Content-Type", "application/json")];
                ReqBody := None |} in
  Do req (httpClient st1) = (inr resp, t') ->
  StatusCode resp = StatusForbidden ->
  RespBody resp = Some (body, None) ->
  FetchUSSDTransaction r reference st
  = Ok (inl (toErrorResponse (Some body)))
       (mkState (access st1) (storage st1) t' (ticks st1)
          (trace st1 ++ [EDo req (inr resp)])).
Proof.
  cbv zeta. intros Hens Hurl Hnew Hdo Hcode Hbody. unfold FetchUSSDTransaction.
  rewrite (bind_run _ _ _ _ _ Hens).
  unfold generateUrl. rewrite Hurl.
  unfold bind at 1. unfold ret at 1. unfold newGetRequest.
  rewrite (bind_run _ _ _ _ _ (newRequest_run _ _ _ _ Hnew)).
  unfold bind at 1. rewrite doRequest_run. cbv zeta. rewrite Hdo. cbn [fst snd].
  rewrite Hbody, Hcode. reflexivity.
Qed.

Lemma round_trips_quiet (tr evs : list Event) :
  Forall (fun e => quiet e = true) evs -> round_trips (tr ++ evs) = round_trips tr.
Proof.
  intros Hq. unfold round_trips. rewrite filter_app, length_app.
  assert (filter is_request evs = []) as ->; [| cbn; lia].
  induction Hq as [| e evs He _ IH]; [reflexivity |].
  rewrite filter_cons. unfold quiet in He. destruct (is_request e); [discriminate | exact IH].
Qed.
End TracesOfOperations.

(** ** Retries against the stub server *)

Section StubRuns.
Context (clock : nat -> time.Time).

Local Abbreviation stub := (stubPlatform clock).

#[local] Hint Extern 0 Platform => exact (stubPlatform clock) : typeclass_instances.

(** Against the stub server and a [mockStore], ensuring authentication always
    succeeds, and uses up none of the server's replies. *)
Lemma stub_ensure (r : Client) (st : State mockStore stubServer) :
  login_reply (httpClient st) = login_ok ->
  exists st1,
    ensureUserIsAuthenticated (platform := stub) r st = Ok None st1
    /\ httpClient st1 = httpClient st
    /\ round_trips (trace st1) = round_trips (trace st).
Proof.
  intros Hreply.
  assert (Hgoal : exists st1, ensureUserIsAuthenticated (platform := stub) r st = Ok None st1
                              /\ httpClient st1 = httpClient st).
  2: { destruct Hgoal as (st1 & Hrun & Hhttp). exists st1. repeat split; try assumption.
       destruct (adds_ensureUserIsAuthenticated r st) as (evs & Ht & Hq).
       rewrite Hrun in Ht. cbn [final] in Ht. rewrite Ht. now apply round_trips_quiet. }
  unfold ensureUserIsAuthenticated, hasSessionExpired. unfold bind at 1 2. unfold get_access.
  destruct (hasExpired_returns (access st) st) as (b0 & n0 & Hrun0 & _). rewrite Hrun0.
  destruct b0; [| eexists; split; reflexivity].
  unfold bind.
  match goal with |- context [login r ?st0] => set (stx := st0) end.
  destruct (hydrate_effect (makeAuthCacheKeys r) stx) as (sth & reads & Hh & _ & _ & _ & Hth & _).
  rewrite (login_run r stx _ Hh).
  destruct (hasExpired_returns (access sth) sth) as (b1 & n1 & Hrun1 & _). rewrite Hrun1.
  destruct b1; [| eexists; split; [reflexivity | exact Hth]].
  rewrite authenticate_run. cbv zeta. cbn [httpClient PostForm stubServer_HttpClient fst snd].
  rewrite Hth. subst stx. cbn [httpClient]. rewrite Hreply.
  cbn [RespBody login_ok StatusCode RespHeader].
  change (negb (successCode StatusOK)) with false. cbv iota.
  cbn [DesEncrypt stubPlatform fst snd].
  rewrite persist_run. cbv zeta.
  cbn [SetStringFor SetIntFor mockStore_Storage fst snd].
  eexists. split; [reflexivity |]. cbn [httpClient]. reflexivity.
Qed.

Lemma stub_NewRequest (method url : string) :
  http_NewRequest (Platform := stub) method url = None.
Proof. reflexivity. Qed.

Lemma round_trips_snoc_request (tr : list Event) (req : Request) (res : string + Response) :
  round_trips (tr ++ [EDo req res]) = Datatypes.S (round_trips tr).
Proof.
  unfold round_trips. rewrite filter_app, length_app.
  change (length (filter is_request [EDo req res])) with 1%nat. lia.
Qed.

(** [n] answers 403 and then 200: [BalanceEnquiry] goes round [n + 1] times *)
Lemma BalanceEnquiry_stub_retries (r : Client) (n : nat) :
  forall (st : State mockStore stubServer) (body : string) (extra : nat),
    httpClient st
    = mkStubServer login_ok
        (replicate n (reply StatusForbidden "denied") ++ [reply StatusOK body]) ->
    exists st',
      BalanceEnquiry (platform := stub) (Datatypes.S n + extra) r st = Ok (inr body) st'
      /\ round_trips (trace st') = (round_trips (trace st) + Datatypes.S n)%nat.
Proof.
  induction n as [| n IH]; intros st body extra Hhttp.
  - destruct (stub_ensure r st) as (st1 & Hens & Hh1 & Hrt); [now rewrite Hhttp |].
    cbn [Nat.add BalanceEnquiry]. rewrite (bind_run _ _ _ _ _ Hens).
    unfold generateUrl. cbn [url_with_query stubPlatform].
    unfold bind at 1. unfold ret at 1. unfold newGetRequest.
    rewrite (bind_run _ _ _ _ _ (newRequest_run "GET" _ None st1 (stub_NewRequest _ _))).
    unfold bind at 1. rewrite doRequest_run. cbv zeta.
    cbn [Do stubServer_HttpClient]. rewrite Hh1, Hhttp. cbn [replies replicate app fst snd].
    cbn [reply RespBody StatusCode fmap option_fmap option_map].
    change (StatusOK =? StatusForbidden) with false.
    change (negb (successCode StatusOK)) with false. cbv iota.
    cbn [NewBalanceResponse stubPlatform bytes default].
    eexists. split; [reflexivity |]. cbn [trace].
    rewrite round_trips_snoc_request, Hrt. lia.
  - destruct (stub_ensure r st) as (st1 & Hens & Hh1 & Hrt); [now rewrite Hhttp |].
    cbn [Nat.add].
    rewrite (BalanceEnquiry_forbidden (Datatypes.S (n + extra)) r st st1 _
               (reply StatusForbidden "denied")
               (mkStubServer login_ok
                  (replicate n (reply StatusForbidden "denied") ++ [reply StatusOK body]))
               Hens eq_refl (stub_NewRequest _ _)).
    2: { cbn [Do stubServer_HttpClient]. rewrite Hh1, Hhttp. reflexivity. }
    2: reflexivity.
    2: { right. eexists. reflexivity. }
    match goal with
    | |- context [BalanceEnquiry _ r ?st2] =>
        destruct (IH st2 body extra) as (st' & Hrun & Hrt'); [reflexivity |]
    end.
    exists st'. split; [exact Hrun |]. rewrite Hrt'. cbn [trace].
    rewrite round_trips_snoc_request, Hrt. lia.
Qed.

(** likewise for [FetchTransaction] *)
Lemma FetchTransaction_stub_retries (r : Client) (options : option FetchTransactionOption)
    (n : nat) :
  forall (st : State mockStore stubServer) (body : string) (extra : nat),
    httpClient st
    = mkStubServer login_ok
        (replicate n (reply StatusForbidden "denied") ++ [reply StatusOK body]) ->
    exists st',
      FetchTransaction (platform := stub) (Datatypes.S n + extra) r options st
      = Ok (inr [body]) st'
      /\ round_trips (trace st') = (round_trips (trace st) + Datatypes.S n)%nat.
Proof.
  induction n as [| n IH]; intros st body extra Hhttp.
  - destruct (stub_ensure r st) as (st1 & Hens & Hh1 & Hrt); [now rewrite Hhttp |].
    cbn [Nat.add FetchTransaction]. rewrite (bind_run _ _ _ _ _ Hens). cbv zeta.
    unfold generateUrl. cbn [url_with_query stubPlatform].
    unfold bind at 1. unfold ret at 1. unfold newGetRequest.
    rewrite (bind_run _ _ _ _ _ (newRequest_run "GET" _ None st1 (stub_NewRequest _ _))).
    unfold bind at 1. rewrite doRequest_run. cbv zeta.
    cbn [Do stubServer_HttpClient]. rewrite Hh1, Hhttp. cbn [replies replicate app fst snd].
    cbn [reply RespBody StatusCode fmap option_fmap option_map].
    change (StatusOK =? StatusForbidden) with false.
    change (negb (successCode StatusOK)) with false. cbv iota.
    cbn [NewWalletTransactions stubPlatform bytes default].
    eexists. split; [reflexivity |]. cbn [trace].
    rewrite round_trips_snoc_request, Hrt. lia.
  - destruct (stub_ensure r st) as (st1 & Hens & Hh1 & Hrt); [now rewrite Hhttp |].
    cbn [Nat.add].
    rewrite (FetchTransaction_forbidden (Datatypes.S (n + extra)) r options st st1 _
               (reply StatusForbidden "denied")
               (mkStubServer login_ok
                  (replicate n (reply StatusForbidden "denied") ++ [reply StatusOK body]))
               "denied" Hens eq_refl (stub_NewRequest _ _)).
    2: { cbn [Do stubServer_HttpClient]. rewrite Hh1, Hhttp. reflexivity. }
    2: reflexivity.
    2: reflexivity.
    match goal with
    | |- context [FetchTransaction _ r options ?st2] =>
        destruct (IH st2 body extra) as (st' & Hrun & Hrt'); [reflexivity |]
    end.
    exists st'. split; [exact Hrun |]. rewrite Hrt'. cbn [trace].
    rewrite round_trips_snoc_request, Hrt. lia.
Qed.

(** C2, as the code has it: the retry of [BalanceEnquiry] and of
    [FetchTransaction] has no bound.  Against a server that answers 403 [n]
    times and then 200, the operation goes round [n + 1] times and
    succeeds. *)
Theorem retry_on_403_has_no_bound (r : Client) (op : operation (platform := stub))
    (n fuel : nat)
    (st : State mockStore stubServer) (body : string) :
  (op = OpBalanceEnquiry \/ exists options, op = OpFetchTransaction options) ->
  httpClient st
  = mkStubServer login_ok
      (replicate n (reply StatusForbidden "denied") ++ [reply StatusOK body]) ->
  (n < fuel)%nat ->
  exists st',
    run (platform := stub) fuel r op st = Ok None st'
    /\ round_trips (trace st') = (round_trips (trace st) + n + 1)%nat.
Proof.
  intros Hop Hhttp Hfuel.
  replace fuel with (Datatypes.S n + (fuel - Datatypes.S n))%nat by lia.
  destruct Hop as [-> | [options ->]]; unfold run.
  - destruct (BalanceEnquiry_stub_retries r n st body (fuel - Datatypes.S n) Hhttp)
      as (st' & Hrun & Hrt).
    exists st'. rewrite (bind_run _ _ _ _ _ Hrun). split; [reflexivity | lia].
  - destruct (FetchTransaction_stub_retries r options n st body (fuel - Datatypes.S n) Hhttp)
      as (st' & Hrun & Hrt).
    exists st'. rewrite (bind_run _ _ _ _ _ Hrun). split; [reflexivity | lia].
Qed.
End StubRuns.

Lemma retry_on_403_has_no_bound_witness :
  let st : State mockStore stubServer :=
    fresh NewMockStore
      (mkStubServer login_ok
         [reply StatusForbidden "denied"; reply StatusForbidden "denied";
          reply StatusOK "balance"]) in
  exists st',
    run (platform := stubPlatform stepping_clock) 3 testClient OpBalanceEnquiry st = Ok None st'
    /\ round_trips (trace st') = 3%nat.
Proof.
  cbv zeta.
  apply (retry_on_403_has_no_bound stepping_clock testClient OpBalanceEnquiry 2 3
           (fresh NewMockStore
              (mkStubServer login_ok
                 [reply StatusForbidden "denied"; reply StatusForbidden "denied";
                  reply StatusOK "balance"])) "balance").
  - left. reflexivity.
  - reflexivity.
  - lia.
Defined.

(** C2, as stated, fails: [BalanceEnquiry] answered with 403 twice goes round
    a third time, and succeeds. *)
Lemma BalanceEnquiry_third_round_trip :
  let st : State mockStore stubServer :=
    fresh NewMockStore
      (mkStubServer login_ok
         [reply StatusForbidden "denied"; reply StatusForbidden "denied";
          reply StatusOK "balance"]) in
  let outcome := BalanceEnquiry (platform := stubPlatform stepping_clock) 3 testClient st in
  returned outcome = Some (inr "balance")
  /\ map answered_with (filter is_request (trace (final outcome)))
     = [Some StatusForbidden; Some StatusForbidden; Some StatusOK].
Proof. cbv zeta. split; vm_compute; reflexivity. Qed.

(** C1 at the failing input: a live session, a server that answers 403 and
    would answer 200 next.  [GenerateUSSD] and [FetchUSSDTransaction] return
    the error made from the 403 body; the session is not reset, no second
    request is made. *)
Theorem USSD_operations_forbidden_no_retry :
  let st : State mockStore stubServer :=
    mkState liveSession NewMockStore
      (mkStubServer login_ok [reply StatusForbidden "denied"; reply StatusOK "{}"]) O [] in
  let generated :=
    GenerateUSSD (platform := stubPlatform stepping_clock) testClient "ref-1" (100 : Z) "058" st in
  let fetched :=
    FetchUSSDTransaction (platform := stubPlatform stepping_clock) testClient "ref-1" st in
  let seen (st' : State mockStore stubServer) :=
    (access st', map answered_with (trace st'), replies (httpClient st')) in
  returned generated = Some (inl (ErrResponse (NewErrorResponse 0 0 "denied" "")))
  /\ seen (final generated) = (liveSession, [Some StatusForbidden], [reply StatusOK "{}"])
  /\ returned fetched = Some (inl (ErrResponse (NewErrorResponse 0 0 "denied" "")))
  /\ seen (final fetched) = (liveSession, [Some StatusForbidden], [reply StatusOK "{}"]).
Proof. cbv zeta. repeat split; vm_compute; reflexivity. Qed.

(** C8, as stated, fails: with a live session in memory [BalanceEnquiry]
    executes its request without reading the storage. *)
Lemma BalanceEnquiry_without_hydration :
  let st : State mockStore stubServer :=
    mkState liveSession NewMockStore (mkStubServer login_ok [reply StatusOK "balance"]) O [] in
  let outcome := BalanceEnquiry (platform := stubPlatform stepping_clock) 1 testClient st in
  returned outcome = Some (inr "balance")
  /\ map is_read (trace (final outcome)) = [false]
  /\ map answered_with (trace (final outcome)) = [Some StatusOK].
Proof. cbv zeta. repeat split; vm_compute; reflexivity. Qed.

Lemma hydration_only_when_expired_witness :
  let st : State mockStore stubServer :=
    fresh NewMockStore (mkStubServer login_ok [reply StatusOK "balance"]) in
  let k := makeAuthCacheKeys testClient in
  let ended :=
    final (run (platform := stubPlatform stepping_clock) 1 testClient OpBalanceEnquiry st) in
  exists v1 e1 v2 e2 v3 e3 v4 e4 rest,
    trace ended = trace st ++ [EGetString (authorizationKey k) v1 e1;
                               EGetString (sessionIDKey k) v2 e2;
                               EGetString (encodedPinKey k) v3 e3;
                               EGetInt (expirationKey k) v4 e4] ++ rest.
Proof.
  cbv zeta.
  destruct (hydration_only_when_expired (platform := stubPlatform stepping_clock)
              testClient OpBalanceEnquiry O
              (fresh NewMockStore (mkStubServer login_ok [reply StatusOK "balance"])))
    as (b & st0 & Hexp & Hcase).
  assert (Hknown : returned
                     (hasSessionExpired (platform := stubPlatform stepping_clock)
                        (fresh NewMockStore
                           (mkStubServer login_ok [reply StatusOK "balance"])))
                   = Some true) by (vm_compute; reflexivity).
  rewrite Hexp in Hknown. injection Hknown as ->.
  exact Hcase.
Defined.

Lemma IsBankSupportedOnUSSD_always_true_witness :
  IsBankSupportedOnUSSD "000" = true
  /\ IsBankSupportedOnUSSD_visiting (reverse (map_to_list BanksSupportedOnUssd)) "000" = true.
Proof.
  destruct (IsBankSupportedOnUSSD_always_true (S := mockStore) (T := stubServer)
              (platform := stubPlatform stepping_clock) "000") as (Hany & Hvisiting & _).
  split; [exact Hany |]. apply Hvisiting. apply reverse_Permutation.
Defined.
(** ** What the operations send, and which keys they touch *)

Section CallShapes.
Context {S T : Type} {store : Storage S} {transport : HttpClient T} {platform : Platform}.

Local Abbreviation Go := (M (State S T)).

Lemma adds_doRequest_when (P : Event -> bool) (req : Request) :
  (forall res, P (EDo req res) = true) -> adds (S := S) (T := T) P (doRequest req).
Proof.
  intros HP. unfold doRequest. apply adds_bind; [now apply adds_Do |]. intros res. adds_tac.
Qed.

(** what follows [newRequest] sees an error or the request built for the
    session of the moment *)
Lemma adds_newRequest_then {A : Type} (P : Event -> bool) (method url : string)
    (body : option string) (k : error + Request -> Go A) :
  (forall e, adds P (k (inl e))) ->
  (forall p, adds P (k (inr (built_request method url body p)))) ->
  adds P (bind (newRequest method url body) k).
Proof.
  intros Hl Hr st. unfold bind, newRequest. destruct (http_NewRequest _ _); [apply Hl |].
  unfold appendAuthHeaders, bind, get_access, ret. apply Hr.
Qed.

Section Operations.
Variable P : Event -> bool.
Variable r : Client.
Hypothesis Hens : adds (S := S) (T := T) P (ensureUserIsAuthenticated r).
Hypothesis Hget : forall url p res, P (EDo (built_request "GET" url None p) res) = true.
Hypothesis Hpost :
  forall url payload p res, P (EDo (built_request "POST" url (Some payload) p) res) = true.

Lemma adds_BalanceEnquiry_when (fuel : nat) : adds P (BalanceEnquiry fuel r).
Proof.
  induction fuel as [| fuel IH]; cbn [BalanceEnquiry]; [apply adds_timeout |].
  apply adds_bind; [exact Hens |]. intros [e |]; [apply adds_ret |].
  apply adds_bind; [apply adds_generateUrl |]. intros url. unfold newGetRequest.
  apply adds_newRequest_then; [intros; apply adds_ret |]. intros p.
  apply adds_bind; [apply adds_doRequest_when; intros; apply Hget |].
  intros [[code data] err]. pose proof (adds_access_reset (S := S) (T := T) P). adds_tac.
Qed.

Lemma adds_FetchTransaction_when (fuel : nat) (o : option FetchTransactionOption) :
  adds P (FetchTransaction fuel r o).
Proof.
  induction fuel as [| fuel IH]; cbn [FetchTransaction]; [apply adds_timeout |].
  apply adds_bind; [exact Hens |]. intros [e |]; [apply adds_ret |]. cbv zeta.
  apply adds_bind; [apply adds_generateUrl |]. intros url. unfold newGetRequest.
  apply adds_newRequest_then; [intros; apply adds_ret |]. intros p.
  apply adds_bind; [apply adds_doRequest_when; intros; apply Hget |].
  intros [[code data] err]. pose proof (adds_access_reset (S := S) (T := T) P). adds_tac.
Qed.

Lemma adds_GenerateUSSD_when (reference : string) (amount : float64) (bankCode : string) :
  adds P (GenerateUSSD r reference amount bankCode).
Proof.
  unfold GenerateUSSD. destruct (negb _); [apply adds_ret |].
  apply adds_bind; [exact Hens |]. intros [e |]; [apply adds_ret |].
  destruct (fromMapToReader _ _ _) as [e | payloadReader]; [apply adds_ret |].
  apply adds_bind; [apply adds_generateUrl |]. intros url. unfold newPostRequest.
  apply adds_newRequest_then; [intros; apply adds_ret |]. intros p.
  apply adds_bind; [apply adds_doRequest_when; intros; apply Hpost |].
  intros [[code data] err]. adds_tac.
Qed.

Lemma adds_FetchUSSDTransaction_when (reference : string) :
  adds P (FetchUSSDTransaction r reference).
Proof.
  unfold FetchUSSDTransaction.
  apply adds_bind; [exact Hens |]. intros [e |]; [apply adds_ret |].
  apply adds_bind; [apply adds_generateUrl |]. intros url. unfold newGetRequest.
  apply adds_newRequest_then; [intros; apply adds_ret |]. intros p.
  apply adds_bind; [apply adds_doRequest_when; intros; apply Hget |].
  intros [[code data] err]. adds_tac.
Qed.

(** a property of events that ensuring authentication keeps, and that the
    requests built by [newRequest] have, holds of all that an operation adds
    to the trace *)
Lemma adds_operation (fuel : nat) (op : operation) : adds P (run fuel r op).
Proof.
  destruct op as [| reference amount bankCode | reference | options]; cbn [run];
    (apply adds_bind; [| intros; apply adds_ret]).
  - apply adds_BalanceEnquiry_when.
  - apply adds_GenerateUSSD_when.
  - apply adds_FetchUSSDTransaction_when.
  - apply adds_FetchTransaction_when.
Qed.
End Operations.

(** events that are no request, and pass [P] where they are a read, a write
    or a login call, are what ensuring authentication may add *)
Lemma adds_ensure_when (P : Event -> bool) (r : Client) :
  adds (S := S) (T := T) P (hydrate (makeAuthCacheKeys r)) ->
  adds (S := S) (T := T) P (authenticate r) ->
  adds (S := S) (T := T) P (persist r (makeAuthCacheKeys r)) ->
  adds (S := S) (T := T) P (ensureUserIsAuthenticated r).
Proof.
  intros Hh Ha Hp. unfold ensureUserIsAuthenticated, hasSessionExpired, login. cbv zeta.
  pose proof (adds_hasExpired (S := S) (T := T) P). adds_tac.
Qed.
End CallShapes.

Section WhatIsSent.
Context {S T : Type} {store : Storage S} {transport : HttpClient T} {platform : Platform}.

(** solves the side conditions that [own_access] leaves on a call to the
    storage *)
Ltac own_key :=
  intros; cbn [own_access]; rewrite ?andb_true_iff, ?bool_decide_eq_true;
  unfold string_keys; repeat split; try reflexivity; set_solver.

(** X1: Every call that an operation makes to the storage, reads and writes alike
    and retries included, is under one of the four cache keys of its client:
    strings under the token, session id and PIN keys, an integer under the
    expiry key, and every write has the session length as its lifetime. *)
Theorem operations_use_own_keys_only (r : Client) (op : operation) (fuel : nat)
    (st : State S T) :
  exists evs,
    trace (final (run fuel r op st)) = trace st ++ evs
    /\ Forall (fun e => own_access (makeAuthCacheKeys r) (SessionLength (account r)) e = true)
         evs.
Proof.
  apply adds_operation; [| reflexivity ..].
  set (k := makeAuthCacheKeys r). apply adds_ensure_when.
  - unfold hydrate, set_authorization, set_sessionID, set_encodedPin, set_expiration.
    adds_tac; first [apply adds_GetString | apply adds_GetInt]; own_key.
  - unfold authenticate, set_authorization, set_sessionID, set_expiration, setPin. adds_tac.
  - unfold persist.
    adds_tac; first [apply adds_SetStringFor | apply adds_SetIntFor]; own_key.
Qed.


(** X3: No operation sends a payload.  The requests of [BalanceEnquiry],
    [FetchUSSDTransaction] and [FetchTransaction] have no body; [newRequest]
    reads the body it is given to its end before it builds the request, so
    the request of [GenerateUSSD] carries a reader with nothing left in it. *)
Theorem requests_carry_no_payload (r : Client) (op : operation) (fuel : nat)
    (st : State S T) :
  exists evs,
    trace (final (run fuel r op st)) = trace st ++ evs
    /\ Forall (fun e => no_payload e = true) evs.
Proof.
  apply adds_operation.
  - apply (adds_weaken quiet); [intros []; try reflexivity; discriminate |].
    apply adds_ensureUserIsAuthenticated.
  - intros url p res. reflexivity.
  - intros url payload p res. reflexivity.
Qed.
End WhatIsSent.

(** ** The rounds of the operations *)

Section Rounds.
Context {S T : Type} {store : Storage S} {transport : HttpClient T} {platform : Platform}.

Lemma generateUrl_then {A : Type} (r : Client) (path : string)
    (q : list (gmap string string)) (k : string -> M (State S T) A) (st : State S T) :
  bind (generateUrl r path q) k st
  = match url_with_query (baseURL r +:+ path) (q ≫= map_to_list) with
    | Some url => k url st
    | None => Panic st
    end.
Proof. unfold bind, generateUrl. now destruct (url_with_query _ _). Qed.

Lemma newRequest_then {A : Type} (method url : string) (body : option string)
    (k : error + Request -> M (State S T) A) (st : State S T) :
  bind (newRequest method url body) k st
  = match http_NewRequest method url with
    | Some err => k (inl (Foreign err)) st
    | None => k (inr (built_request method url body (access st))) st
    end.
Proof. unfold bind, newRequest. now destruct (http_NewRequest _ _). Qed.

Lemma bind_Panic {A B : Type} (m : M (State S T) A) (f : A -> M (State S T) B)
    (st st1 : State S T) :
  m st = Panic st1 -> bind m f st = Panic st1.
Proof. unfold bind. now intros ->. Qed.

Lemma bind_Timeout {A B : Type} (m : M (State S T) A) (f : A -> M (State S T) B)
    (st st1 : State S T) :
  m st = Timeout st1 -> bind m f st = Timeout st1.
Proof. unfold bind. now intros ->. Qed.

(** what follows the request runs in the state after the request *)
Lemma doRequest_then {A : Type} (req : Request)
    (k : Z * option string * option error -> M (State S T) A) (st : State S T) :
  let res := (Do req (httpClient st)).1 in
  bind (doRequest req) k st
  = k match res with
      | inl err => (0, None, Some (Foreign err))
      | inr res =>
          match RespBody res with
          | None => (StatusCode res, None, None)
          | Some (data, err) => (StatusCode res, Some data, Foreign <$> err)
          end
      end
      (after_request st req res (Do req (httpClient st)).2).
Proof. cbv zeta. unfold bind. rewrite doRequest_run. reflexivity. Qed.

(** One round of [BalanceEnquiry]: it ends where ensuring authentication
    ended (no request was sent), or with its request sent, or it starts again
    with the session reset. *)
Lemma BalanceEnquiry_round (fuel : nat) (r : Client) (st : State S T) :
  let ens := final (ensureUserIsAuthenticated r st) in
  let out := BalanceEnquiry (Datatypes.S fuel) r st in
  final out = ens
  \/ exists url res t',
       final out = after_request ens (built_request "GET" url None (access ens)) res t'
       \/ (exists resp, res = inr resp /\ StatusCode resp = StatusForbidden)
          /\ out = BalanceEnquiry fuel r
                     (after_reset ens (built_request "GET" url None (access ens)) res t').
Proof.
  cbv zeta. cbn [BalanceEnquiry].
  destruct (ensureUserIsAuthenticated r st) as [[e |] st1 | st1 | st1] eqn:Hens;
    cbn [final]; rewrite ?(bind_run _ _ _ _ _ Hens), ?(bind_Panic _ _ _ _ Hens),
      ?(bind_Timeout _ _ _ _ Hens); try (now left).
  rewrite generateUrl_then. destruct (url_with_query _ _) as [url |]; [| now left].
  unfold newGetRequest. rewrite newRequest_then.
  destruct (http_NewRequest _ _) as [msg |]; [now left |].
  rewrite doRequest_then. cbv zeta. right.
  match goal with
  | |- context [after_request st1 (built_request _ ?url _ _) ?res ?t'] => exists url, res, t'
  end.
  match goal with |- context [Do ?req ?t] => destruct (Do req t) as [[err | res] t'] end;
    cbn [fst snd];
    [now left |].
  destruct (RespBody res) as [[data [err |]] |]; cbn [fmap option_fmap option_map];
    try (now left).
  all: destruct (Z.eqb_spec (StatusCode res) StatusForbidden) as [Hcode | _];
    [right; split; [exists res; split; [reflexivity | exact Hcode] | reflexivity] | left];
    destruct (negb (successCode (StatusCode res))); [reflexivity |];
    destruct (NewBalanceResponse _) as [[e | resp] |]; reflexivity.
Qed.

(** One round of [FetchTransaction], likewise. *)
Lemma FetchTransaction_round (fuel : nat) (r : Client)
    (options : option FetchTransactionOption) (st : State S T) :
  let ens := final (ensureUserIsAuthenticated r st) in
  let out := FetchTransaction (Datatypes.S fuel) r options st in
  final out = ens
  \/ exists url res t',
       final out = after_request ens (built_request "GET" url None (access ens)) res t'
       \/ (exists resp, res = inr resp /\ StatusCode resp = StatusForbidden)
          /\ out = FetchTransaction fuel r options
                     (after_reset ens (built_request "GET" url None (access ens)) res t').
Proof.
  cbv zeta. cbn [FetchTransaction].
  destruct (ensureUserIsAuthenticated r st) as [[e |] st1 | st1 | st1] eqn:Hens;
    cbn [final]; rewrite ?(bind_run _ _ _ _ _ Hens), ?(bind_Panic _ _ _ _ Hens),
      ?(bind_Timeout _ _ _ _ Hens); try (now left).
  rewrite generateUrl_then. destruct (url_with_query _ _) as [url |]; [| now left].
  unfold newGetRequest. rewrite newRequest_then.
  destruct (http_NewRequest _ _) as [msg |]; [now left |].
  rewrite doRequest_then. cbv zeta. right.
  match goal with
  | |- context [after_request st1 (built_request _ ?url _ _) ?res ?t'] => exists url, res, t'
  end.
  match goal with |- context [Do ?req ?t] => destruct (Do req t) as [[err | res] t'] end;
    cbn [fst snd];
    [now left |].
  destruct (RespBody res) as [[data [err |]] |]; cbn [fmap option_fmap option_map];
    try (now left).
  destruct (Z.eqb_spec (StatusCode res) StatusForbidden) as [Hcode | _];
    [right; split; [exists res; split; [reflexivity | exact Hcode] | reflexivity] | left];
    destruct (negb (successCode (StatusCode res))); [reflexivity |];
    destruct (NewWalletTransactions _) as [e | txs]; reflexivity.
Qed.

(** The one round of [GenerateUSSD]: it ends where ensuring authentication
    ended, or with its request sent. *)
Lemma GenerateUSSD_round (r : Client) (reference : string) (amount : float64)
    (bankCode : string) (st : State S T) :
  let ens := final (ensureUserIsAuthenticated r st) in
  let out := GenerateUSSD r reference amount bankCode st in
  final out = ens
  \/ exists url payload res t',
       final out
       = after_request ens (built_request "POST" url (Some payload) (access ens)) res t'.
Proof.
  cbv zeta. unfold GenerateUSSD. rewrite IsBankSupportedOnUSSD_true. cbn [negb].

  destruct (ensureUserIsAuthenticated r st) as [[e |] st1 | st1 | st1] eqn:Hens;
    cbn [final]; rewrite ?(bind_run _ _ _ _ _ Hens), ?(bind_Panic _ _ _ _ Hens),
      ?(bind_Timeout _ _ _ _ Hens); try (now left).
  destruct (fromMapToReader _ _ _) as [e | payloadReader]; [now left |].
  rewrite generateUrl_then. destruct (url_with_query _ _) as [url |]; [| now left].
  unfold newPostRequest. rewrite newRequest_then.
  destruct (http_NewRequest _ _) as [msg |]; [now left |].
  rewrite doRequest_then. cbv zeta. right.
  match goal with
  | |- context [after_request st1 (built_request _ ?url _ _) ?res ?t'] =>
      exists url, payloadReader, res, t'
  end.
  match goal with |- context [Do ?req ?t] => destruct (Do req t) as [[err | res] t'] end;
    cbn [fst snd];
    [reflexivity |].
  destruct (RespBody res) as [[data [err |]] |]; cbn [fmap option_fmap option_map];
    try reflexivity.
  destruct (negb (successCode (StatusCode res))); [reflexivity |].
  destruct (NewUssdTransactionResponse _) as [e | resp]; reflexivity.
Qed.

(** The one round of [FetchUSSDTransaction], likewise. *)
Lemma FetchUSSDTransaction_round (r : Client) (reference : string) (st : State S T) :
  let ens := final (ensureUserIsAuthenticated r st) in
  let out := FetchUSSDTransaction r reference st in
  final out = ens
  \/ exists url res t',
       final out = after_request ens (built_request "GET" url None (access ens)) res t'.
Proof.
  cbv zeta. unfold FetchUSSDTransaction.
  destruct (ensureUserIsAuthenticated r st) as [[e |] st1 | st1 | st1] eqn:Hens;
    cbn [final]; rewrite ?(bind_run _ _ _ _ _ Hens), ?(bind_Panic _ _ _ _ Hens),
      ?(bind_Timeout _ _ _ _ Hens); try (now left).
  rewrite generateUrl_then. destruct (url_with_query _ _) as [url |]; [| now left].
  unfold newGetRequest. rewrite newRequest_then.
  destruct (http_NewRequest _ _) as [msg |]; [now left |].
  rewrite doRequest_then. cbv zeta. right.
  match goal with
  | |- context [after_request st1 (built_request _ ?url _ _) ?res ?t'] => exists url, res, t'
  end.
  match goal with |- context [Do ?req ?t] => destruct (Do req t) as [[err | res] t'] end;
    cbn [fst snd];
    [reflexivity |].
  destruct (RespBody res) as [[data [err |]] |]; cbn [fmap option_fmap option_map];
    try reflexivity.
  destruct (negb (successCode (StatusCode res))); [reflexivity |].
  destruct (NewUssdTransactionResponse _) as [e | resp]; reflexivity.
Qed.
End Rounds.

(** ** Cache keys of one client *)

(** one prefix with two different tags gives two different keys *)
Lemma tagged_keys_differ (base tag1 tag2 : string) :
  tag1 <> tag2 -> base +:+ tag1 <> base +:+ tag2.
Proof. intros Hne Heq. apply Hne. exact (inj (String.app base) _ _ Heq). Qed.

(** X4: The four cache keys of a client are pairwise different: no field of the
    session is stored over another. *)
Theorem makeAuthCacheKeys_four_distinct (r : Client) :
  NoDup (keys_of (makeAuthCacheKeys r)).
Proof.
  unfold keys_of, makeAuthCacheKeys.
  cbn [authorizationKey sessionIDKey expirationKey encodedPinKey].
  set (base := Sprintf_x _).
  repeat (apply NoDup_cons; split);
    rewrite ?elem_of_cons, ?elem_of_nil; try apply NoDup_nil_2;
    intros H; repeat destruct H as [H | H]; try contradiction;
    revert H; apply tagged_keys_differ; discriminate.
Qed.

(** ** How many calls an operation makes *)

Section Counting.
Context {S T : Type} {store : Storage S} {transport : HttpClient T} {platform : Platform}.

Lemma added_app (st st' : State S T) (evs : list Event) :
  trace st' = trace st ++ evs -> added st st' = evs.
Proof. unfold added. intros ->. now rewrite drop_app_length. Qed.

Lemma login_calls_app (tr evs : list Event) :
  login_calls (tr ++ evs) = (login_calls tr + login_calls evs)%nat.
Proof. unfold login_calls. now rewrite filter_app, length_app. Qed.

Lemma round_trips_app (tr evs : list Event) :
  round_trips (tr ++ evs) = (round_trips tr + round_trips evs)%nat.
Proof. unfold round_trips. now rewrite filter_app, length_app. Qed.

Lemma login_calls_none (evs : list Event) :
  Forall (fun e => is_login_call e = false) evs -> login_calls evs = O.
Proof.
  unfold login_calls. induction 1 as [| e evs He _ IH]; [reflexivity |].
  rewrite filter_cons. destruct (is_login_call e); [discriminate | exact IH].
Qed.

Lemma login_calls_one (url : string) (form : list (string * string))
    (res : string + Response) :
  login_calls [EPostForm url form res] = 1%nat.
Proof. reflexivity. Qed.

(** [login] calls the login endpoint at most once *)
Lemma login_at_most_one_call (r : Client) (st : State S T) :
  (login_calls (trace (final (login r st))) <= login_calls (trace st) + 1)%nat.
Proof.
  destruct (hydrate_effect (makeAuthCacheKeys r) st)
    as (sth & reads & Hh & Htr & Hreads & _).
  rewrite (login_run r st _ Hh).
  destruct (hasExpired_returns (access sth) sth) as (b & n & Hexp & _).
  rewrite Hexp. clear Hexp.
  assert (Hr : login_calls (trace sth) = login_calls (trace st)).
  { rewrite Htr, login_calls_app, (login_calls_none reads); [lia |].
    eapply Forall_impl; [exact Hreads |]. now intros []. }
  destruct b; [| cbn [final trace]; lia].
  match goal with
  | |- context [authenticate r ?stc] =>
      destruct (authenticate_effect r stc) as (url & form & post & Hta & _);
      cbn [trace] in Hta;
      destruct (authenticate r stc) as [[e |] sta | sta | sta]
  end; cbn [final] in Hta |- *.
  2: { destruct (persist_effect r (makeAuthCacheKeys r) sta)
         as (res' & st'' & writes & Hp & Htp & _ & _ & _ & _ & Hshape).
       cbv zeta in Hshape. rewrite Hp. cbn [final].
       rewrite Htp, Hta, !login_calls_app, Hr, login_calls_one.
       assert (login_calls writes = O) as ->; [| lia].
       destruct Hshape
         as [(e & -> & _) | [(e & -> & _) | [(e & -> & _) | [(e & -> & _) | [-> _]]]]];
         reflexivity. }
  all: rewrite Hta, login_calls_app, Hr, login_calls_one; lia.
Qed.

(** ensuring authentication calls the login endpoint at most once, and sends
    no request *)
Lemma ensure_at_most_one_call (r : Client) (st : State S T) :
  let ens := final (ensureUserIsAuthenticated r st) in
  (login_calls (trace ens) <= login_calls (trace st) + 1)%nat
  /\ round_trips (trace ens) = round_trips (trace st).
Proof.
  cbv zeta. split.
  - destruct (hasExpired_returns (access st) st) as (b & n & Hexp & _).
    assert (Hexp' : hasSessionExpired st
                    = Ok b (mkState (access st) (storage st) (httpClient st)
                              (ticks st + n)%nat (trace st))).
    { unfold hasSessionExpired, bind, get_access. exact Hexp. }
    destruct b.
    + rewrite (ensure_final_expired r _ _ Hexp').
      exact (login_at_most_one_call r _).
    + rewrite (ensure_run r _ _ _ Hexp'). cbn [final trace]. lia.
  - destruct (adds_ensureUserIsAuthenticated r st) as (evs & -> & Hq).
    now apply round_trips_quiet.
Qed.

Lemma after_request_counts (st : State S T) (req : Request) (res : string + Response)
    (t' : T) :
  login_calls (trace (after_request st req res t')) = login_calls (trace st)
  /\ round_trips (trace (after_request st req res t')) = Datatypes.S (round_trips (trace st)).
Proof.
  cbn [after_request trace]. rewrite login_calls_app, round_trips_snoc_request.
  split; [| reflexivity]. change (login_calls [EDo req res]) with O. lia.
Qed.

(** X5: A call of [GenerateUSSD] or of [FetchUSSDTransaction] sends at most one
    request and calls the login endpoint at most once, whatever the server
    answers: these two operations never start again. *)
Theorem USSD_operations_single_round (r : Client) (reference : string) (amount : float64)
    (bankCode : string) (st : State S T) :
  let generated := final (GenerateUSSD r reference amount bankCode st) in
  let fetched := final (FetchUSSDTransaction r reference st) in
  ((round_trips (trace generated) <= round_trips (trace st) + 1)%nat
   /\ (login_calls (trace generated) <= login_calls (trace st) + 1)%nat)
  /\ ((round_trips (trace fetched) <= round_trips (trace st) + 1)%nat
      /\ (login_calls (trace fetched) <= login_calls (trace st) + 1)%nat).
Proof.
  cbv zeta. destruct (ensure_at_most_one_call r st) as [Hl Hq]. cbv zeta in Hl, Hq.
  split.
  - destruct (GenerateUSSD_round r reference amount bankCode st)
      as [-> | (url & payload & res & t' & ->)]; [lia |].
    destruct (after_request_counts (final (ensureUserIsAuthenticated r st))
                (built_request "POST" url (Some payload)
                   (access (final (ensureUserIsAuthenticated r st)))) res t')
      as [-> ->]. lia.
  - destruct (FetchUSSDTransaction_round r reference st) as [-> | (url & res & t' & ->)];
      [lia |].
    destruct (after_request_counts (final (ensureUserIsAuthenticated r st))
                (built_request "GET" url None
                   (access (final (ensureUserIsAuthenticated r st)))) res t')
      as [-> ->]. lia.
Qed.

(** X6: When authentication cannot be ensured, the operation hands the error of
    the login on as it is and sends no request. *)
Theorem authentication_failure_sends_nothing (r : Client) (op : operation) (fuel : nat)
    (st st1 : State S T) (e : error) :
  ensureUserIsAuthenticated r st = Ok (Some e) st1 ->
  run (Datatypes.S fuel) r op st = Ok (Some e) st1
  /\ round_trips (trace st1) = round_trips (trace st).
Proof.
  intros Hens. split.
  - destruct op as [| reference amount bankCode | reference | options]; cbn [run].
    + cbn [BalanceEnquiry]. unfold bind at 1. now rewrite (bind_run _ _ _ _ _ Hens).
    + unfold GenerateUSSD. rewrite IsBankSupportedOnUSSD_true. cbn [negb].
      unfold bind at 1. now rewrite (bind_run _ _ _ _ _ Hens).
    + unfold FetchUSSDTransaction. unfold bind at 1. now rewrite (bind_run _ _ _ _ _ Hens).
    + cbn [FetchTransaction]. unfold bind at 1. now rewrite (bind_run _ _ _ _ _ Hens).
  - destruct (ensure_at_most_one_call r st) as [_ Hq]. cbv zeta in Hq.
    now rewrite Hens in Hq.
Qed.
End Counting.

(** ** A session held by the storage *)

Section ServedSession.
Context {S T : Type} {store : Storage S} {transport : HttpClient T} {platform : Platform}.

(** When the storage serves a whole session that the clock has not passed,
    ensuring authentication succeeds with reads at most: no login call, no
    write.  The session in memory is then the one it was, if that was in
    force, and the one of the storage otherwise. *)
Lemma ensure_served (r : Client) (st : State S T) (tok sid pin : string) (e : Z) :
  serves (storage st) (makeAuthCacheKeys r) tok sid pin e ->
  tok <> "" -> sid <> "" -> pin <> "" -> 0 < e <= MaxInt64 ->
  (forall i, (ticks st <= i < ticks st + 2)%nat -> wall i <= time.FromUnix e) ->
  exists st1 evs,
    ensureUserIsAuthenticated r st = Ok None st1
    /\ storage st1 = storage st
    /\ (ticks st1 <= ticks st + 2)%nat
    /\ trace st1 = trace st ++ evs
    /\ Forall (fun ev => is_read ev = true) evs
    /\ (access st1 = access st /\ expiration (access st) <> time.zero
        \/ access st1 = mkAuthParams tok sid (time.FromUnix e) pin).
Proof.
  intros (H1 & H2 & H3 & H4) Htok Hsid Hpin He Hclock.
  destruct (hasExpired_returns (access st) st) as (b0 & n0 & Hrun0 & Hn0).
  assert (Hexp : hasSessionExpired st
                 = Ok b0 (mkState (access st) (storage st) (httpClient st)
                            (ticks st + n0)%nat (trace st))).
  { unfold hasSessionExpired, bind, get_access. exact Hrun0. }
  rewrite (ensure_run r _ _ _ Hexp). destruct b0.
  2: { apply hasExpired_Ok_false in Hrun0 as (Hz & _).
       eexists _, []. split; [reflexivity |]. cbn [storage ticks trace access].
       rewrite app_nil_r. repeat split; [lia | constructor | now left]. }
  unfold bind.
  match goal with |- context [login r ?st0] => set (stx := st0) end.
  pose proof (hydrate_run (makeAuthCacheKeys r) stx) as Hh. cbv zeta in Hh.
  rewrite (login_run r stx _ Hh). clear Hh. subst stx.
  cbn [access storage httpClient ticks trace].
  rewrite H1. cbn [fst snd]. rewrite H2. cbn [fst snd]. rewrite H3. cbn [fst snd].
  rewrite H4. cbn [fst snd]. unfold kept_or_read, kept_or_read_expiry.
  apply is_empty_false in Htok, Hsid, Hpin. rewrite Htok, Hsid, Hpin.
  destruct (Z.ltb_spec 0 e) as [_ | ?]; [| lia].
  match goal with
  | |- context [hasExpired ?p ?sth] =>
      destruct (hasExpired_false p sth) as (stc & Hrun);
      [| | | | | destruct (hasExpired_returns p sth) as (b' & n & Hrun' & Hn)]
  end; cbn [authorization sessionID encodedPin expiration ticks];
    try (apply is_empty_false; assumption).
  { now apply FromUnix_not_zero. }
  { apply Hclock. lia. }
  rewrite Hrun in Hrun'. injection Hrun' as <- ->. rewrite Hrun.
  eexists _, _. split; [reflexivity |]. cbn [storage ticks trace access].
  split; [reflexivity |]. split; [lia |]. split; [reflexivity |].
  split; [repeat constructor | now right].
Qed.

Section Served.
Variable r : Client.
Variables (tok sid pin : string) (e : Z).
Hypothesis Htok : tok <> "".
Hypothesis Hsid : sid <> "".
Hypothesis Hpin : pin <> "".
Hypothesis He : 0 < e <= MaxInt64.

(** the credentials [creds0] are those of the session in memory, if it may be
    in force *)
Local Abbreviation known creds0 st :=
  (expiration (access st) = time.zero \/ credentials st = creds0).

Lemma ensure_undisturbed (creds0 : string * string) (st : State S T) :
  live r tok sid pin e st 1 ->
  known creds0 st ->
  exists st1,
    ensureUserIsAuthenticated r st = Ok None st1
    /\ storage st1 = storage st /\ (ticks st1 <= ticks st + 2)%nat
    /\ undisturbed [creds0; (tok, sid)] st st1
    /\ credentials st1 ∈ [creds0; (tok, sid)].
Proof.
  intros [Hserves Hclock] Hknown.
  destruct (ensure_served r st tok sid pin e Hserves Htok Hsid Hpin He)
    as (st1 & evs & Hens & Hsto & Hticks & Htr & Hevs & Hacc).
  { intros i Hi. apply Hclock. lia. }
  exists st1. split; [exact Hens |]. split; [exact Hsto |]. split; [exact Hticks |].
  split.
  - split; [exact Hsto |]. exists evs. split; [exact Htr |].
    eapply Forall_impl; [exact Hevs |]. now intros [].
  - unfold credentials in *. destruct Hacc as [[Hsame Hz] | Hnew]; rewrite ?Hsame, ?Hnew.
    + destruct Hknown as [? | Heq]; [contradiction |]. rewrite Heq.
      apply elem_of_cons. now left.
    + apply elem_of_cons. right. apply elem_of_cons. now left.
Qed.

Lemma after_request_undisturbed (creds : list (string * string)) (st st1 : State S T)
    (method url : string) (body : option string) (res : string + Response) (t' : T) :
  undisturbed creds st st1 ->
  credentials st1 ∈ creds ->
  undisturbed creds st
    (after_request st1 (built_request method url body (access st1)) res t').
Proof.
  intros (Hsto & evs & Htr & Hevs) Hin. unfold undisturbed.
  cbn [after_request storage trace].
  split; [exact Hsto |]. eexists (evs ++ [_]).
  rewrite Htr, <- app_assoc. split; [reflexivity |].
  apply Forall_app. split; [exact Hevs |]. repeat constructor.
  apply bool_decide_eq_true. exact Hin.
Qed.

Lemma after_reset_undisturbed (creds : list (string * string)) (st st1 : State S T)
    (method url : string) (body : option string) (res : string + Response) (t' : T) :
  undisturbed creds st st1 ->
  credentials st1 ∈ creds ->
  undisturbed creds st
    (after_reset st1 (built_request method url body (access st1)) res t').
Proof. exact (after_request_undisturbed creds st st1 method url body res t'). Qed.

Lemma undisturbed_trans (creds : list (string * string)) (st st1 st2 : State S T) :
  undisturbed creds st st1 -> undisturbed creds st1 st2 -> undisturbed creds st st2.
Proof.
  intros (Hsto1 & evs1 & Htr1 & Hevs1) (Hsto2 & evs2 & Htr2 & Hevs2).
  split; [congruence |]. exists (evs1 ++ evs2).
  rewrite Htr2, Htr1, <- app_assoc. split; [reflexivity | now apply Forall_app].
Qed.

Lemma BalanceEnquiry_undisturbed (creds0 : string * string) (fuel : nat) (st : State S T) :
  live r tok sid pin e st fuel ->
  known creds0 st ->
  undisturbed [creds0; (tok, sid)] st (final (BalanceEnquiry fuel r st)).
Proof.
  revert st. induction fuel as [| fuel IH]; intros st [Hserves Hclock] Hknown.
  { split; [reflexivity |]. exists []. cbn. now rewrite app_nil_r. }
  destruct (ensure_undisturbed creds0 st) as (st1 & Hens & Hsto & Hticks & Hund & Hin);
    [| exact Hknown |].
  { split; [exact Hserves |]. intros i Hi. apply Hclock. lia. }
  pose proof (BalanceEnquiry_round fuel r st) as Hround. cbv zeta in Hround.
  rewrite Hens in Hround. cbn [final] in Hround.
  destruct Hround as [-> | (url & res & t' & [-> | [_ ->]])]; [exact Hund | |].
  - now apply after_request_undisturbed.
  - eapply undisturbed_trans.
    + exact (after_reset_undisturbed _ st st1 "GET" url None res t' Hund Hin).
    + apply IH; [| now left]. unfold live. cbn [after_reset storage ticks]. rewrite Hsto.
      split; [exact Hserves |]. intros i Hi. apply Hclock. lia.
Qed.

Lemma FetchTransaction_undisturbed (creds0 : string * string) (fuel : nat)
    (options : option FetchTransactionOption) (st : State S T) :
  live r tok sid pin e st fuel ->
  known creds0 st ->
  undisturbed [creds0; (tok, sid)] st (final (FetchTransaction fuel r options st)).
Proof.
  revert st. induction fuel as [| fuel IH]; intros st [Hserves Hclock] Hknown.
  { split; [reflexivity |]. exists []. cbn. now rewrite app_nil_r. }
  destruct (ensure_undisturbed creds0 st) as (st1 & Hens & Hsto & Hticks & Hund & Hin);
    [| exact Hknown |].
  { split; [exact Hserves |]. intros i Hi. apply Hclock. lia. }
  pose proof (FetchTransaction_round fuel r options st) as Hround. cbv zeta in Hround.
  rewrite Hens in Hround. cbn [final] in Hround.
  destruct Hround as [-> | (url & res & t' & [-> | [_ ->]])]; [exact Hund | |].
  - now apply after_request_undisturbed.
  - eapply undisturbed_trans.
    + exact (after_reset_undisturbed _ st st1 "GET" url None res t' Hund Hin).
    + apply IH; [| now left]. unfold live. cbn [after_reset storage ticks]. rewrite Hsto.
      split; [exact Hserves |]. intros i Hi. apply Hclock. lia.
Qed.

(** X7: While the storage serves a whole session (token, session id and PIN not
    empty, the expiry a positive int64) whose instant the clock has not
    passed, no operation calls the login endpoint or writes to the storage,
    whatever the server answers, and every request carries the credentials that were
    in memory at the start or those of the storage.  An answer 403 resets the
    session in memory only: [BalanceEnquiry] and [FetchTransaction] start
    again, read the same session back from the storage, and send their
    request once more with the same credentials. *)
Theorem stored_session_is_never_renewed (op : operation) (fuel : nat) (st : State S T) :
  serves (storage st) (makeAuthCacheKeys r) tok sid pin e ->
  (forall i, (i < ticks st + 2 * fuel + 2)%nat -> wall i <= time.FromUnix e) ->
  let ended := final (run fuel r op st) in
  storage ended = storage st
  /\ exists evs,
       trace ended = trace st ++ evs
       /\ Forall (fun ev => read_or_request [credentials st; (tok, sid)] ev = true) evs.
Proof.
  intros Hserves Hclock. cbv zeta.
  change (undisturbed [credentials st; (tok, sid)] st (final (run fuel r op st))).
  destruct op as [| reference amount bankCode | reference | options]; cbn [run];
    rewrite final_bind_ret.
  - apply BalanceEnquiry_undisturbed; [| now right]. split; [exact Hserves |].
    intros i Hi. apply Hclock. lia.
  - destruct (ensure_undisturbed (credentials st) st)
      as (st1 & Hens & Hsto & Hticks & Hund & Hin); [| now right |].
    { split; [exact Hserves |]. intros i Hi. apply Hclock. lia. }
    pose proof (GenerateUSSD_round r reference amount bankCode st) as Hround.
    cbv zeta in Hround. rewrite Hens in Hround. cbn [final] in Hround.
    destruct Hround as [-> | (url & payload & res & t' & ->)]; [exact Hund |].
    now apply after_request_undisturbed.
  - destruct (ensure_undisturbed (credentials st) st)
      as (st1 & Hens & Hsto & Hticks & Hund & Hin); [| now right |].
    { split; [exact Hserves |]. intros i Hi. apply Hclock. lia. }
    pose proof (FetchUSSDTransaction_round r reference st) as Hround.
    cbv zeta in Hround. rewrite Hens in Hround. cbn [final] in Hround.
    destruct Hround as [-> | (url & res & t' & ->)]; [exact Hund |].
    now apply after_request_undisturbed.
  - apply FetchTransaction_undisturbed; [| now right]. split; [exact Hserves |].
    intros i Hi. apply Hclock. lia.
Qed.
End Served.
End ServedSession.

(** ** A session shared through the storage *)

Section SharedSession.
Context {T : Type} {transport : HttpClient T} {platform : Platform}.

(** an instant that Go can hold, taken through [Unix] and back, is the
    beginning of its second *)
Lemma FromUnix_Unix (t : time.Time) :
  MinInt64 <= t / time.Second <= MaxInt64 ->
  time.FromUnix (time.Unix t) <= t < time.FromUnix (time.Unix t) + time.Second.
Proof.
  unfold time.FromUnix, time.Unix, int64, MinInt64, MaxInt64, time.unixToInternal,
    time.Second.
  intros Ht. Z.div_mod_to_equations. lia.
Qed.

(** once the time up to a call has passed, and when none passes later, the
    store is settled *)
Lemma elapse_idle (m : mockStore) : pace m = [] -> settled (elapse m) = true.
Proof.
  destruct m as [d ts a p]. cbn [pace]. intros ->.
  unfold settled, elapse. cbn [pace timers age data tail].
  induction ts as [| t ts IH]; [reflexivity |].
  destruct (due (a + 0) t) eqn:Hd.
  - rewrite filter_cons_False by (rewrite Hd; exact id). exact IH.
  - rewrite filter_cons_True by (rewrite Hd; exact I).
    cbn [forallb]. rewrite Hd. exact IH.
Qed.

(** a write with a lifetime above zero leaves a settled store settled *)
Lemma setFor_settled (key : string) (val : string + Z) (exp : time.Duration)
    (m : mockStore) :
  settled m = true -> 0 < exp -> settled (setFor key val exp m) = true.
Proof.
  unfold settled, setFor. cbn [pace timers age]. destruct (pace m); [| discriminate].
  intros Hts Hexp. rewrite forallb_app, Hts. cbn [forallb andb]. unfold due. cbn [snd].
  destruct (Z.leb_spec (age m + exp) (age m)); [lia | reflexivity].
Qed.

(** what hydration makes of a session that the storage serves *)
Lemma hydrate_served {S : Type} {store : Storage S} (k : authCacheKey) (st : State S T)
    (tok sid pin : string) (e : Z) :
  serves (storage st) k tok sid pin e ->
  hydrate k st
  = Ok tt (mkState
             {| authorization := if is_empty tok then authorization (access st) else tok;
                sessionID := if is_empty sid then sessionID (access st) else sid;
                expiration := if 0 <? e then time.FromUnix e else expiration (access st);
                encodedPin := if is_empty pin then encodedPin (access st) else pin |}
             (storage st) (httpClient st) (ticks st)
             (trace st ++ [EGetString (authorizationKey k) tok None;
                           EGetString (sessionIDKey k) sid None;
                           EGetString (encodedPinKey k) pin None;
                           EGetInt (expirationKey k) e None])).
Proof.
  intros (H1 & H2 & H3 & H4). rewrite hydrate_run. cbv zeta.
  rewrite H1. cbn [fst snd]. rewrite H2. cbn [fst snd]. rewrite H3. cbn [fst snd].
  rewrite H4. reflexivity.
Qed.

(** the four keys of a client, two by two *)
Ltac keys_differ :=
  unfold makeAuthCacheKeys;
  cbn [authorizationKey sessionIDKey expirationKey encodedPinKey];
  apply tagged_keys_differ; discriminate.

(** X8: What [login] writes to a [mockStore], another client of the same account
    reads back, when the session length is above zero and the reads follow
    before any time has passed: once the session is persisted the store
    serves it, and hydration from that store, whatever session [q0] is in
    memory, takes over every field that was stored non-empty.  The expiry
    comes back as the beginning of its second: it was stored in whole
    seconds. *)
Theorem persisted_session_is_read_back (r : Client) (st : State mockStore T)
    (q0 : authParams) (t2 : T) (n2 : nat) (tr2 : list Event) :
  0 < SessionLength (account r) ->
  pace (storage st) = [] ->
  let k := makeAuthCacheKeys r in
  let p := access st in
  exists st1 sth,
    persist r k st = Ok None st1
    /\ serves (storage st1) k (authorization p) (sessionID p) (encodedPin p)
         (time.Unix (expiration p))
    /\ hydrate k (mkState q0 (storage st1) t2 n2 tr2) = Ok tt sth
    /\ authorization (access sth)
       = (if is_empty (authorization p) then authorization q0 else authorization p)
    /\ sessionID (access sth) = (if is_empty (sessionID p) then sessionID q0 else sessionID p)
    /\ encodedPin (access sth)
       = (if is_empty (encodedPin p) then encodedPin q0 else encodedPin p)
    /\ expiration (access sth)
       = (if 0 <? time.Unix (expiration p)
          then time.FromUnix (time.Unix (expiration p)) else expiration q0)
    /\ (MinInt64 <= expiration p / time.Second <= MaxInt64 ->
        time.FromUnix (time.Unix (expiration p)) <= expiration p
        < time.FromUnix (time.Unix (expiration p)) + time.Second).
Proof.
  intros Httl Hpace. cbv zeta. rewrite persist_run. cbv zeta.
  cbn [SetStringFor SetIntFor mockStore_Storage fst snd].
  pose proof (elapse_idle _ Hpace) as H0.
  pose proof (setFor_settled (authorizationKey (makeAuthCacheKeys r))
                (inl (authorization (access st))) _ _ H0 Httl) as H1.
  rewrite (elapse_settled _ H1).
  pose proof (setFor_settled (sessionIDKey (makeAuthCacheKeys r))
                (inl (sessionID (access st))) _ _ H1 Httl) as H2.
  rewrite (elapse_settled _ H2).
  pose proof (setFor_settled (encodedPinKey (makeAuthCacheKeys r))
                (inl (encodedPin (access st))) _ _ H2 Httl) as H3.
  rewrite (elapse_settled _ H3).
  pose proof (setFor_settled (expirationKey (makeAuthCacheKeys r))
                (inr (time.Unix (expiration (access st)))) _ _ H3 Httl) as H4.
  eexists _, _. split; [reflexivity |]. cbn [storage].
  match goal with
  | |- serves ?m ?k ?a ?s ?p ?e /\ _ => assert (Hserves : serves m k a s p e)
  end.
  { repeat split; first [apply mockStore_GetString | apply mockStore_GetInt];
      try exact H4;
      cbn [GetString GetInt mockStore_Storage]; cbv zeta; rewrite (elapse_settled _ H4);
      cbn [setFor data];
      rewrite ?lookup_insert_ne by keys_differ; rewrite lookup_insert_eq; reflexivity. }
  split; [exact Hserves |].
  rewrite (hydrate_served (makeAuthCacheKeys r) (mkState q0 _ t2 n2 tr2) _ _ _ _ Hserves).
  split; [reflexivity |].
  cbn [access authorization sessionID encodedPin expiration].
  repeat split; now apply FromUnix_Unix.
Qed.

(** *** Lifetimes of zero or less *)

Lemma fired_absent (key : string) (d : gmap string (string + Z)) (l : list (string * Z)) :
  d !! key = None -> foldr (fun t d => delete t.1 d) d l !! key = None.
Proof.
  intros Hd. induction l as [| t l IH]; [exact Hd |]. cbn [foldr].
  destruct (decide (t.1 = key)) as [<- | Hne].
  - apply lookup_delete_eq.
  - rewrite lookup_delete_ne by exact Hne. exact IH.
Qed.

Lemma fired_deleted (key : string) (deadline : Z) (d : gmap string (string + Z))
    (l : list (string * Z)) :
  (key, deadline) ∈ l -> foldr (fun t d => delete t.1 d) d l !! key = None.
Proof.
  induction l as [| t l IH]; intros Hin; [now apply elem_of_nil in Hin |].
  cbn [foldr]. apply elem_of_cons in Hin as [<- | Hin].
  - apply lookup_delete_eq.
  - destruct (decide (t.1 = key)) as [<- | Hne]; [apply lookup_delete_eq |].
    rewrite lookup_delete_ne by exact Hne. now apply IH.
Qed.

(** an entry that is gone or about to go is gone once a call has begun *)
Lemma elapse_doomed (key : string) (m : mockStore) :
  doomed key m -> data (elapse m) !! key = None.
Proof.
  unfold elapse. cbn [data]. intros [Hd | (deadline & Hin & Hdue)].
  - now apply fired_absent.
  - apply (fired_deleted key deadline). apply list_elem_of_filter. split; [| exact Hin].
    unfold due. cbn [snd]. apply Is_true_true. apply Z.leb_le.
    destruct (pace m); lia.
Qed.

(** a write under another key leaves it gone *)
Lemma setFor_other (key key' : string) (val : string + Z) (exp : time.Duration)
    (m : mockStore) :
  key' <> key -> data m !! key = None -> doomed key (setFor key' val exp m).
Proof. intros Hne Hd. left. cbn [setFor data]. now rewrite lookup_insert_ne. Qed.

(** what is written with a lifetime of zero or less is about to go *)
Lemma setFor_doomed (key : string) (val : string + Z) (exp : time.Duration)
    (m : mockStore) :
  exp <= 0 -> doomed key (setFor key val exp m).
Proof.
  intros Hexp. right. exists (age m + exp). cbn [setFor timers age].
  split; [apply elem_of_app; right; now apply list_elem_of_singleton | lia].
Qed.

(** reading what is gone *)
Lemma mockStore_GetString_gone (key : string) (m : mockStore) :
  data (elapse m) !! key = None ->
  GetString key m = (("", Some "data not found"), elapse m).
Proof. intros Hd. cbn [GetString mockStore_Storage]. cbv zeta. now rewrite Hd. Qed.

Lemma mockStore_GetInt_gone (key : string) (m : mockStore) :
  data (elapse m) !! key = None ->
  GetInt key m = ((0, Some "data not found"), elapse m).
Proof. intros Hd. cbn [GetInt mockStore_Storage]. cbv zeta. now rewrite Hd. Qed.

(** X24: With a session length of zero or less, which [NewClient] lets through,
    nothing that [login] writes to a [mockStore] is ever read back: the timer
    of each entry is due as soon as it is started and, taken to have fired by
    the next call, has deleted the entry, so that by the time of the next
    login the four reads of hydration fail and the session in memory stays
    what it was.  This holds whatever the store held before and however much
    time passes between the calls. *)
Theorem nonpositive_lifetime_is_not_read_back (r : Client) (st : State mockStore T)
    (q0 : authParams) (t2 : T) (n2 : nat) (tr2 : list Event) :
  SessionLength (account r) <= 0 ->
  let k := makeAuthCacheKeys r in
  exists st1 sth,
    persist r k st = Ok None st1
    /\ hydrate k (mkState q0 (storage st1) t2 n2 tr2) = Ok tt sth
    /\ access sth = q0
    /\ trace sth
       = tr2 ++ [EGetString (authorizationKey k) "" (Some "data not found");
                 EGetString (sessionIDKey k) "" (Some "data not found");
                 EGetString (encodedPinKey k) "" (Some "data not found");
                 EGetInt (expirationKey k) 0 (Some "data not found")].
Proof.
  intros Httl. cbv zeta. rewrite persist_run. cbv zeta.
  cbn [SetStringFor SetIntFor mockStore_Storage fst snd].
  set (k := makeAuthCacheKeys r).
  set (m1 := setFor (authorizationKey k) _ _ (elapse (storage st))).
  set (m2 := setFor (sessionIDKey k) _ _ (elapse m1)).
  set (m3 := setFor (encodedPinKey k) _ _ (elapse m2)).
  set (m4 := setFor (expirationKey k) _ _ (elapse m3)).
  assert (H11 : doomed (authorizationKey k) m1) by now apply setFor_doomed.
  assert (H21 : doomed (authorizationKey k) m2).
  { apply setFor_other; [subst k; keys_differ | now apply elapse_doomed]. }
  assert (H22 : doomed (sessionIDKey k) m2) by now apply setFor_doomed.
  assert (H31 : doomed (authorizationKey k) m3).
  { apply setFor_other; [subst k; keys_differ | now apply elapse_doomed]. }
  assert (H32 : doomed (sessionIDKey k) m3).
  { apply setFor_other; [subst k; keys_differ | now apply elapse_doomed]. }
  assert (H33 : doomed (encodedPinKey k) m3) by now apply setFor_doomed.
  assert (H41 : doomed (authorizationKey k) m4).
  { apply setFor_other; [subst k; keys_differ | now apply elapse_doomed]. }
  assert (H42 : doomed (sessionIDKey k) m4).
  { apply setFor_other; [subst k; keys_differ | now apply elapse_doomed]. }
  assert (H43 : doomed (encodedPinKey k) m4).
  { apply setFor_other; [subst k; keys_differ | now apply elapse_doomed]. }
  assert (H44 : doomed (expirationKey k) m4) by now apply setFor_doomed.
  eexists _, _. split; [reflexivity |]. cbn [storage].
  rewrite hydrate_run. cbv zeta. cbn [access storage httpClient ticks trace].
  rewrite (mockStore_GetString_gone (authorizationKey k) m4) by now apply elapse_doomed.
  cbn [fst snd].
  rewrite (mockStore_GetString_gone (sessionIDKey k) (elapse m4))
    by (apply elapse_doomed; left; now apply elapse_doomed).
  cbn [fst snd].
  rewrite (mockStore_GetString_gone (encodedPinKey k) (elapse (elapse m4)))
    by (apply elapse_doomed; left; apply elapse_doomed; left; now apply elapse_doomed).
  cbn [fst snd].
  rewrite (mockStore_GetInt_gone (expirationKey k) (elapse (elapse (elapse m4))))
    by (apply elapse_doomed; left; apply elapse_doomed; left; apply elapse_doomed; left;
        now apply elapse_doomed).
  cbn [fst snd kept_or_read kept_or_read_expiry].
  split; [reflexivity |]. cbn [access trace]. split; [now destruct q0 | reflexivity].
Qed.
End SharedSession.

(** ** What a login leaves behind *)

Section LoginOutcomes.
Context {S T : Type} {store : Storage S} {transport : HttpClient T} {platform : Platform}.

Lemma reads_are_no_writes (evs : list Event) :
  Forall (fun e => is_read e = true) evs -> Forall (fun e => is_write e = false) evs.
Proof. intros H. eapply Forall_impl; [exact H |]. now intros []. Qed.

(** X9: The session after a login that returned nil.  Either the login endpoint
    was not called: the session, as hydrated, is complete and the clock has
    not passed its expiry.  Or it was called once and answered with a success
    status: the token and the session id are the response's headers
    Authorization and X-SessionID, whatever they hold, the PIN is encrypted
    under the session id, the expiry is the clock reading plus the session
    length, and the four writes followed. *)
Theorem login_nil_session (r : Client) (st st' : State S T) :
  login r st = Ok None st' ->
  let p := access st' in
  (exists reads,
      trace st' = trace st ++ reads
      /\ Forall (fun e => is_read e = true) reads
      /\ authorization p <> "" /\ sessionID p <> "" /\ encodedPin p <> ""
      /\ expiration p <> time.zero
      /\ wall (Nat.pred (ticks st')) <= expiration p)
  \/ (exists reads url form resp writes,
         trace st' = trace st ++ reads ++ EPostForm url form (inr resp) :: writes
         /\ Forall (fun e => is_read e = true) reads
         /\ Forall (fun e => is_write e = true) writes /\ length writes = 4%nat
         /\ successCode (StatusCode resp) = true
         /\ (DesEncrypt (Pin (account r)) (Header_Get (RespHeader resp) "X-SessionID")).2 = None
         /\ p = {| authorization := Header_Get (RespHeader resp) "Authorization";
                   sessionID := Header_Get (RespHeader resp) "X-SessionID";
                   expiration := time.Add (wall (Nat.pred (ticks st')))
                                   (SessionLength (account r));
                   encodedPin :=
                     (DesEncrypt (Pin (account r))
                        (Header_Get (RespHeader resp) "X-SessionID")).1 |}).
Proof.
  intros Hlogin. cbv zeta.
  destruct (hydrate_effect (makeAuthCacheKeys r) st)
    as (sth & reads & Hh & Htr & Hreads & _).
  rewrite (login_run r st _ Hh) in Hlogin.
  destruct (hasExpired (access sth) sth) as [[|] stc | stc | stc] eqn:Hexp;
    try discriminate.
  2: { injection Hlogin as <-.
       apply hasExpired_Ok_false in Hexp as (Hz & Ha & Hs & Hp & Hnow & ->).
       left. exists reads. cbn [trace access ticks Nat.pred]. repeat split; assumption. }
  destruct (hasExpired_returns (access sth) sth) as (b & n & Hexp' & _).
  rewrite Hexp in Hexp'. injection Hexp' as <- ->.
  rewrite authenticate_run in Hlogin. cbv zeta in Hlogin.
  cbn [access storage httpClient ticks trace] in Hlogin.
  destruct (PostForm _ _ (httpClient sth)) as [[err | resp] t'] eqn:Hpost;
    cbn [fst snd] in Hlogin; [discriminate |].
  destruct (RespBody resp) as [[bodyString [err |]] |]; try discriminate.
  destruct (successCode (StatusCode resp)) eqn:Hcode; cbn [negb] in Hlogin;
    [| discriminate].
  destruct (DesEncrypt _ _) as [hexStr [err |]] eqn:Henc; cbn [fst snd] in Hlogin;
    [discriminate |].
  rewrite persist_run in Hlogin. cbv zeta in Hlogin.
  cbn [access storage httpClient ticks trace authorization sessionID encodedPin expiration]
    in Hlogin.
  repeat match type of Hlogin with
         | context [SetStringFor ?key ?v ?ttl ?s0] =>
             destruct (SetStringFor key v ttl s0) as [[? |] ?]; cbn [fst snd] in Hlogin;
             try discriminate
         | context [SetIntFor ?key ?v ?ttl ?s0] =>
             destruct (SetIntFor key v ttl s0) as [[? |] ?]; cbn [fst snd] in Hlogin;
             try discriminate
         end.
  injection Hlogin as <-. right.
  cbn [trace access ticks Nat.pred]. rewrite Htr.
  eexists reads, _, _, resp, _. split; [rewrite <- !app_assoc; reflexivity |].
  split; [exact Hreads |]. split; [repeat constructor |]. split; [reflexivity |].
  split; [exact Hcode |]. rewrite Henc. split; reflexivity.
Qed.

(** the session after a login that called the login endpoint and returned
    nil: it is made of the response and of the clock reading, and the clock
    has been read *)
Lemma login_called_inv (r : Client) (st st' : State S T)
    (url : string) (form : list (string * string)) (resp : Response) :
  login r st = Ok None st' ->
  EPostForm url form (inr resp) ∈ added st st' ->
  access st'
  = {| authorization := Header_Get (RespHeader resp) "Authorization";
       sessionID := Header_Get (RespHeader resp) "X-SessionID";
       expiration := time.Add (wall (Nat.pred (ticks st'))) (SessionLength (account r));
       encodedPin :=
         (DesEncrypt (Pin (account r)) (Header_Get (RespHeader resp) "X-SessionID")).1 |}
  /\ ticks st' = Datatypes.S (Nat.pred (ticks st')).
Proof.
  intros Hlogin Hin.
  destruct (hydrate_effect (makeAuthCacheKeys r) st)
    as (sth & reads & Hh & Htr & Hreads & _).
  rewrite (login_run r st _ Hh) in Hlogin.
  assert (Hnot : EPostForm url form (inr resp) ∉ reads).
  { intros Hr. apply (proj1 (Forall_forall _ _) Hreads) in Hr. discriminate. }
  destruct (hasExpired (access sth) sth) as [[|] stc | stc | stc] eqn:Hexp;
    try discriminate.
  2: { injection Hlogin as <-.
       apply hasExpired_Ok_false in Hexp as (_ & _ & _ & _ & _ & ->).
       rewrite (added_app st _ reads) in Hin by exact Htr. contradiction. }
  destruct (hasExpired_returns (access sth) sth) as (b & n & Hexp' & _).
  rewrite Hexp in Hexp'. injection Hexp' as <- ->.
  rewrite authenticate_run in Hlogin. cbv zeta in Hlogin.
  cbn [access storage httpClient ticks trace] in Hlogin.
  destruct (PostForm _ _ (httpClient sth)) as [[err | resp'] t'] eqn:Hpost;
    cbn [fst snd] in Hlogin; [discriminate |].
  destruct (RespBody resp') as [[bodyString [err |]] |]; try discriminate.
  destruct (successCode (StatusCode resp')) eqn:Hcode; cbn [negb] in Hlogin;
    [| discriminate].
  destruct (DesEncrypt _ _) as [hexStr [err |]] eqn:Henc; cbn [fst snd] in Hlogin;
    [discriminate |].
  rewrite persist_run in Hlogin. cbv zeta in Hlogin.
  cbn [access storage httpClient ticks trace authorization sessionID encodedPin expiration]
    in Hlogin.
  repeat match type of Hlogin with
         | context [SetStringFor ?key ?v ?ttl ?s0] =>
             destruct (SetStringFor key v ttl s0) as [[? |] ?]; cbn [fst snd] in Hlogin;
             try discriminate
         | context [SetIntFor ?key ?v ?ttl ?s0] =>
             destruct (SetIntFor key v ttl s0) as [[? |] ?]; cbn [fst snd] in Hlogin;
             try discriminate
         end.
  injection Hlogin as <-.
  erewrite added_app in Hin;
    [| cbn [trace]; rewrite Htr, <- !app_assoc; reflexivity].
  apply elem_of_app in Hin as [Hin | Hin]; [contradiction |].
  apply elem_of_app in Hin as [Hin | Hin].
  2: { repeat (apply elem_of_cons in Hin as [Hin | Hin]; [discriminate |]).
       now apply elem_of_nil in Hin. }
  apply list_elem_of_singleton in Hin. injection Hin as _ _ <-.
  cbn [access ticks Nat.pred]. rewrite Henc. split; reflexivity.
Qed.

(** the call to the login endpoint is the one event that [authenticate]
    adds *)
Lemma authenticate_trace (r : Client) (st : State S T) :
  let loginURL := baseURL r +:+ baseLoginUrl in
  let payload :=
    [("userName", UserName (account r)); ("password", Password (account r));
     ("sessionLength", pretty (time.Seconds (SessionLength (account r))))] in
  trace (final (authenticate r st))
  = trace st ++ [EPostForm loginURL payload (PostForm loginURL payload (httpClient st)).1].
Proof.
  cbv zeta. rewrite authenticate_run. cbv zeta.
  destruct (PostForm _ _ (httpClient st)) as [[err | res] t']; cbn [fst snd];
    [reflexivity |].
  destruct (RespBody res) as [[bodyString [err |]] |]; try reflexivity.
  destruct (negb (successCode (StatusCode res))); [reflexivity |].
  destruct (DesEncrypt _ _) as [hexStr [err |]]; reflexivity.
Qed.

(** X10: [login] does not look at the token.  When the login endpoint has
    answered with a success status and a body that can be read, the cipher
    takes the session id of the answer as its key, and the storage takes the
    writes, [login] returns nil whatever the header Authorization holds: its
    value, the empty string when the header is missing, becomes the token of
    the session and is written to the storage.  With an empty token the
    session counts as expired at once. *)
Theorem login_does_not_check_the_token (r : Client) (st : State S T)
    (url : string) (form : list (string * string)) (resp : Response) (body : string) :
  EPostForm url form (inr resp) ∈ added st (final (login r st)) ->
  RespBody resp = Some (body, None) ->
  successCode (StatusCode resp) = true ->
  (DesEncrypt (Pin (account r)) (Header_Get (RespHeader resp) "X-SessionID")).2 = None ->
  (forall key val exp s, (SetStringFor key val exp s).1 = None) ->
  (forall key val exp s, (SetIntFor key val exp s).1 = None) ->
  login r st = Ok None (final (login r st))
  /\ authorization (access (final (login r st)))
     = Header_Get (RespHeader resp) "Authorization"
  /\ ESetStringFor (authorizationKey (makeAuthCacheKeys r))
       (Header_Get (RespHeader resp) "Authorization") (SessionLength (account r)) None
     ∈ added st (final (login r st))
  /\ (Header_Get (RespHeader resp) "Authorization" = "" ->
      hasSessionExpired (final (login r st)) = Ok true (final (login r st))).
Proof.
  intros Hin Hbody Hcode Henc HsetS HsetI.
  destruct (hydrate_effect (makeAuthCacheKeys r) st)
    as (sth & reads & Hh & Htr & Hreads & _).
  assert (Hnot : EPostForm url form (inr resp) ∉ reads).
  { intros Hr. apply (proj1 (Forall_forall _ _) Hreads) in Hr. discriminate Hr. }
  rewrite (login_run r st _ Hh) in Hin |- *.
  destruct (hasExpired_returns (access sth) sth) as (b & n & Hexp & _).
  rewrite Hexp in Hin |- *. destruct b.
  2: { exfalso. cbn [final] in Hin.
       rewrite (added_app st _ reads) in Hin by exact Htr. contradiction. }
  match type of Hin with
  | context [authenticate r ?st0] => set (stc := st0) in *
  end.
  assert (Hpost : exists t', PostForm (baseURL r +:+ baseLoginUrl)
                               [("userName", UserName (account r));
                                ("password", Password (account r));
                                ("sessionLength",
                                 pretty (time.Seconds (SessionLength (account r))))]
                               (httpClient stc) = (inr resp, t')).
  { pose proof (authenticate_trace r stc) as Hta. cbv zeta in Hta.
    match type of Hta with
    | _ = _ ++ [?call] => assert (Hcall : EPostForm url form (inr resp) = call)
    end.
    { destruct (authenticate r stc) as [[e |] sta | sta | sta] eqn:Hauth;
        cbn [final] in Hin, Hta.
      2: { destruct (persist_effect r (makeAuthCacheKeys r) sta)
             as (res' & st'' & writes & Hp & Htp & _ & _ & _ & _ & Hshape).
           rewrite Hp in Hin. cbn [final] in Hin.
           erewrite added_app in Hin;
             [| rewrite Htp, Hta; subst stc; cbn [trace]; rewrite Htr, <- !app_assoc;
                reflexivity].
           apply elem_of_app in Hin as [Hin | Hin]; [contradiction |].
           apply elem_of_app in Hin as [Hin | Hin];
             [now apply list_elem_of_singleton in Hin |].
           exfalso. cbv zeta in Hshape.
           destruct Hshape
             as [(e & -> & _) | [(e & -> & _) | [(e & -> & _) | [(e & -> & _) | [-> _]]]]];
             repeat (apply elem_of_cons in Hin as [Hin | Hin]; [discriminate Hin |]);
             now apply elem_of_nil in Hin. }
      all: erewrite added_app in Hin;
        [| rewrite Hta; subst stc; cbn [trace]; rewrite Htr, <- !app_assoc; reflexivity];
        (apply elem_of_app in Hin as [Hin | Hin]; [contradiction |]);
        now apply list_elem_of_singleton in Hin. }
    injection Hcall as _ _ Hres. subst stc. cbn [httpClient].
    destruct (PostForm _ _ (httpClient sth)) as [post0 t'].
    cbn [fst] in Hres. subst post0. exists t'. reflexivity. }
  destruct Hpost as (t' & Hpost). clear Hin.
  rewrite authenticate_run. cbv zeta. rewrite Hpost. cbn [fst snd].
  rewrite Hbody, Hcode. cbn [negb].
  destruct (DesEncrypt _ _) as [hexStr err]. cbn [snd] in Henc. subst err. cbn [fst snd].
  rewrite persist_run. cbv zeta. rewrite !HsetS, HsetI.
  cbn [final access trace authorization sessionID encodedPin expiration fmap option_fmap
       option_map].
  split; [reflexivity |]. split; [reflexivity |]. split.
  - erewrite added_app;
      [| subst stc; cbn [trace]; rewrite Htr, <- !app_assoc; reflexivity].
    apply elem_of_app. right. apply elem_of_cons. right. apply elem_of_cons. now left.
  - intros Hempty. unfold hasSessionExpired, bind, get_access, hasExpired.
    cbn [access authorization sessionID encodedPin expiration].
    destruct (time.IsZero _); [reflexivity |].
    rewrite Hempty. cbn [is_empty]. rewrite ?orb_true_r. reflexivity.
Qed.

(** X22: [NewClient] does not look at the session length.  When it is zero or
    less, the session that a login call leaves has its expiry at or before
    the instant of the login: at the next reading of a clock that has moved
    on, it counts as expired. *)
Theorem session_length_must_be_positive (r : Client) (st st' : State S T)
    (url : string) (form : list (string * string)) (resp : Response) :
  SessionLength (account r) <= 0 ->
  wall (Nat.pred (ticks st')) < wall (ticks st') ->
  login r st = Ok None st' ->
  EPostForm url form (inr resp) ∈ added st st' ->
  exists st'', hasSessionExpired st' = Ok true st''.
Proof.
  intros Hlength Hclock Hlogin Hin.
  destruct (login_called_inv r st st' url form resp Hlogin Hin) as [Hacc _].
  destruct (hasExpired_returns (access st') st') as ([|] & n & Hexp & _).
  { eexists. unfold hasSessionExpired, bind, get_access. exact Hexp. }
  apply hasExpired_Ok_false in Hexp as (_ & _ & _ & _ & Hnow & _).
  rewrite Hacc in Hnow. cbn [expiration] in Hnow. unfold time.Add in Hnow. lia.
Qed.

(** X11: Where an error of [login] comes from.  [login] fails after its call to
    the login endpoint, and for one of five reasons: the transport failed,
    the body of the response could not be read, the status was not a success
    (the error is [ErrLoginFailed] with the body), the cipher failed, or a
    write to the storage failed.  Only in the last case has anything been
    written.  In the first three the session in memory is the one hydration
    left; when the cipher fails the token and the session id are already
    those of the response, with the expiry still the old one; when a write
    fails the session in memory is the new one, whole. *)
Theorem login_error_provenance (r : Client) (st st' : State S T) (e : error) :
  login r st = Ok (Some e) st' ->
  exists sth reads url form post writes,
    hydrate (makeAuthCacheKeys r) st = Ok tt sth
    /\ trace st' = trace st ++ reads ++ EPostForm url form post :: writes
    /\ Forall (fun ev => is_read ev = true) reads
    /\ ((exists msg, post = inl msg /\ e = Foreign msg /\ writes = []
                     /\ access st' = access sth)
        \/ (exists resp body msg,
               post = inr resp /\ RespBody resp = Some (body, Some msg)
               /\ e = Foreign msg /\ writes = [] /\ access st' = access sth)
        \/ (exists resp body,
               post = inr resp /\ RespBody resp = Some (body, None)
               /\ successCode (StatusCode resp) = false
               /\ e = ErrLoginFailed body /\ writes = [] /\ access st' = access sth)
        \/ (exists resp hexStr msg,
               post = inr resp /\ successCode (StatusCode resp) = true
               /\ DesEncrypt (Pin (account r)) (Header_Get (RespHeader resp) "X-SessionID")
                  = (hexStr, Some msg)
               /\ e = Foreign msg /\ writes = []
               /\ access st'
                  = {| authorization := Header_Get (RespHeader resp) "Authorization";
                       sessionID := Header_Get (RespHeader resp) "X-SessionID";
                       expiration := expiration (access sth);
                       encodedPin := hexStr |})
        \/ (exists resp msg,
               post = inr resp /\ successCode (StatusCode resp) = true
               /\ e = Foreign msg
               /\ Forall (fun ev => is_write ev = true) writes
               /\ write_error <$> last writes = Some (Some msg)
               /\ access st'
                  = {| authorization := Header_Get (RespHeader resp) "Authorization";
                       sessionID := Header_Get (RespHeader resp) "X-SessionID";
                       expiration := time.Add (wall (Nat.pred (ticks st')))
                                       (SessionLength (account r));
                       encodedPin :=
                         (DesEncrypt (Pin (account r))
                            (Header_Get (RespHeader resp) "X-SessionID")).1 |})).
Proof.
  intros Hlogin.
  destruct (hydrate_effect (makeAuthCacheKeys r) st)
    as (sth & reads & Hh & Htr & Hreads & _).
  rewrite (login_run r st _ Hh) in Hlogin.
  destruct (hasExpired_returns (access sth) sth) as (b & n & Hexp & _).
  rewrite Hexp in Hlogin. destruct b; [| discriminate].
  rewrite authenticate_run in Hlogin. cbv zeta in Hlogin.
  cbn [access storage httpClient ticks trace] in Hlogin.
  exists sth, reads. do 2 eexists.
  destruct (PostForm _ _ (httpClient sth)) as [[err | resp] t'] eqn:Hpost;
    cbn [fst snd] in Hlogin.
  { injection Hlogin as <- <-. eexists (inl err), []. cbn [trace access].
    split; [exact Hh |]. split; [rewrite Htr, <- app_assoc; reflexivity |].
    split; [exact Hreads |]. left. eauto. }
  exists (inr resp).
  destruct (RespBody resp) as [[bodyString [err |]] |] eqn:Hbody; try discriminate.
  { injection Hlogin as <- <-. exists []. cbn [trace access].
    split; [exact Hh |]. split; [rewrite Htr, <- app_assoc; reflexivity |].
    split; [exact Hreads |]. right. left. eauto 10. }
  destruct (successCode (StatusCode resp)) eqn:Hcode; cbn [negb] in Hlogin.
  2: { injection Hlogin as <- <-. exists []. cbn [trace access].
       split; [exact Hh |]. split; [rewrite Htr, <- app_assoc; reflexivity |].
       split; [exact Hreads |]. do 2 right. left. eauto 10. }
  destruct (DesEncrypt _ _) as [hexStr [err |]] eqn:Henc; cbn [fst snd] in Hlogin.
  { injection Hlogin as <- <-. exists []. cbn [trace access].
    split; [exact Hh |]. split; [rewrite Htr, <- app_assoc; reflexivity |].
    split; [exact Hreads |]. do 3 right. left. eauto 10. }
  rewrite persist_run in Hlogin. cbv zeta in Hlogin.
  cbn [access storage httpClient ticks trace authorization sessionID encodedPin expiration]
    in Hlogin.
  repeat match type of Hlogin with
         | context [SetStringFor ?key ?v ?ttl ?s0] =>
             destruct (SetStringFor key v ttl s0) as [[? |] ?]; cbn [fst snd] in Hlogin
         | context [SetIntFor ?key ?v ?ttl ?s0] =>
             destruct (SetIntFor key v ttl s0) as [[? |] ?]; cbn [fst snd] in Hlogin
         end;
    try discriminate; injection Hlogin as <- <-; cbn [trace];
    (eexists; split; [exact Hh |]; split;
     [rewrite Htr, <- !app_assoc; reflexivity |]; split; [exact Hreads |];
     do 4 right; exists resp; eexists; split; [reflexivity |]; split; [exact Hcode |];
     split; [reflexivity |]; split; [repeat constructor |]; split; [reflexivity |];
     cbn [access ticks Nat.pred]; rewrite Henc; reflexivity).
Qed.
End LoginOutcomes.

(** ** What a successful operation has received *)

Section Successes.
Context {S T : Type} {store : Storage S} {transport : HttpClient T} {platform : Platform}.

(** what [doRequest] returned without an error is the status and the body of
    a response that could be read *)
Lemma doRequest_Ok_inv (req : Request) (st st' : State S T) (code : Z)
    (data : option string) :
  doRequest req st = Ok (code, data, None) st' ->
  exists resp,
    trace st' = trace st ++ [EDo req (inr resp)]
    /\ code = StatusCode resp
    /\ (RespBody resp = None /\ data = None
        \/ exists body, RespBody resp = Some (body, None) /\ data = Some body).
Proof.
  rewrite doRequest_run. cbv zeta.
  destruct (Do req (httpClient st)) as [[err | resp] t']; cbn [fst snd]; [discriminate |].
  destruct (RespBody resp) as [[body [err |]] |] eqn:Hbody; cbn; try discriminate.
  - intros [= <- <- <-]. exists resp. cbn [trace]. rewrite Hbody. eauto 10.
  - intros [= <- <- <-]. exists resp. cbn [trace]. rewrite Hbody. eauto 10.
Qed.

(** what a call that returned has added to the trace comes after what was
    there *)
Lemma grown {A : Type} {P : Event -> bool} {m : M (State S T) A} {st st' : State S T}
    {a : A} :
  adds P m -> m st = Ok a st' -> exists evs, trace st' = trace st ++ evs.
Proof.
  intros Hadds Hrun. destruct (Hadds st) as (evs & Htr & _).
  rewrite Hrun in Htr. exists evs. exact Htr.
Qed.

(** where an operation stands when it sends its request: past ensuring
    authentication, making the URL and building the request *)
Lemma grown_to_request (r : Client) (path : string) (q : list (gmap string string))
    (method : string) (body : option string) (st st1 st2 st3 : State S T)
    (url : string) (request : Request) :
  ensureUserIsAuthenticated r st = Ok None st1 ->
  generateUrl r path q st1 = Ok url st2 ->
  newRequest method url body st2 = Ok (inr request) st3 ->
  exists evs, trace st3 = trace st ++ evs.
Proof.
  intros Hens Hurl Hreq.
  destruct (grown (adds_ensure_any r) Hens) as (e1 & T1).
  destruct (grown (adds_generateUrl any_event r path q) Hurl) as (e2 & T2).
  destruct (grown (adds_newRequest any_event method url body) Hreq) as (e3 & T3).
  exists (e1 ++ e2 ++ e3). rewrite T3, T2, T1, <- !app_assoc. reflexivity.
Qed.

(** and where it stands when it starts again *)
Lemma grown_to_reset (req : Request) (st st3 st4 st5 : State S T)
    (res : Z * option string * option error) (evs : list Event) :
  trace st3 = trace st ++ evs ->
  doRequest req st3 = Ok res st4 ->
  access_reset st4 = Ok tt st5 ->
  exists evs', trace st5 = trace st ++ evs'.
Proof.
  intros Htr Hdo Hreset.
  destruct (grown (adds_doRequest req) Hdo) as (e1 & T1).
  destruct (grown (adds_access_reset any_event) Hreset) as (e2 & T2).
  exists (evs ++ e1 ++ e2). rewrite T2, T1, Htr, <- !app_assoc. reflexivity.
Qed.

(** a balance that [BalanceEnquiry] returns is decoded from the body of the
    last response, which had a success status *)
Lemma BalanceEnquiry_success (r : Client) (fuel : nat) :
  forall (st st' : State S T) (b : BalanceEnquiryResponse),
    BalanceEnquiry fuel r st = Ok (inr b) st' ->
    exists evs req resp,
      trace st' = trace st ++ evs ++ [EDo req (inr resp)]
      /\ successCode (StatusCode resp) = true
      /\ NewBalanceResponse (bytes (fst <$> RespBody resp)) = Some (inr b).
Proof.
  induction fuel as [| fuel IH]; intros st st' b Hop; [discriminate Hop |].
  cbn [BalanceEnquiry] in Hop.
  apply bind_Ok in Hop as ([e |] & st1 & Hens & Hop); [discriminate Hop |].
  apply bind_Ok in Hop as (url & st2 & Hurl & Hop).
  apply bind_Ok in Hop as ([e | request] & st3 & Hreq & Hop); [discriminate Hop |].
  apply bind_Ok in Hop as ([[code data] [e |]] & st4 & Hdo & Hop); [discriminate Hop |].
  destruct (grown_to_request _ _ _ _ _ _ _ _ _ _ _ Hens Hurl Hreq) as (evs & Hevs).
  destruct (code =? StatusForbidden).
  { apply bind_Ok in Hop as ([] & st5 & Hreset & Hop).
    destruct (grown_to_reset _ _ _ _ _ _ _ Hevs Hdo Hreset) as (evs' & Hevs').
    destruct (IH _ _ _ Hop) as (evs'' & req & resp & Htr & Hrest).
    exists (evs' ++ evs''), req, resp. split; [| exact Hrest].
    rewrite Htr, Hevs', <- !app_assoc. reflexivity. }
  destruct (successCode code) eqn:Hcode; cbn [negb] in Hop; [| discriminate Hop].
  destruct (NewBalanceResponse (bytes data)) as [[e | resp] |] eqn:Hdec;
    try discriminate Hop.
  injection Hop as <- <-.
  apply doRequest_Ok_inv in Hdo as (resp' & Htr & -> & Hbody).
  exists evs, request, resp'. split; [rewrite Htr, Hevs, <- app_assoc; reflexivity |].
  split; [exact Hcode |].
  destruct Hbody as [[-> ->] | (body & -> & ->)]; exact Hdec.
Qed.

(** likewise for the transactions that [FetchTransaction] returns; the
    response had a body *)
Lemma FetchTransaction_success (r : Client) (options : option FetchTransactionOption)
    (fuel : nat) :
  forall (st st' : State S T) (txs : list WalletTransaction),
    FetchTransaction fuel r options st = Ok (inr txs) st' ->
    exists evs req resp body,
      trace st' = trace st ++ evs ++ [EDo req (inr resp)]
      /\ successCode (StatusCode resp) = true
      /\ RespBody resp = Some (body, None)
      /\ NewWalletTransactions body = inr txs.
Proof.
  induction fuel as [| fuel IH]; intros st st' txs Hop; [discriminate Hop |].
  cbn [FetchTransaction] in Hop.
  apply bind_Ok in Hop as ([e |] & st1 & Hens & Hop); [discriminate Hop |].
  cbv zeta in Hop.
  apply bind_Ok in Hop as (url & st2 & Hurl & Hop).
  apply bind_Ok in Hop as ([e | request] & st3 & Hreq & Hop); [discriminate Hop |].
  apply bind_Ok in Hop as ([[code data] [e |]] & st4 & Hdo & Hop); [discriminate Hop |].
  destruct (grown_to_request _ _ _ _ _ _ _ _ _ _ _ Hens Hurl Hreq) as (evs & Hevs).
  destruct data as [data |]; [| discriminate Hop].
  destruct (code =? StatusForbidden).
  { apply bind_Ok in Hop as ([] & st5 & Hreset & Hop).
    destruct (grown_to_reset _ _ _ _ _ _ _ Hevs Hdo Hreset) as (evs' & Hevs').
    destruct (IH _ _ _ Hop) as (evs'' & req & resp & body & Htr & Hrest).
    exists (evs' ++ evs''), req, resp, body. split; [| exact Hrest].
    rewrite Htr, Hevs', <- !app_assoc. reflexivity. }
  destruct (successCode code) eqn:Hcode; cbn [negb] in Hop; [| discriminate Hop].
  change (bytes (Some data)) with data in Hop.
  destruct (NewWalletTransactions data) as [e | res] eqn:Hdec; [discriminate Hop |].
  injection Hop as <- <-.
  apply doRequest_Ok_inv in Hdo as (resp' & Htr & -> & Hbody).
  destruct Hbody as [[_ [=]] | (body & Hbody & [= ->])].
  exists evs, request, resp', body.
  split; [rewrite Htr, Hevs, <- app_assoc; reflexivity |]. repeat split; assumption.
Qed.

(** the response that [GenerateUSSD] returns is the decoded body of the
    response, which had a success status, with the caller's reference *)
Lemma GenerateUSSD_success (r : Client) (reference : string) (amount : float64)
    (bankCode : string) (st st' : State S T) (u : UssdTransactionResponse) :
  GenerateUSSD r reference amount bankCode st = Ok (inr u) st' ->
  exists evs req resp body u0,
    trace st' = trace st ++ evs ++ [EDo req (inr resp)]
    /\ successCode (StatusCode resp) = true
    /\ RespBody resp = Some (body, None)
    /\ json_Unmarshal_Ussd body = inr u0
    /\ u = set_UserDefinedReference reference u0.
Proof.
  intros Hop. unfold GenerateUSSD in Hop.
  rewrite IsBankSupportedOnUSSD_true in Hop. cbn [negb] in Hop.
  apply bind_Ok in Hop as ([e |] & st1 & Hens & Hop); [discriminate Hop |].
  destruct (fromMapToReader _ _ _) as [e | payloadReader]; [discriminate Hop |].
  apply bind_Ok in Hop as (url & st2 & Hurl & Hop).
  apply bind_Ok in Hop as ([e | request] & st3 & Hreq & Hop); [discriminate Hop |].
  apply bind_Ok in Hop as ([[code data] [e |]] & st4 & Hdo & Hop); [discriminate Hop |].
  destruct (grown_to_request _ _ _ _ _ _ _ _ _ _ _ Hens Hurl Hreq) as (evs & Hevs).
  destruct data as [data |]; [| discriminate Hop].
  destruct (successCode code) eqn:Hcode; cbn [negb] in Hop; [| discriminate Hop].
  unfold NewUssdTransactionResponse in Hop. change (bytes (Some data)) with data in Hop.
  destruct (json_Unmarshal_Ussd data) as [e | u0] eqn:Hdec; [discriminate Hop |].
  injection Hop as <- <-.
  apply doRequest_Ok_inv in Hdo as (resp' & Htr & -> & Hbody).
  destruct Hbody as [[_ [=]] | (body & Hbody & [= ->])].
  exists evs, request, resp', body, u0.
  split; [rewrite Htr, Hevs, <- app_assoc; reflexivity |]. repeat split; assumption.
Qed.

(** likewise for [FetchUSSDTransaction] *)
Lemma FetchUSSDTransaction_success (r : Client) (reference : string)
    (st st' : State S T) (u : UssdTransactionResponse) :
  FetchUSSDTransaction r reference st = Ok (inr u) st' ->
  exists evs req resp body u0,
    trace st' = trace st ++ evs ++ [EDo req (inr resp)]
    /\ successCode (StatusCode resp) = true
    /\ RespBody resp = Some (body, None)
    /\ json_Unmarshal_Ussd body = inr u0
    /\ u = set_UserDefinedReference reference u0.
Proof.
  intros Hop. unfold FetchUSSDTransaction in Hop.
  apply bind_Ok in Hop as ([e |] & st1 & Hens & Hop); [discriminate Hop |].
  apply bind_Ok in Hop as (url & st2 & Hurl & Hop).
  apply bind_Ok in Hop as ([e | request] & st3 & Hreq & Hop); [discriminate Hop |].
  apply bind_Ok in Hop as ([[code data] [e |]] & st4 & Hdo & Hop); [discriminate Hop |].
  destruct (grown_to_request _ _ _ _ _ _ _ _ _ _ _ Hens Hurl Hreq) as (evs & Hevs).
  destruct data as [data |]; [| discriminate Hop].
  destruct (successCode code) eqn:Hcode; cbn [negb] in Hop; [| discriminate Hop].
  unfold NewUssdTransactionResponse in Hop. change (bytes (Some data)) with data in Hop.
  destruct (json_Unmarshal_Ussd data) as [e | u0] eqn:Hdec; [discriminate Hop |].
  injection Hop as <- <-.
  apply doRequest_Ok_inv in Hdo as (resp' & Htr & -> & Hbody).
  destruct Hbody as [[_ [=]] | (body & Hbody & [= ->])].
  exists evs, request, resp', body, u0.
  split; [rewrite Htr, Hevs, <- app_assoc; reflexivity |]. repeat split; assumption.
Qed.

(** X12: An operation that returns without an error has sent a request, and the
    last thing it did, the last event it added to the trace, was to receive
    an answer with the status 200, 201 or 202: no operation makes up a
    result. *)
Theorem success_needs_success_status (r : Client) (op : operation) (fuel : nat)
    (st st' : State S T) :
  run fuel r op st = Ok None st' ->
  exists evs req resp,
    trace st' = trace st ++ evs ++ [EDo req (inr resp)]
    /\ StatusCode resp ∈ [StatusOK; StatusCreated; StatusAccepted].
Proof.
  intros Hrun.
  assert (Hgoal : exists evs req resp,
             trace st' = trace st ++ evs ++ [EDo req (inr resp)]
             /\ successCode (StatusCode resp) = true).
  { destruct op as [| reference amount bankCode | reference | options]; cbn [run] in Hrun;
      apply bind_Ok in Hrun as (res & st1 & Hop & Hret); injection Hret as Hres <-;
      (destruct res as [e | x]; [discriminate Hres |]).
    - apply BalanceEnquiry_success in Hop as (evs & req & resp & ? & ? & _). eauto.
    - apply GenerateUSSD_success in Hop as (evs & req & resp & ? & ? & ? & ? & _). eauto.
    - apply FetchUSSDTransaction_success in Hop as (evs & req & resp & ? & ? & ? & ? & _).
      eauto.
    - apply FetchTransaction_success in Hop as (evs & req & resp & ? & ? & ? & _). eauto. }
  destruct Hgoal as (evs & req & resp & Htr & Hcode). exists evs, req, resp.
  split; [exact Htr |]. unfold successCode in Hcode.
  rewrite !orb_true_iff, !Z.eqb_eq in Hcode. rewrite !elem_of_cons.
  destruct Hcode as [[-> | ->] | ->]; auto.
Qed.

(** X13: The response of [GenerateUSSD] and of [FetchUSSDTransaction] carries the
    reference that the caller passed, whatever the server sent in that field;
    the other fields are the ones decoded from the body of the answer. *)
Theorem USSD_result_has_callers_reference (r : Client) (reference : string)
    (amount : float64) (bankCode : string) (st st' : State S T)
    (u : UssdTransactionResponse) :
  GenerateUSSD r reference amount bankCode st = Ok (inr u) st'
  \/ FetchUSSDTransaction r reference st = Ok (inr u) st' ->
  UserDefinedReference u = reference
  /\ exists tr req resp body u0,
       trace st' = tr ++ [EDo req (inr resp)]
       /\ RespBody resp = Some (body, None)
       /\ json_Unmarshal_Ussd body = inr u0
       /\ u = set_UserDefinedReference reference u0.
Proof.
  intros [Hop | Hop];
    [apply GenerateUSSD_success in Hop | apply FetchUSSDTransaction_success in Hop];
    destruct Hop as (evs & req & resp & body & u0 & Htr & _ & Hbody & Hdec & ->);
    (split; [reflexivity |]); exists (trace st ++ evs), req, resp, body, u0;
    rewrite <- app_assoc; repeat split; assumption.
Qed.
End Successes.

(** ** Query parameters of [FetchTransaction] *)

(** X14: The map that [ToMap] makes of the options has at most the keys trantype,
    after, start_date and end_date, one for each field that is set: the
    transaction type as it is, the numbers in decimal.  Two different
    options never give the same map. *)
Theorem ToMap_keeps_the_options (o : FetchTransactionOption) :
  ToMap o !! "trantype" = TranType o
  /\ ToMap o !! "after" = pretty <$> AfterID o
  /\ ToMap o !! "start_date" = pretty <$> StartDate o
  /\ ToMap o !! "end_date" = pretty <$> EndDate o
  /\ (forall key, key ∉ ["trantype"; "after"; "start_date"; "end_date"] ->
                  ToMap o !! key = None)
  /\ (forall o', ToMap o' = ToMap o -> o' = o).
Proof.
  assert (Hlookup : forall o : FetchTransactionOption,
             ToMap o !! "trantype" = TranType o
             /\ ToMap o !! "after" = pretty <$> AfterID o
             /\ ToMap o !! "start_date" = pretty <$> StartDate o
             /\ ToMap o !! "end_date" = pretty <$> EndDate o).
  { intros [[t |] [a |] [s |] [e |]]; unfold ToMap;
      cbn [TranType AfterID StartDate EndDate fmap option_fmap option_map];
      repeat split;
      rewrite ?lookup_insert_ne by discriminate;
      rewrite ?lookup_insert_eq, ?lookup_empty; reflexivity. }
  destruct (Hlookup o) as (Ht & Ha & Hs & He).
  split; [exact Ht |]. split; [exact Ha |]. split; [exact Hs |]. split; [exact He |].
  split.
  - intros key Hkey. rewrite !not_elem_of_cons in Hkey.
    destruct Hkey as (H1 & H2 & H3 & H4 & _).
    destruct o as [[t |] [a |] [s |] [e |]]; unfold ToMap;
      cbn [TranType AfterID StartDate EndDate];
      rewrite ?lookup_insert_ne by congruence; apply lookup_empty.
  - intros o' Heq. destruct (Hlookup o') as (Ht' & Ha' & Hs' & He').
    rewrite Heq in Ht', Ha', Hs', He'.
    rewrite Ht in Ht'. rewrite Ha in Ha'. rewrite Hs in Hs'. rewrite He in He'.
    apply (inj (fmap pretty)) in Ha', Hs', He'.
    destruct o, o'. cbn in *. congruence.
Qed.

Section OptionsAndConstruction.
Context {S T : Type} {store : Storage S} {transport : HttpClient T} {platform : Platform}.

Lemma bind_ext {A B : Type} (m : M (State S T) A) (f g : A -> M (State S T) B)
    (st : State S T) :
  (forall a st1, f a st1 = g a st1) -> bind m f st = bind m g st.
Proof. intros Hfg. unfold bind. destruct (m st); [apply Hfg | reflexivity ..]. Qed.

(** X15: [FetchTransaction] with options of which no field is set does what it
    does without options. *)
Theorem FetchTransaction_empty_options (fuel : nat) (r : Client) (st : State S T) :
  FetchTransaction fuel r (Some (mkFetchTransactionOption None None None None)) st
  = FetchTransaction fuel r None st.
Proof.
  revert st. induction fuel as [| fuel IH]; intros st; [reflexivity |].
  cbn [FetchTransaction]. apply bind_ext. intros [e |] st1; [reflexivity |]. cbv zeta.
  change (ToMap (mkFetchTransactionOption None None None None)) with (∅ : gmap string string).
  apply bind_ext. intros url st2. apply bind_ext. intros [e | request] st3; [reflexivity |].
  apply bind_ext. intros [[code data] [e |]] st4; [reflexivity |].
  destruct data as [data |]; [| reflexivity].
  destruct (code =? StatusForbidden); [| reflexivity].
  apply bind_ext. intros _ st5. apply IH.
Qed.

(** X16: The first operation of a new client begins with the four reads from the
    storage: a client fresh from [NewClient] holds no session, so it consults
    the storage before it calls the login endpoint or sends a request. *)
Theorem new_client_reads_storage_first (a : Account) (baseUrl : string) (r : Client)
    (op : operation) (fuel : nat) (st st' : State S T) :
  NewClient (Some a) baseUrl st = Ok (inr r) st' ->
  let k := makeAuthCacheKeys r in
  exists v1 e1 v2 e2 v3 e3 v4 e4 rest,
    trace (final (run (Datatypes.S fuel) r op st'))
    = trace st ++ [EGetString (authorizationKey k) v1 e1;
                   EGetString (sessionIDKey k) v2 e2;
                   EGetString (encodedPinKey k) v3 e3;
                   EGetInt (expirationKey k) v4 e4] ++ rest.
Proof.
  unfold NewClient.
  destruct (is_empty (Pin a) || is_empty (UserName a) || is_empty (Password a));
    [discriminate |].
  unfold bind, set_access, ret. intros [= <- <-]. cbv zeta.
  set (st0 := mkState _ _ _ _ _).
  assert (Hexp : hasSessionExpired (platform := platform) st0 = Ok true st0) by reflexivity.
  pose proof (run_after_ensure (mkClient a baseUrl) op fuel st0) as Hafter.
  cbv zeta in Hafter. rewrite (ensure_final_expired _ _ _ Hexp) in Hafter.
  destruct (login_reads_first (mkClient a baseUrl) st0)
    as (v1 & e1 & v2 & e2 & v3 & e3 & v4 & e4 & rest & Hl).
  cbv zeta in Hl. rewrite Hl in Hafter. change (trace st0) with (trace st) in Hafter.
  exists v1, e1, v2, e2, v3, e3, v4, e4.
  destruct Hafter as [Ht | (req & resp & rest' & Ht)].
  - exists rest. exact Ht.
  - exists (rest ++ EDo req resp :: rest'). rewrite Ht, <- !app_assoc. reflexivity.
Qed.
End OptionsAndConstruction.

(** ** The request of a USSD operation *)

Section UssdRequest.
Context {S T : Type} {store : Storage S} {transport : HttpClient T} {platform : Platform}.

Lemma added_after_request (st ens : State S T) (req : Request) (res : string + Response)
    (t' : T) (evs : list Event) :
  trace ens = trace st ++ evs ->
  added st (after_request ens req res t') = evs ++ [EDo req res].
Proof.
  intros Htr. apply added_app. cbn [after_request trace]. now rewrite Htr, <- app_assoc.
Qed.

(** the only request among quiet events and one request is that request *)
Lemma request_among_quiet (evs : list Event) (req req' : Request)
    (res res' : string + Response) :
  Forall (fun e => quiet e = true) evs ->
  EDo req' res' ∈ evs ++ [EDo req res] -> req' = req.
Proof.
  intros Hq Hin. apply elem_of_app in Hin as [Hin | Hin].
  - apply (proj1 (Forall_forall _ _) Hq) in Hin. discriminate.
  - apply list_elem_of_singleton in Hin. now injection Hin.
Qed.

(** X17: The request that [GenerateUSSD] or [FetchUSSDTransaction] sends carries
    the token and the session id of the session that is in memory when the
    call ends, which is the one that ensuring authentication established. *)
Theorem USSD_request_carries_the_session (r : Client) (reference : string)
    (amount : float64) (bankCode : string) (st : State S T) (req : Request)
    (res : string + Response) :
  let generated := final (GenerateUSSD r reference amount bankCode st) in
  let fetched := final (FetchUSSDTransaction r reference st) in
  (EDo req res ∈ added st generated -> credentials_of req = credentials generated)
  /\ (EDo req res ∈ added st fetched -> credentials_of req = credentials fetched).
Proof.
  cbv zeta. destruct (adds_ensureUserIsAuthenticated r st) as (evs & Htr & Hq).
  assert (Hens : EDo req res ∉ added st (final (ensureUserIsAuthenticated r st))).
  { rewrite (added_app _ _ _ Htr). intros Hin.
    apply (proj1 (Forall_forall _ _) Hq) in Hin. discriminate. }
  split.
  - destruct (GenerateUSSD_round r reference amount bankCode st)
      as [-> | (url & payload & res' & t' & ->)]; [intros Hin; contradiction |].
    rewrite (added_after_request _ _ _ _ _ _ Htr). intros Hin.
    apply (request_among_quiet _ _ _ _ _ Hq) in Hin. now subst req.
  - destruct (FetchUSSDTransaction_round r reference st)
      as [-> | (url & res' & t' & ->)]; [intros Hin; contradiction |].
    rewrite (added_after_request _ _ _ _ _ _ Htr). intros Hin.
    apply (request_among_quiet _ _ _ _ _ Hq) in Hin. now subst req.
Qed.
End UssdRequest.

(** ** Decoding a balance *)

Section BalanceModel.
Context {float64 : Type}.
Variable json_Unmarshal : string -> string + gmap string (models.json float64).
Variable ParseFloat : string -> string + float64.
Variable zero : float64.

Local Abbreviation NewBalanceResponse :=
  (models.NewBalanceResponse json_Unmarshal ParseFloat zero).

(** X18: [NewBalanceResponse] panics exactly when the body decodes to an object in
    which income, or else main, is present without being a string (a number,
    a null, ...), no error having come first.  An object with neither key is
    no error: it is the balance zero. *)
Theorem NewBalanceResponse_panics_on_non_strings (data : string) :
  (NewBalanceResponse data = None <->
   exists m, json_Unmarshal data = inr m
     /\ ((exists v, m !! "income" = Some v /\ forall s, v <> models.JString s)
         \/ ((m !! "income" = None
              \/ exists s f, m !! "income" = Some (models.JString s) /\ ParseFloat s = inr f)
             /\ exists v, m !! "main" = Some v /\ forall s, v <> models.JString s)))
  /\ (forall m, json_Unmarshal data = inr m ->
        m !! "income" = None -> m !! "main" = None ->
        NewBalanceResponse data = Some (inr (models.mkBalanceEnquiryResponse zero zero))).
Proof.
  unfold models.NewBalanceResponse. split.
  2: { intros m -> -> ->. reflexivity. }
  destruct (json_Unmarshal data) as [err | m].
  { split; [discriminate | intros (m & [=] & _)]. }
  split.
  - intros Hpanic. exists m. split; [reflexivity |].
    destruct (m !! "income") as [vi |] eqn:Hi.
    + destruct vi as [| b | f | s | items | fields];
        try (left; eexists; split; [reflexivity | intros ?; discriminate]).
      destruct (ParseFloat s) as [err | f] eqn:Hparse; [discriminate |].
      right. split; [right; eauto |]. cbn [models.Income] in Hpanic.
      destruct (m !! "main") as [vm |]; [| discriminate].
      exists vm. split; [reflexivity |].
      destruct vm as [| b' | f' | s' | items | fields]; try (intros ?; discriminate).
      destruct (ParseFloat s'); discriminate Hpanic.
    + right. split; [now left |].
      destruct (m !! "main") as [vm |]; [| discriminate].
      exists vm. split; [reflexivity |].
      destruct vm as [| b' | f' | s' | items | fields]; try (intros ?; discriminate).
      destruct (ParseFloat s'); discriminate Hpanic.
  - intros (m' & [= <-] & [(v & -> & Hv) | [Hincome (v & -> & Hv)]]).
    + destruct v as [| b | f | s | items | fields]; try reflexivity. now destruct (Hv s).
    + destruct Hincome as [-> | (s & f & -> & ->)];
        (destruct v as [| b | f' | s' | items | fields]; try reflexivity;
         now destruct (Hv s')).
Qed.
End BalanceModel.

(** ** A server that keeps answering 403 *)

Section ForbiddenForever.
Context {S T : Type} {store : Storage S} {transport : HttpClient T} {platform : Platform}.
Variable r : Client.
Variables (tok sid pin : string) (e : Z).
Hypothesis Htok : tok <> "".
Hypothesis Hsid : sid <> "".
Hypothesis Hpin : pin <> "".
Hypothesis He : 0 < e <= MaxInt64.
Hypothesis Hurl : forall u q, url_with_query u q <> None.
Hypothesis Hnew : forall method url, http_NewRequest method url = None.
Hypothesis Hdo :
  forall req t, exists resp t' body,
    Do req t = (inr resp, t')
    /\ StatusCode resp = StatusForbidden /\ RespBody resp = Some (body, None).

Lemma ensure_before_forbidden (st : State S T) :
  live r tok sid pin e st 1 ->
  exists st1,
    ensureUserIsAuthenticated r st = Ok None st1
    /\ storage st1 = storage st /\ (ticks st1 <= ticks st + 2)%nat
    /\ round_trips (trace st1) = round_trips (trace st).
Proof.
  intros [Hserves Hclock].
  destruct (ensure_served r st tok sid pin e Hserves Htok Hsid Hpin He)
    as (st1 & evs & Hens & Hsto & Hticks & Htr & Hevs & _).
  { intros i Hi. apply Hclock. lia. }
  exists st1. repeat split; try assumption.
  rewrite Htr. apply round_trips_quiet.
  eapply Forall_impl; [exact Hevs |]. now intros [].
Qed.

Lemma BalanceEnquiry_forbidden_round (st : State S T) :
  live r tok sid pin e st 1 ->
  exists st2,
    one_round_later st st2
    /\ forall fuel, BalanceEnquiry (Datatypes.S fuel) r st = BalanceEnquiry fuel r st2.
Proof.
  intros Hlive.
  destruct (ensure_before_forbidden st Hlive) as (st1 & Hens & Hsto & Hticks & Hrt).
  destruct (url_with_query (baseURL r +:+ baseBalanceUrl) []) as [url |] eqn:Hu;
    [| now destruct (Hurl _ _ Hu)].
  destruct (Hdo (built_request "GET" url None (access st1)) (httpClient st1))
    as (resp & t' & body & Hd & Hcode & Hbody).
  eexists. split.
  2: { intros fuel.
       exact (BalanceEnquiry_forbidden fuel r st st1 url resp t' Hens Hu (Hnew _ _) Hd
                Hcode (or_intror (ex_intro _ body Hbody))). }
  unfold one_round_later. cbn [storage ticks trace].
  rewrite round_trips_snoc_request, Hrt. repeat split; assumption.
Qed.

Lemma FetchTransaction_forbidden_round (options : option FetchTransactionOption)
    (st : State S T) :
  live r tok sid pin e st 1 ->
  exists st2,
    one_round_later st st2
    /\ forall fuel,
         FetchTransaction (Datatypes.S fuel) r options st
         = FetchTransaction fuel r options st2.
Proof.
  intros Hlive.
  destruct (ensure_before_forbidden st Hlive) as (st1 & Hens & Hsto & Hticks & Hrt).
  destruct (url_with_query (baseURL r +:+ baseTransactionsUrl)
              ([match options with Some o => ToMap o | None => ∅ end] ≫= map_to_list))
    as [url |] eqn:Hu; [| now destruct (Hurl _ _ Hu)].
  destruct (Hdo (built_request "GET" url None (access st1)) (httpClient st1))
    as (resp & t' & body & Hd & Hcode & Hbody).
  eexists. split.
  2: { intros fuel.
       exact (FetchTransaction_forbidden fuel r options st st1 url resp t' body Hens Hu
                (Hnew _ _) Hd Hcode Hbody). }
  unfold one_round_later. cbn [storage ticks trace].
  rewrite round_trips_snoc_request, Hrt. repeat split; assumption.
Qed.

(** the premises hold again one round later, for one round fewer *)
Lemma live_one_round_later (st st2 : State S T) (rounds : nat) :
  live r tok sid pin e st (Datatypes.S rounds) ->
  storage st2 = storage st -> (ticks st2 <= ticks st + 2)%nat ->
  live r tok sid pin e st2 rounds.
Proof.
  intros [Hserves Hclock] Hsto Hticks. split; [now rewrite Hsto |].
  intros i Hi. apply Hclock. lia.
Qed.

Lemma live_for_one_round (st : State S T) (rounds : nat) :
  live r tok sid pin e st (Datatypes.S rounds) -> live r tok sid pin e st 1.
Proof. intros [Hserves Hclock]. split; [exact Hserves |]. intros i Hi. apply Hclock. lia. Qed.

(** X19: Against a server that answers every request with 403, [BalanceEnquiry]
    and [FetchTransaction] do not return while the storage serves a whole
    session (the expiry a positive int64) whose instant the clock has not
    passed: each answer resets the session in memory,
    the same session is read back from the storage, and the operation starts
    again.  Whatever the bound put on the depth of self-invocation, it is
    used up, with one request sent at each level. *)
Theorem forbidden_forever_never_returns (options : option FetchTransactionOption)
    (fuel : nat) (st : State S T) :
  serves (storage st) (makeAuthCacheKeys r) tok sid pin e ->
  (forall i, (i < ticks st + 2 * fuel)%nat -> wall i <= time.FromUnix e) ->
  (exists st',
      BalanceEnquiry fuel r st = Timeout st'
      /\ round_trips (trace st') = (round_trips (trace st) + fuel)%nat)
  /\ (exists st',
         FetchTransaction fuel r options st = Timeout st'
         /\ round_trips (trace st') = (round_trips (trace st) + fuel)%nat).
Proof.
  intros Hserves Hclock.
  assert (Hlive : live r tok sid pin e st fuel) by (split; assumption).
  clear Hserves Hclock. split.
  - revert st Hlive. induction fuel as [| fuel IH]; intros st Hlive.
    { exists st. split; [reflexivity | lia]. }
    destruct (BalanceEnquiry_forbidden_round st (live_for_one_round st fuel Hlive))
      as (st2 & (Hsto & Hticks & Hrt) & Hstep).
    destruct (IH st2 (live_one_round_later st st2 fuel Hlive Hsto Hticks))
      as (st' & Hrun & Hrt').
    exists st'. rewrite Hstep, Hrun, Hrt', Hrt. split; [reflexivity | lia].
  - revert st Hlive. induction fuel as [| fuel IH]; intros st Hlive.
    { exists st. split; [reflexivity | lia]. }
    destruct (FetchTransaction_forbidden_round options st
                (live_for_one_round st fuel Hlive))
      as (st2 & (Hsto & Hticks & Hrt) & Hstep).
    destruct (IH st2 (live_one_round_later st st2 fuel Hlive Hsto Hticks))
      as (st' & Hrun & Hrt').
    exists st'. rewrite Hstep, Hrun, Hrt', Hrt. split; [reflexivity | lia].
Qed.
End ForbiddenForever.

(** ** A base URL that cannot be parsed *)

Section UnparsableBaseUrl.
Context {S T : Type} {store : Storage S} {transport : HttpClient T} {platform : Platform}.

(** X20: [NewClient] accepts any base URL.  When [url.Parse] rejects it, every
    operation for which authentication is ensured panics: [generateUrl] drops
    the error of [url.Parse] and goes on with the nil URL.  Only
    [GenerateUSSD] may return before, with the error of encoding its
    payload. *)
Theorem unparsable_base_url_panics (r : Client) (op : operation) (fuel : nat)
    (st st1 : State S T) :
  (forall path q, url_with_query (baseURL r +:+ path) q = None) ->
  ensureUserIsAuthenticated r st = Ok None st1 ->
  run (Datatypes.S fuel) r op st = Panic st1
  \/ exists reference amount bankCode msg,
       op = OpGenerateUSSD reference amount bankCode
       /\ json_Marshal_payload amount bankCode reference = inl msg
       /\ run (Datatypes.S fuel) r op st = Ok (Some (Foreign msg)) st1.
Proof.
  intros Hparse Hens.
  destruct op as [| reference amount bankCode | reference | options]; cbn [run].
  - left. apply bind_Panic. cbn [BalanceEnquiry].
    rewrite (bind_run _ _ _ _ _ Hens), generateUrl_then, Hparse. reflexivity.
  - destruct (json_Marshal_payload amount bankCode reference) as [msg | payload] eqn:Hm.
    + right. exists reference, amount, bankCode, msg.
      split; [reflexivity |]. split; [exact Hm |].
      assert (Hop : GenerateUSSD r reference amount bankCode st
                    = Ok (inl (Foreign msg)) st1).
      { unfold GenerateUSSD. rewrite IsBankSupportedOnUSSD_true. cbn [negb].
        rewrite (bind_run _ _ _ _ _ Hens). unfold fromMapToReader. now rewrite Hm. }
      now rewrite (bind_run _ _ _ _ _ Hop).
    + left. apply bind_Panic. unfold GenerateUSSD.
      rewrite IsBankSupportedOnUSSD_true. cbn [negb].
      rewrite (bind_run _ _ _ _ _ Hens). unfold fromMapToReader. rewrite Hm.
      rewrite generateUrl_then, Hparse. reflexivity.
  - left. apply bind_Panic. unfold FetchUSSDTransaction.
    rewrite (bind_run _ _ _ _ _ Hens), generateUrl_then, Hparse. reflexivity.
  - left. apply bind_Panic. cbn [FetchTransaction].
    rewrite (bind_run _ _ _ _ _ Hens). cbv zeta. rewrite generateUrl_then, Hparse.
    reflexivity.
Qed.
End UnparsableBaseUrl.

(** ** Why an operation starts again *)

Section Retries.
Context {S T : Type} {store : Storage S} {transport : HttpClient T} {platform : Platform}.

Lemma no_request_among_quiet (evs : list Event) :
  Forall (fun e => quiet e = true) evs -> filter is_request evs = [].
Proof.
  induction 1 as [| e evs He _ IH]; [reflexivity |].
  rewrite filter_cons. unfold quiet in He. destruct (is_request e); [discriminate | exact IH].
Qed.

Lemma Forall_removelast_cons {A : Type} (P : A -> Prop) (x : A) (l : list A) :
  P x -> Forall P (removelast l) -> Forall P (removelast (x :: l)).
Proof.
  intros Hx Hl. destruct l as [| y l]; [constructor |].
  change (removelast (x :: y :: l)) with (x :: removelast (y :: l)). now constructor.
Qed.

(** what the lemmas of this section say of the events [evs] that a run has
    added: the requests among them, the last one apart, were answered with
    403 *)
Local Abbreviation but_last_forbidden evs :=
  (Forall (fun e => answered_with e = Some StatusForbidden)
     (removelast (filter is_request evs))).

Lemma but_last_forbidden_quiet (evs : list Event) :
  Forall (fun e => quiet e = true) evs -> but_last_forbidden evs.
Proof. intros Hq. rewrite (no_request_among_quiet _ Hq). constructor. Qed.

Lemma but_last_forbidden_request (evs : list Event) (req : Request)
    (res : string + Response) :
  Forall (fun e => quiet e = true) evs -> but_last_forbidden (evs ++ [EDo req res]).
Proof.
  intros Hq. rewrite filter_app, (no_request_among_quiet _ Hq). constructor.
Qed.

Lemma but_last_forbidden_again (evs evs' : list Event) (req : Request) (resp : Response) :
  Forall (fun e => quiet e = true) evs ->
  StatusCode resp = StatusForbidden ->
  but_last_forbidden evs' ->
  but_last_forbidden (evs ++ [EDo req (inr resp)] ++ evs').
Proof.
  intros Hq Hcode Hrest. rewrite !filter_app, (no_request_among_quiet _ Hq).
  apply Forall_removelast_cons; [cbn; now rewrite Hcode | exact Hrest].
Qed.

Lemma BalanceEnquiry_retries (r : Client) (fuel : nat) (st : State S T) :
  exists evs,
    trace (final (BalanceEnquiry fuel r st)) = trace st ++ evs /\ but_last_forbidden evs.
Proof.
  revert st. induction fuel as [| fuel IH]; intros st.
  { exists []. cbn. rewrite app_nil_r. split; [reflexivity | constructor]. }
  destruct (adds_ensureUserIsAuthenticated r st) as (evs & Htr & Hq).
  destruct (BalanceEnquiry_round fuel r st)
    as [-> | (url & res & t' & [-> | [(resp & -> & Hcode) ->]])].
  - exists evs. split; [exact Htr | now apply but_last_forbidden_quiet].
  - exists (evs ++ [EDo (built_request "GET" url None
                           (access (final (ensureUserIsAuthenticated r st)))) res]).
    cbn [after_request trace]. rewrite Htr, <- app_assoc.
    split; [reflexivity | now apply but_last_forbidden_request].
  - match goal with
    | |- context [BalanceEnquiry fuel r ?st2] => destruct (IH st2) as (evs' & Htr' & Hrest)
    end.
    cbn [after_reset trace] in Htr'. rewrite Htr in Htr'.
    eexists (evs ++ [EDo _ (inr resp)] ++ evs'). rewrite Htr', <- !app_assoc.
    split; [reflexivity | now apply but_last_forbidden_again].
Qed.

Lemma FetchTransaction_retries (r : Client) (options : option FetchTransactionOption)
    (fuel : nat) (st : State S T) :
  exists evs,
    trace (final (FetchTransaction fuel r options st)) = trace st ++ evs
    /\ but_last_forbidden evs.
Proof.
  revert st. induction fuel as [| fuel IH]; intros st.
  { exists []. cbn. rewrite app_nil_r. split; [reflexivity | constructor]. }
  destruct (adds_ensureUserIsAuthenticated r st) as (evs & Htr & Hq).
  destruct (FetchTransaction_round fuel r options st)
    as [-> | (url & res & t' & [-> | [(resp & -> & Hcode) ->]])].
  - exists evs. split; [exact Htr | now apply but_last_forbidden_quiet].
  - exists (evs ++ [EDo (built_request "GET" url None
                           (access (final (ensureUserIsAuthenticated r st)))) res]).
    cbn [after_request trace]. rewrite Htr, <- app_assoc.
    split; [reflexivity | now apply but_last_forbidden_request].
  - match goal with
    | |- context [FetchTransaction fuel r options ?st2] =>
        destruct (IH st2) as (evs' & Htr' & Hrest)
    end.
    cbn [after_reset trace] in Htr'. rewrite Htr in Htr'.
    eexists (evs ++ [EDo _ (inr resp)] ++ evs'). rewrite Htr', <- !app_assoc.
    split; [reflexivity | now apply but_last_forbidden_again].
Qed.

(** X21: An operation starts again for one reason only, an answer with the status
    403: of the requests that a call sends, every one but the last was
    answered with 403.  A transport error, a status 401 or 5xx end the
    call. *)
Theorem retries_only_after_403 (r : Client) (op : operation) (fuel : nat)
    (st : State S T) :
  exists evs,
    trace (final (run fuel r op st)) = trace st ++ evs
    /\ Forall (fun e => answered_with e = Some StatusForbidden)
         (removelast (filter is_request evs)).
Proof.
  destruct op as [| reference amount bankCode | reference | options]; cbn [run];
    rewrite final_bind_ret.
  - apply BalanceEnquiry_retries.
  - destruct (adds_ensureUserIsAuthenticated r st) as (evs & Htr & Hq).
    destruct (GenerateUSSD_round r reference amount bankCode st)
      as [-> | (url & payload & res & t' & ->)].
    + exists evs. split; [exact Htr | now apply but_last_forbidden_quiet].
    + eexists (evs ++ [EDo _ res]). cbn [after_request trace]. rewrite Htr, <- app_assoc.
      split; [reflexivity | now apply but_last_forbidden_request].
  - destruct (adds_ensureUserIsAuthenticated r st) as (evs & Htr & Hq).
    destruct (FetchUSSDTransaction_round r reference st) as [-> | (url & res & t' & ->)].
    + exists evs. split; [exact Htr | now apply but_last_forbidden_quiet].
    + eexists (evs ++ [EDo _ res]). cbn [after_request trace]. rewrite Htr, <- app_assoc.
      split; [reflexivity | now apply but_last_forbidden_request].
  - apply FetchTransaction_retries.
Qed.
End Retries.

(** ** Where an [ErrorResponse] comes from *)

Section ErrorResponses.
Context {S T : Type} {store : Storage S} {transport : HttpClient T} {platform : Platform}.

(** what [doRequest] returned, whatever it is, is what the response held *)
Lemma doRequest_inv (req : Request) (st st' : State S T) (code : Z)
    (data : option string) (err : option error) :
  doRequest req st = Ok (code, data, err) st' ->
  (exists msg, err = Some (Foreign msg))
  \/ exists resp,
       err = None
       /\ trace st' = trace st ++ [EDo req (inr resp)]
       /\ code = StatusCode resp /\ data = fst <$> RespBody resp.
Proof.
  rewrite doRequest_run. cbv zeta.
  destruct (Do req (httpClient st)) as [[msg | resp] t']; cbn [fst snd].
  { intros [= <- <- <- <-]. left. eauto. }
  destruct (RespBody resp) as [[body [msg |]] |] eqn:Hbody; intros [= <- <- <- <-].
  - left. cbn. eauto.
  - right. exists resp. rewrite Hbody. now repeat split.
  - right. exists resp. rewrite Hbody. now repeat split.
Qed.

(** the error that an answer without a success status is turned into *)
Lemma toErrorResponse_inv (data : option string) (e : ErrorResponse) :
  toErrorResponse data = ErrResponse e -> json_Unmarshal_ErrorResponse (bytes data) = inr e.
Proof.
  unfold toErrorResponse. destruct (json_Unmarshal_ErrorResponse _); [discriminate |].
  now intros [= ->].
Qed.

(** what the lemmas of this section say of a run from [st] that ended in
    [st'] with the error [e] *)
Local Abbreviation decoded_or_empty e st st' :=
  (exists evs req resp,
      trace st' = trace st ++ evs ++ [EDo req (inr resp)]
      /\ (RespBody resp = None /\ ErrResponse e = ErrEmptyResponse
          \/ successCode (StatusCode resp) = false
             /\ json_Unmarshal_ErrorResponse (bytes (fst <$> RespBody resp)) = inr e)).

(** an [ErrorResponse] is no error of ensuring authentication *)
Lemma ensure_no_ErrorResponse (r : Client) (st st1 : State S T) (e : ErrorResponse) :
  ensureUserIsAuthenticated r st <> Ok (Some (ErrResponse e)) st1.
Proof. intros Hens. exact (ensure_errors r st st1 _ Hens). Qed.

(** nor of building a request *)
Lemma newRequest_no_ErrorResponse (method url : string) (body : option string)
    (st st1 : State S T) (e : ErrorResponse) :
  newRequest method url body st <> Ok (inl (ErrResponse e)) st1.
Proof. intros Hnew. apply newRequest_errors in Hnew as [msg [=]]. Qed.

Lemma BalanceEnquiry_error_response (r : Client) (fuel : nat) :
  forall (st st' : State S T) (e : ErrorResponse),
    BalanceEnquiry fuel r st = Ok (inl (ErrResponse e)) st' -> decoded_or_empty e st st'.
Proof.
  induction fuel as [| fuel IH]; intros st st' e Hop; [discriminate Hop |].
  cbn [BalanceEnquiry] in Hop.
  apply bind_Ok in Hop as ([e0 |] & st1 & Hens & Hop).
  { injection Hop as -> <-. now destruct (ensure_no_ErrorResponse r st st1 e). }
  apply bind_Ok in Hop as (url & st2 & Hurl & Hop).
  apply bind_Ok in Hop as ([e0 | request] & st3 & Hnew & Hop).
  { injection Hop as -> <-. now destruct (newRequest_no_ErrorResponse _ _ _ _ _ _ Hnew). }
  destruct (grown_to_request _ _ _ _ _ _ _ _ _ _ _ Hens Hurl Hnew) as (evs & Hevs).
  apply bind_Ok in Hop as ([[code data] err] & st4 & Hdo & Hop).
  apply doRequest_inv in Hdo as [[msg ->] | (resp & -> & Htr & -> & ->)];
    [discriminate Hop |].
  destruct (StatusCode resp =? StatusForbidden).
  { apply bind_Ok in Hop as ([] & st5 & Hreset & Hop).
    destruct (grown (adds_access_reset any_event) Hreset) as (e2 & T2).
    destruct (IH _ _ _ Hop) as (evs' & req & resp' & Htr' & Hrest).
    exists (evs ++ [EDo request (inr resp)] ++ e2 ++ evs'), req, resp'.
    split; [| exact Hrest]. rewrite Htr', T2, Htr, Hevs, <- !app_assoc. reflexivity. }
  destruct (successCode (StatusCode resp)) eqn:Hcode; cbn [negb] in Hop.
  { destruct (NewBalanceResponse _) as [[e0 | b] |]; discriminate Hop. }
  injection Hop as Herr <-. apply toErrorResponse_inv in Herr.
  exists evs, request, resp.
  split; [rewrite Htr, Hevs, <- app_assoc; reflexivity |]. right. now split.
Qed.

Lemma FetchTransaction_error_response (r : Client)
    (options : option FetchTransactionOption) (fuel : nat) :
  forall (st st' : State S T) (e : ErrorResponse),
    FetchTransaction fuel r options st = Ok (inl (ErrResponse e)) st' ->
    decoded_or_empty e st st'.
Proof.
  induction fuel as [| fuel IH]; intros st st' e Hop; [discriminate Hop |].
  cbn [FetchTransaction] in Hop.
  apply bind_Ok in Hop as ([e0 |] & st1 & Hens & Hop).
  { injection Hop as -> <-. now destruct (ensure_no_ErrorResponse r st st1 e). }
  cbv zeta in Hop.
  apply bind_Ok in Hop as (url & st2 & Hurl & Hop).
  apply bind_Ok in Hop as ([e0 | request] & st3 & Hnew & Hop).
  { injection Hop as -> <-. now destruct (newRequest_no_ErrorResponse _ _ _ _ _ _ Hnew). }
  destruct (grown_to_request _ _ _ _ _ _ _ _ _ _ _ Hens Hurl Hnew) as (evs & Hevs).
  apply bind_Ok in Hop as ([[code data] err] & st4 & Hdo & Hop).
  apply doRequest_inv in Hdo as [[msg ->] | (resp & -> & Htr & -> & Hdata)];
    [discriminate Hop |].
  destruct data as [data |].
  2: { injection Hop as He <-. exists evs, request, resp.
       split; [rewrite Htr, Hevs, <- app_assoc; reflexivity |].
       left. split; [| rewrite <- He; reflexivity]. now destruct (RespBody resp). }
  destruct (StatusCode resp =? StatusForbidden).
  { apply bind_Ok in Hop as ([] & st5 & Hreset & Hop).
    destruct (grown (adds_access_reset any_event) Hreset) as (e2 & T2).
    destruct (IH _ _ _ Hop) as (evs' & req & resp' & Htr' & Hrest).
    exists (evs ++ [EDo request (inr resp)] ++ e2 ++ evs'), req, resp'.
    split; [| exact Hrest]. rewrite Htr', T2, Htr, Hevs, <- !app_assoc. reflexivity. }
  destruct (successCode (StatusCode resp)) eqn:Hcode; cbn [negb] in Hop.
  { destruct (NewWalletTransactions _) as [e0 | txs]; discriminate Hop. }
  injection Hop as Herr <-. apply toErrorResponse_inv in Herr. rewrite Hdata in Herr.
  exists evs, request, resp.
  split; [rewrite Htr, Hevs, <- app_assoc; reflexivity |]. right. now split.
Qed.

Lemma GenerateUSSD_error_response (r : Client) (reference : string) (amount : float64)
    (bankCode : string) (st st' : State S T) (e : ErrorResponse) :
  GenerateUSSD r reference amount bankCode st = Ok (inl (ErrResponse e)) st' ->
  decoded_or_empty e st st'.
Proof.
  intros Hop. unfold GenerateUSSD in Hop.
  rewrite IsBankSupportedOnUSSD_true in Hop. cbn [negb] in Hop.
  apply bind_Ok in Hop as ([e0 |] & st1 & Hens & Hop).
  { injection Hop as -> <-. now destruct (ensure_no_ErrorResponse r st st1 e). }
  unfold fromMapToReader in Hop.
  destruct (json_Marshal_payload _ _ _) as [msg | payloadReader]; [discriminate Hop |].
  apply bind_Ok in Hop as (url & st2 & Hurl & Hop).
  apply bind_Ok in Hop as ([e0 | request] & st3 & Hnew & Hop).
  { injection Hop as -> <-. now destruct (newRequest_no_ErrorResponse _ _ _ _ _ _ Hnew). }
  destruct (grown_to_request _ _ _ _ _ _ _ _ _ _ _ Hens Hurl Hnew) as (evs & Hevs).
  apply bind_Ok in Hop as ([[code data] err] & st4 & Hdo & Hop).
  apply doRequest_inv in Hdo as [[msg ->] | (resp & -> & Htr & -> & Hdata)];
    [discriminate Hop |].
  destruct data as [data |].
  2: { injection Hop as He <-. exists evs, request, resp.
       split; [rewrite Htr, Hevs, <- app_assoc; reflexivity |].
       left. split; [| rewrite <- He; reflexivity]. now destruct (RespBody resp). }
  destruct (successCode (StatusCode resp)) eqn:Hcode; cbn [negb] in Hop.
  { unfold NewUssdTransactionResponse in Hop.
    destruct (json_Unmarshal_Ussd _) as [e0 | u]; discriminate Hop. }
  injection Hop as Herr <-. apply toErrorResponse_inv in Herr. rewrite Hdata in Herr.
  exists evs, request, resp.
  split; [rewrite Htr, Hevs, <- app_assoc; reflexivity |]. right. now split.
Qed.

Lemma FetchUSSDTransaction_error_response (r : Client) (reference : string)
    (st st' : State S T) (e : ErrorResponse) :
  FetchUSSDTransaction r reference st = Ok (inl (ErrResponse e)) st' ->
  decoded_or_empty e st st'.
Proof.
  intros Hop. unfold FetchUSSDTransaction in Hop.
  apply bind_Ok in Hop as ([e0 |] & st1 & Hens & Hop).
  { injection Hop as -> <-. now destruct (ensure_no_ErrorResponse r st st1 e). }
  apply bind_Ok in Hop as (url & st2 & Hurl & Hop).
  apply bind_Ok in Hop as ([e0 | request] & st3 & Hnew & Hop).
  { injection Hop as -> <-. now destruct (newRequest_no_ErrorResponse _ _ _ _ _ _ Hnew). }
  destruct (grown_to_request _ _ _ _ _ _ _ _ _ _ _ Hens Hurl Hnew) as (evs & Hevs).
  apply bind_Ok in Hop as ([[code data] err] & st4 & Hdo & Hop).
  apply doRequest_inv in Hdo as [[msg ->] | (resp & -> & Htr & -> & Hdata)];
    [discriminate Hop |].
  destruct data as [data |].
  2: { injection Hop as He <-. exists evs, request, resp.
       split; [rewrite Htr, Hevs, <- app_assoc; reflexivity |].
       left. split; [| rewrite <- He; reflexivity]. now destruct (RespBody resp). }
  destruct (successCode (StatusCode resp)) eqn:Hcode; cbn [negb] in Hop.
  { unfold NewUssdTransactionResponse in Hop.
    destruct (json_Unmarshal_Ussd _) as [e0 | u]; discriminate Hop. }
  injection Hop as Herr <-. apply toErrorResponse_inv in Herr. rewrite Hdata in Herr.
  exists evs, request, resp.
  split; [rewrite Htr, Hevs, <- app_assoc; reflexivity |]. right. now split.
Qed.

(** X23: An [ErrorResponse] that an operation returns as its error is never made
    up.  The last thing the operation did, the last event it added to the
    trace, was to receive an answer: either the answer had no body, and the
    error is [ErrEmptyResponse], or its
    status was no success and the error is what the body decoded to. *)
Theorem error_response_is_decoded_or_empty (r : Client) (op : operation) (fuel : nat)
    (st st' : State S T) (e : ErrorResponse) :
  run fuel r op st = Ok (Some (ErrResponse e)) st' ->
  exists evs req resp,
    trace st' = trace st ++ evs ++ [EDo req (inr resp)]
    /\ (RespBody resp = None /\ ErrResponse e = ErrEmptyResponse
        \/ successCode (StatusCode resp) = false
           /\ json_Unmarshal_ErrorResponse (bytes (fst <$> RespBody resp)) = inr e).
Proof.
  intros Hrun.
  destruct op as [| reference amount bankCode | reference | options]; cbn [run] in Hrun;
    apply bind_Ok in Hrun as (res & st1 & Hop & Hret); injection Hret as Hres <-;
    (destruct res as [e0 | x]; [| discriminate Hres]); injection Hres as ->.
  - exact (BalanceEnquiry_error_response r fuel _ _ _ Hop).
  - exact (GenerateUSSD_error_response r _ _ _ _ _ _ Hop).
  - exact (FetchUSSDTransaction_error_response r _ _ _ _ Hop).
  - exact (FetchTransaction_error_response r options fuel _ _ _ Hop).
Qed.
End ErrorResponses.

(** ** Runs on the test doubles, continued *)

Lemma authentication_failure_sends_nothing_witness :
  let st : State mockStore stubServer :=
    fresh NewMockStore (mkStubServer (reply 401 "denied") [reply StatusOK "balance"]) in
  let st1 :=
    final (ensureUserIsAuthenticated (platform := stubPlatform stepping_clock) testClient st) in
  run (platform := stubPlatform stepping_clock) 1 testClient OpBalanceEnquiry st
  = Ok (Some (ErrLoginFailed "denied")) st1
  /\ round_trips (trace st1) = round_trips (trace st).
Proof.
  cbv zeta.
  apply (authentication_failure_sends_nothing (platform := stubPlatform stepping_clock)).
  apply returned_Ok. vm_compute. reflexivity.
Defined.

Lemma warmStore_serves :
  serves warmStore (makeAuthCacheKeys testClient)
    "Bearer Token" "1234" "3132333431323334" 1600003600.
Proof.
  repeat split; first [apply mockStore_GetString | apply mockStore_GetInt];
    vm_compute; reflexivity.
Qed.

Lemma stored_session_is_never_renewed_witness :
  let st : State mockStore stubServer :=
    fresh warmStore
      (mkStubServer login_ok
         [reply StatusForbidden "denied"; reply StatusForbidden "denied";
          reply StatusOK "balance"]) in
  let ended :=
    final (run (platform := stubPlatform stepping_clock) 3 testClient OpBalanceEnquiry st) in
  storage ended = storage st
  /\ exists evs, trace ended = trace st ++ evs
                 /\ Forall (fun ev => read_or_request [credentials st; ("Bearer Token", "1234")] ev = true)
                      evs.
Proof.
  cbv zeta.
  apply (stored_session_is_never_renewed (platform := stubPlatform stepping_clock)
           testClient "Bearer Token" "1234" "3132333431323334" 1600003600).
  - discriminate.
  - discriminate.
  - discriminate.
  - unfold MaxInt64. lia.
  - exact warmStore_serves.
  - intros i Hi. cbn [ticks fresh] in Hi. cbn [wall stubPlatform].
    unfold stepping_clock. change (time.FromUnix 1600003600) with 63735600400000000000.
    change (time.FromUnix 1600000000) with 63735596800000000000.
    unfold time.Second. lia.
Defined.

Lemma login_nil_session_witness :
  let st : State mockStore stubServer := fresh NewMockStore (mkStubServer login_ok []) in
  let st' := final (login (platform := stubPlatform stepping_clock) testClient st) in
  let p := access st' in
  (exists reads,
      trace st' = trace st ++ reads
      /\ Forall (fun e => is_read e = true) reads
      /\ authorization p <> "" /\ sessionID p <> "" /\ encodedPin p <> ""
      /\ expiration p <> time.zero
      /\ wall (Platform := stubPlatform stepping_clock) (Nat.pred (ticks st')) <= expiration p)
  \/ (exists reads url form resp writes,
         trace st' = trace st ++ reads ++ EPostForm url form (inr resp) :: writes
         /\ Forall (fun e => is_read e = true) reads
         /\ Forall (fun e => is_write e = true) writes /\ length writes = 4%nat
         /\ successCode (StatusCode resp) = true
         /\ (DesEncrypt (Platform := stubPlatform stepping_clock) (Pin (account testClient))
               (Header_Get (RespHeader resp) "X-SessionID")).2 = None
         /\ p = {| authorization := Header_Get (RespHeader resp) "Authorization";
                   sessionID := Header_Get (RespHeader resp) "X-SessionID";
                   expiration :=
                     time.Add (wall (Platform := stubPlatform stepping_clock)
                                 (Nat.pred (ticks st')))
                       (SessionLength (account testClient));
                   encodedPin :=
                     (DesEncrypt (Platform := stubPlatform stepping_clock)
                        (Pin (account testClient))
                        (Header_Get (RespHeader resp) "X-SessionID")).1 |}).
Proof.
  cbv zeta.
  apply (login_nil_session (platform := stubPlatform stepping_clock) testClient).
  apply returned_Ok. vm_compute. reflexivity.
Defined.

Lemma persisted_session_is_read_back_witness :
  let k := makeAuthCacheKeys testClient in
  let st : State mockStore stubServer :=
    mkState liveSession NewMockStore (mkStubServer login_ok []) O [] in
  exists st1 sth,
    persist testClient k st = Ok None st1
    /\ hydrate k (fresh (storage st1) (mkStubServer login_ok [])) = Ok tt sth
    /\ authorization (access sth) = "Bearer Token"
    /\ sessionID (access sth) = "1234"
    /\ encodedPin (access sth) = "3132333431323334"
    /\ expiration (access sth) = time.FromUnix 1600003600.
Proof.
  cbv zeta.
  destruct (persisted_session_is_read_back testClient
              (mkState liveSession NewMockStore (mkStubServer login_ok []) O [])
              (mkAuthParams "" "" time.zero "") (mkStubServer login_ok []) O [])
    as (st1 & sth & Hp & _ & Hh & Ha & Hs & Hpin & He & _).
  - reflexivity.
  - reflexivity.
  - exists st1, sth. split; [exact Hp |]. split; [exact Hh |].
    split; [exact Ha |]. split; [exact Hs |]. split; [exact Hpin |]. exact He.
Defined.

Lemma login_does_not_check_the_token_witness :
  let st : State mockStore stubServer :=
    fresh NewMockStore (mkStubServer login_no_token []) in
  let st' := final (login (platform := stubPlatform stepping_clock) testClient st) in
  login (platform := stubPlatform stepping_clock) testClient st = Ok None st'
  /\ authorization (access st') = ""
  /\ hasSessionExpired (platform := stubPlatform stepping_clock) st' = Ok true st'.
Proof.
  cbv zeta.
  destruct (login_does_not_check_the_token (platform := stubPlatform stepping_clock)
              testClient (fresh NewMockStore (mkStubServer login_no_token []))
              "http://127.0.0.1:8080/rc/rest/agent/login"
              [("userName", "sample"); ("password", "password"); ("sessionLength", "3600")]
              login_no_token "{}")
    as (Hlogin & Htoken & _ & Hexpired).
  - apply (list_elem_of_lookup_2 _ 4%nat). vm_compute. reflexivity.
  - reflexivity.
  - reflexivity.
  - reflexivity.
  - intros key val exp s. reflexivity.
  - intros key val exp s. reflexivity.
  - split; [exact Hlogin |]. split; [exact Htoken |]. apply Hexpired. reflexivity.
Defined.

Lemma login_error_provenance_witness :
  let st : State mockStore stubServer :=
    fresh NewMockStore (mkStubServer (reply 401 "denied") []) in
  let st' := final (login (platform := stubPlatform stepping_clock) testClient st) in
  login (platform := stubPlatform stepping_clock) testClient st
  = Ok (Some (ErrLoginFailed "denied")) st'
  /\ exists reads url form post writes,
       trace st' = trace st ++ reads ++ EPostForm url form post :: writes
       /\ Forall (fun ev => is_read ev = true) reads.
Proof.
  cbv zeta.
  assert (Hlogin : login (platform := stubPlatform stepping_clock) testClient
                     (fresh NewMockStore (mkStubServer (reply 401 "denied") []))
                   = Ok (Some (ErrLoginFailed "denied"))
                       (final (login (platform := stubPlatform stepping_clock) testClient
                                 (fresh NewMockStore (mkStubServer (reply 401 "denied") []))))).
  { apply returned_Ok. vm_compute. reflexivity. }
  split; [exact Hlogin |].
  destruct (login_error_provenance (platform := stubPlatform stepping_clock) testClient
              _ _ _ Hlogin)
    as (sth & reads & url & form & post & writes & _ & Htr & Hreads & _).
  exists reads, url, form, post, writes. split; assumption.
Defined.

Lemma success_needs_success_status_witness :
  let st : State mockStore stubServer :=
    fresh NewMockStore (mkStubServer login_ok [reply StatusOK "balance"]) in
  let st' :=
    final (run (platform := stubPlatform stepping_clock) 1 testClient OpBalanceEnquiry st) in
  exists evs req resp,
    trace st' = trace st ++ evs ++ [EDo req (inr resp)]
    /\ StatusCode resp ∈ [StatusOK; StatusCreated; StatusAccepted].
Proof.
  cbv zeta.
  apply (success_needs_success_status (platform := stubPlatform stepping_clock)
           testClient OpBalanceEnquiry 1
           (fresh NewMockStore (mkStubServer login_ok [reply StatusOK "balance"]))).
  apply returned_Ok. vm_compute. reflexivity.
Defined.

Lemma USSD_result_has_callers_reference_witness :
  let st : State mockStore stubServer :=
    fresh NewMockStore (mkStubServer login_ok [reply StatusOK "*901*000*1111#"]) in
  let generated :=
    GenerateUSSD (platform := stubPlatform stepping_clock) testClient "user-defined-ref"
      (1000 : Z) "044" st in
  exists u, returned generated = Some (inr u)
            /\ UserDefinedReference u = "user-defined-ref".
Proof.
  cbv zeta.
  assert (Hrun : returned
                   (GenerateUSSD (platform := stubPlatform stepping_clock) testClient
                      "user-defined-ref" (1000 : Z) "044"
                      (fresh NewMockStore
                         (mkStubServer login_ok [reply StatusOK "*901*000*1111#"])))
                 = Some (inr (mkUssdTransactionResponse "user-defined-ref" "" ""
                                "*901*000*1111#" 0 "" 0 0 0 "" None None None None None)))
    by (vm_compute; reflexivity).
  eexists. split; [exact Hrun |].
  apply returned_Ok in Hrun.
  exact (proj1 (USSD_result_has_callers_reference
                  (platform := stubPlatform stepping_clock) testClient "user-defined-ref"
                  (1000 : Z) "044" _ _ _ (or_introl Hrun))).
Defined.

Lemma new_client_reads_storage_first_witness :
  let st : State mockStore stubServer :=
    fresh NewMockStore (mkStubServer login_ok [reply StatusOK "balance"]) in
  let r := mkClient testAccount "http://127.0.0.1:8080" in
  let k := makeAuthCacheKeys r in
  exists v1 e1 v2 e2 v3 e3 v4 e4 rest,
    trace (final (run (platform := stubPlatform stepping_clock) 1 r OpBalanceEnquiry st))
    = [EGetString (authorizationKey k) v1 e1; EGetString (sessionIDKey k) v2 e2;
       EGetString (encodedPinKey k) v3 e3; EGetInt (expirationKey k) v4 e4] ++ rest.
Proof.
  cbv zeta.
  apply (new_client_reads_storage_first (platform := stubPlatform stepping_clock)
           testAccount "http://127.0.0.1:8080" (mkClient testAccount "http://127.0.0.1:8080")
           OpBalanceEnquiry O
           (fresh NewMockStore (mkStubServer login_ok [reply StatusOK "balance"]))
           (fresh NewMockStore (mkStubServer login_ok [reply StatusOK "balance"]))).
  reflexivity.
Defined.

Lemma forbidden_forever_never_returns_witness :
  let st : State mockStore forbiddingServer := fresh warmStore ForbiddingServer in
  exists st',
    BalanceEnquiry (platform := stubPlatform stepping_clock) 5 testClient st = Timeout st'
    /\ round_trips (trace st') = 5%nat.
Proof.
  cbv zeta.
  refine (proj1 (forbidden_forever_never_returns (platform := stubPlatform stepping_clock)
                   testClient "Bearer Token" "1234" "3132333431323334" 1600003600
                   _ _ _ _ _ _ _ None 5 (fresh warmStore ForbiddingServer) _ _)).
  - discriminate.
  - discriminate.
  - discriminate.
  - unfold MaxInt64. lia.
  - intros u q. discriminate.
  - reflexivity.
  - intros req t. exists (reply StatusForbidden "denied"), t, "denied". now repeat split.
  - exact warmStore_serves.
  - intros i Hi. cbn [ticks fresh] in Hi. cbn [wall stubPlatform].
    unfold stepping_clock. change (time.FromUnix 1600003600) with 63735600400000000000.
    change (time.FromUnix 1600000000) with 63735596800000000000.
    unfold time.Second. lia.
Defined.

Lemma unparsable_base_url_panics_witness :
  let st : State mockStore stubServer :=
    mkState liveSession NewMockStore (mkStubServer login_ok [reply StatusOK "balance"]) O [] in
  let st1 :=
    final (ensureUserIsAuthenticated (platform := unparsablePlatform stepping_clock)
             testClient st) in
  run (platform := unparsablePlatform stepping_clock) 1 testClient OpBalanceEnquiry st
  = Panic st1.
Proof.
  cbv zeta.
  destruct (unparsable_base_url_panics (platform := unparsablePlatform stepping_clock)
              testClient OpBalanceEnquiry O
              (mkState liveSession NewMockStore
                 (mkStubServer login_ok [reply StatusOK "balance"]) O [])
              (final (ensureUserIsAuthenticated
                        (platform := unparsablePlatform stepping_clock) testClient
                        (mkState liveSession NewMockStore
                           (mkStubServer login_ok [reply StatusOK "balance"]) O []))))
    as [Hpanic | (reference & amount & bankCode & msg & Hop & _)].
  - reflexivity.
  - apply returned_Ok. vm_compute. reflexivity.
  - exact Hpanic.
  - discriminate Hop.
Defined.

Lemma session_length_must_be_positive_witness :
  let r := mkClient (mkAccount "sample" "password" "1234" 0) "http://127.0.0.1:8080" in
  let st : State mockStore stubServer := fresh NewMockStore (mkStubServer login_ok []) in
  let st' := final (login (platform := stubPlatform stepping_clock) r st) in
  login (platform := stubPlatform stepping_clock) r st = Ok None st'
  /\ exists st'', hasSessionExpired (platform := stubPlatform stepping_clock) st'
                  = Ok true st''.
Proof.
  cbv zeta.
  assert (Hlogin : login (platform := stubPlatform stepping_clock)
                     (mkClient (mkAccount "sample" "password" "1234" 0)
                        "http://127.0.0.1:8080")
                     (fresh NewMockStore (mkStubServer login_ok []))
                   = Ok None
                       (final (login (platform := stubPlatform stepping_clock)
                                 (mkClient (mkAccount "sample" "password" "1234" 0)
                                    "http://127.0.0.1:8080")
                                 (fresh NewMockStore (mkStubServer login_ok []))))).
  { apply returned_Ok. vm_compute. reflexivity. }
  split; [exact Hlogin |].
  apply (session_length_must_be_positive (platform := stubPlatform stepping_clock)
           (mkClient (mkAccount "sample" "password" "1234" 0) "http://127.0.0.1:8080")
           (fresh NewMockStore (mkStubServer login_ok [])) _
           "http://127.0.0.1:8080/rc/rest/agent/login"
           [("userName", "sample"); ("password", "password"); ("sessionLength", "0")]
           login_ok).
  - cbn [SessionLength account]. lia.
  - vm_compute. reflexivity.
  - exact Hlogin.
  - apply (list_elem_of_lookup_2 _ 4%nat). vm_compute. reflexivity.
Defined.

Lemma error_response_is_decoded_or_empty_witness :
  let st : State mockStore stubServer :=
    fresh NewMockStore (mkStubServer login_ok [reply 400 "bad request"]) in
  let st' :=
    final (run (platform := stubPlatform stepping_clock) 1 testClient OpBalanceEnquiry st) in
  exists evs req resp,
    trace st' = trace st ++ evs ++ [EDo req (inr resp)]
    /\ (RespBody resp = None
        /\ ErrResponse (NewErrorResponse 0 0 "bad request" "") = ErrEmptyResponse
        \/ successCode (StatusCode resp) = false
           /\ json_Unmarshal_ErrorResponse (Platform := stubPlatform stepping_clock)
                (bytes (fst <$> RespBody resp))
              = inr (NewErrorResponse 0 0 "bad request" "")).
Proof.
  cbv zeta.
  apply (error_response_is_decoded_or_empty (platform := stubPlatform stepping_clock)
           testClient OpBalanceEnquiry 1
           (fresh NewMockStore (mkStubServer login_ok [reply 400 "bad request"]))).
  apply returned_Ok. vm_compute. reflexivity.
Defined.

Lemma nonpositive_lifetime_is_not_read_back_witness :
  let r := mkClient (mkAccount "sample" "password" "1234" 0) "http://127.0.0.1:8080" in
  let k := makeAuthCacheKeys r in
  let st : State mockStore stubServer :=
    mkState liveSession NewMockStore (mkStubServer login_ok []) O [] in
  exists st1 sth,
    persist r k st = Ok None st1
    /\ hydrate k (fresh (storage st1) (mkStubServer login_ok [])) = Ok tt sth
    /\ access sth = mkAuthParams "" "" time.zero "".
Proof.
  cbv zeta.
  destruct (nonpositive_lifetime_is_not_read_back
              (mkClient (mkAccount "sample" "password" "1234" 0) "http://127.0.0.1:8080")
              (mkState liveSession NewMockStore (mkStubServer login_ok []) O [])
              (mkAuthParams "" "" time.zero "") (mkStubServer login_ok []) O [])
    as (st1 & sth & Hp & Hh & Ha & _).
  - cbn [SessionLength account]. lia.
  - exists st1, sth. split; [exact Hp |]. split; [exact Hh | exact Ha].
Defined.
